(** * rag_fe: the query-response normaliser, the chat and document hooks,
      the retry helper and the document status poller

    A shallow embedding of the client-side logic of the RAG front end and the
    properties its specification states about it.  Every definition below is
    a transcription of the TypeScript function of the same name; the source
    file and lines are given with each one. *)

From Stdlib Require Import ZArith NArith List String Ascii Lia Bool SpecFloat.
From Equations Require Import Equations.
From stdpp Require Import gmap strings list fin_maps pretty.
Import ListNotations.

Set Warnings "-register-all".

Local Open Scope string_scope.
Local Open Scope nat_scope.
Local Open Scope list_scope.

(* ===================================================================== *)
(** * 1. JavaScript strings                                               *)
(* ===================================================================== *)

(** A JavaScript string is a sequence of UTF-16 code units.  Regular
    expressions without the [u] flag and [String.prototype.trim] both work on
    code units, so this is the level at which the sanitiser is modelled. *)
Abbreviation jsstring := (list N).

(** Code units of an ASCII literal. *)
Fixpoint lit (s : string) : jsstring :=
  match s with
  | EmptyString => []
  | String a s' => N_of_ascii a :: lit s'
  end.

(** [Canonicalize] of the [i] flag (ECMA-262, 22.2.2.7.3, non-unicode case):
    a code unit is replaced by its upper-case form, except that a unit at or
    above 128 is never mapped below 128.  All patterns of this program are
    ASCII, and only equality with a canonical ASCII unit is ever observed, so
    the units at or above 128 are left as they are. *)
Definition canonicalize (ch : N) : N :=
  if ((97 <=? ch) && (ch <=? 122))%N then (ch - 32)%N else ch.

Definition char_ci (p c : N) : bool := (canonicalize p =? canonicalize c)%N.

(** The pattern [pat] matches at the head of [s], ignoring letter case. *)
Fixpoint starts_ci (pat s : jsstring) : bool :=
  match pat, s with
  | [], _ => true
  | _ :: _, [] => false
  | p :: pat', c :: s' => char_ci p c && starts_ci pat' s'
  end.

(** Offset of the leftmost occurrence of [pat] in [s]. *)
Fixpoint find_ci (pat s : jsstring) : option nat :=
  if starts_ci pat s then Some 0
  else match s with
       | [] => None
       | _ :: s' => option_map S (find_ci pat s')
       end.

(** [s.replace(re, '')] for a global regular expression [re]: the string is
    scanned from the left; where [re] matches, the match is dropped and the
    scan resumes behind it, otherwise one code unit is kept.  [re] gives the
    length of its match at the head of the string.  (All expressions used
    here match at least one unit.) *)
Equations? replaceAll (re : jsstring -> option nat) (s : jsstring) : jsstring
  by wf (length s) lt :=
  replaceAll re [] := [];
  replaceAll re (c :: s') with re (c :: s') => {
    | Some n := replaceAll re (drop (pred n) s');
    | None := c :: replaceAll re s' }.
Proof. all: simpl; try rewrite length_drop; lia. Qed.

(** White space and line terminators removed by [String.prototype.trim]. *)
Definition isWhiteSpace (c : N) : bool :=
  ((9 <=? c) && (c <=? 13) || (c =? 32) || (c =? 160) || (c =? 5760)
   || (8192 <=? c) && (c <=? 8202) || (c =? 8232) || (c =? 8233)
   || (c =? 8239) || (c =? 8287) || (c =? 12288) || (c =? 65279))%N.

Fixpoint trimStart (s : jsstring) : jsstring :=
  match s with
  | c :: s' => if isWhiteSpace c then trimStart s' else s
  | [] => []
  end.

Definition trimEnd (s : jsstring) : jsstring := rev (trimStart (rev s)).

Definition trim (s : jsstring) : jsstring := trimEnd (trimStart s).

(* ===================================================================== *)
(** * 2. The text sanitiser (src/unnamed/part_000, lines 758-770)         *)
(* ===================================================================== *)

Definition think_open : jsstring := lit "<think>".
Definition think_close : jsstring := lit "</think>".

(** [/<think>[\s\S]*?<\/think>/gi]: the opening tag, then the shortest run of
    arbitrary code units that is followed by the closing tag. *)
Definition think_re (s : jsstring) : option nat :=
  if starts_ci think_open s then
    match find_ci think_close (drop 7 s) with
    | Some k => Some (7 + k + 8)
    | None => None
    end
  else None.

Definition open_tag (name : string) : jsstring := lit ("<" ++ name ++ ">")%string.
Definition close_tag (name : string) : jsstring := lit ("</" ++ name ++ ">")%string.

(** [/<\/?name>/gi]: the closing or the opening token of the tag. *)
Definition tag_re (name : string) (s : jsstring) : option nat :=
  if starts_ci (close_tag name) s then Some (length (close_tag name))
  else if starts_ci (open_tag name) s then Some (length (open_tag name))
  else None.

Definition removeThinkTags (content : jsstring) : jsstring :=
  replaceAll think_re content.

Definition removeReasoningTags (s : jsstring) : jsstring :=
  replaceAll (tag_re "reasoning") s.

Definition removeAnswerTags (s : jsstring) : jsstring :=
  replaceAll (tag_re "final_answer") s.

Definition cleanResponseContent (content : jsstring) : jsstring :=
  match content with
  | [] => []
  | _ =>
      let withoutThinkTags := removeThinkTags content in
      let withoutReasoningTags := removeReasoningTags withoutThinkTags in
      let withoutAnswerTags := removeAnswerTags withoutReasoningTags in
      trim withoutAnswerTags
  end.

(** ** Vocabulary of the specification *)

(** [x] is the tag [pat] up to letter case. *)
Definition eq_ci (pat x : jsstring) : bool :=
  (length x =? length pat) && starts_ci pat x.

(** [pat] occurs somewhere in [s], ignoring letter case. *)
Fixpoint occurs_ci (pat s : jsstring) : bool :=
  starts_ci pat s ||
  match s with
  | [] => false
  | _ :: s' => occurs_ci pat s'
  end.

(** [s] contains an opening think tag that is followed by a closing one. *)
Fixpoint has_think_span (s : jsstring) : bool :=
  match s with
  | [] => false
  | _ :: s' =>
      starts_ci think_open s && occurs_ci think_close (drop 7 s)
      || has_think_span s'
  end.

(** [x] is the opening or the closing token of the tag [name]. *)
Definition is_tag (name : string) (x : jsstring) : bool :=
  eq_ci (open_tag name) x || eq_ci (close_tag name) x.

Definition occurs_tag (name : string) (s : jsstring) : bool :=
  occurs_ci (open_tag name) s || occurs_ci (close_tag name) s.

(** Text on which the sanitiser finds nothing to remove. *)
Definition markup_free (s : jsstring) : bool :=
  negb (has_think_span s) && negb (occurs_tag "reasoning" s)
  && negb (occurs_tag "final_answer" s).

(** No white space at the head, respectively at either end. *)
Definition starts_clean (s : jsstring) : Prop :=
  match s with
  | [] => True
  | c :: _ => isWhiteSpace c = false
  end.

Definition trimmed (s : jsstring) : Prop :=
  match s with
  | [] => True
  | c :: _ => isWhiteSpace c = false /\ isWhiteSpace (List.last s c) = false
  end.

(** The tag name does not itself begin with [/]: the unit after [<] in an
    opening token is then not the [/] of a closing one. *)
Definition plain_name (name : string) : bool :=
  negb (starts_ci [47%N] (lit (name ++ ">")%string)).

(* ===================================================================== *)
(** * 3. JavaScript values and exceptions                                 *)
(* ===================================================================== *)

(** A decoded JSON payload.  Numbers are kept as integers plus [NaN]; the
    code below only ever tests a number for truthiness, where a fraction
    behaves like any other non-zero number.  An object is the list of its
    fields; a name is read at its first binding. *)
Inductive JSValue : Type :=
| JUndefined
| JNull
| JBool (b : bool)
| JNumber (n : Z)
| JNaN
| JString (s : jsstring)
| JArray (items : list JSValue)
| JObject (fields : list (string * JSValue)).

(** [ToBoolean] *)
Definition truthy (v : JSValue) : bool :=
  match v with
  | JUndefined | JNull | JNaN => false
  | JBool b => b
  | JNumber n => negb (n =? 0)%Z
  | JString s => match s with [] => false | _ => true end
  | JArray _ | JObject _ => true
  end.

Fixpoint assoc (k : string) (fields : list (string * JSValue)) : option JSValue :=
  match fields with
  | [] => None
  | (k', v) :: rest => if String.eqb k k' then Some v else assoc k rest
  end.

(** [v] is an object that has the field [k]. *)
Definition field (v : JSValue) (k : string) : option JSValue :=
  match v with
  | JObject fields => assoc k fields
  | _ => None
  end.

(** Completion of an evaluation: a value, or a thrown exception. *)
Inductive Result (A : Type) : Type :=
| Ret (a : A)
| Throw (message : string).
Arguments Ret {A} a.
Arguments Throw {A} message.

#[global] Instance Result_bind : MBind Result := fun A B k r =>
  match r with
  | Ret a => k a
  | Throw e => Throw e
  end.

(** [v.k]: reading a property of [undefined] or [null] throws a TypeError;
    a missing property reads as [undefined].  (The names read in this program
    are no properties of strings, numbers, booleans or arrays.) *)
Definition member (v : JSValue) (k : string) : Result JSValue :=
  match v with
  | JUndefined | JNull => Throw "TypeError"
  | _ => Ret (default JUndefined (field v k))
  end.

(** [v?.k] *)
Definition opt_member (v : JSValue) (k : string) : JSValue :=
  match v with
  | JUndefined | JNull => JUndefined
  | _ => default JUndefined (field v k)
  end.

(* ===================================================================== *)
(** * 4. The response normaliser (src/unnamed/part_000, lines 743-756)    *)
(* ===================================================================== *)

(** [None] is the [null] result.  [otherwise] is the chain of [else if]
    branches that follows when the first condition is falsy. *)
Definition extractQueryData (response : JSValue) : Result (option JSValue) :=
  let otherwise : Result (option JSValue) :=
    if truthy (opt_member (opt_member response "data") "response") then
      d ← member response "data";
      Ret (Some d)
    else if truthy (opt_member response "response") then
      Ret (Some response)
    else Ret None in
  if truthy (opt_member (opt_member response "data") "success") then
    d ← member response "data";
    if truthy (opt_member d "data") then
      d' ← member response "data";
      payload ← member d' "data";
      Ret (Some payload)
    else otherwise
  else otherwise.

(** ** The three shapes, in the words of the specification *)

(** (a) a [data] envelope whose [success] is truthy and whose [data] is the
    payload; (b) a [data] payload with a [response] field; (c) a [response]
    field at the top.  [ok] says when a field's value counts. *)
Definition shape_a (ok : JSValue -> bool) (r payload : JSValue) : Prop :=
  exists env s,
    field r "data" = Some env /\ field env "success" = Some s /\ truthy s = true
    /\ field env "data" = Some payload /\ ok payload = true.

Definition shape_b (ok : JSValue -> bool) (r payload : JSValue) : Prop :=
  exists x,
    field r "data" = Some payload /\ field payload "response" = Some x
    /\ ok x = true.

Definition shape_c (ok : JSValue -> bool) (r : JSValue) : Prop :=
  exists x, field r "response" = Some x /\ ok x = true.

(** A field that is merely there, whatever its value. *)
Definition present (_ : JSValue) : bool := true.

(* ===================================================================== *)
(** * 5. The chat hook (src/unnamed/part_008, lines 15-326)               *)
(* ===================================================================== *)

Inductive MessageType := user | assistant.

(** Optional fields are [JUndefined] (respectively [None]) when absent. *)
Record ChatMessage := {
  msg_id : string;
  msg_type : MessageType;
  msg_content : jsstring;
  msg_timestamp : Z;
  msg_topics : JSValue;
  msg_sources : JSValue;
  msg_rating : option Z;
  msg_queryId : JSValue;
  msg_reasoning : JSValue;
  msg_topicAnalyses : JSValue;
  msg_processingTime : JSValue
}.

(** [a || b] *)
Definition or_else (a b : JSValue) : JSValue := if truthy a then a else b.

Definition nullish (v : JSValue) : bool :=
  match v with
  | JUndefined | JNull => true
  | _ => false
  end.

(** Iteration of a string goes by code points: a surrogate pair is one item. *)
Fixpoint code_points (s : jsstring) : list JSValue :=
  match s with
  | [] => []
  | hi :: rest =>
      match rest with
      | lo :: rest' =>
          if ((55296 <=? hi) && (hi <=? 56319) && (56320 <=? lo) && (lo <=? 57343))%N
          then JString [hi; lo] :: code_points rest'
          else JString [hi] :: code_points rest
      | [] => [JString [hi]]
      end
  end.

(** [[...v]]: arrays and strings are iterable, other values are not. *)
Definition spread (v : JSValue) : Result (list JSValue) :=
  match v with
  | JArray items => Ret items
  | JString s => Ret (code_points s)
  | _ => Throw "TypeError"
  end.

(** [cleanResponseContent] applied to whatever the payload holds as its
    [response]: a falsy value gives the empty string, a string is sanitised,
    and any other value has no [replace] method. *)
Definition cleanResponseContent_value (content : JSValue) : Result jsstring :=
  if negb (truthy content) then Ret []
  else match content with
       | JString s => Ret (cleanResponseContent s)
       | _ => Throw "TypeError"
       end.

(** [extractProcessingStats] (lines 26-37).  The statistics only feed the
    toast; for the message list it matters whether their evaluation throws:
    [topic_analyses?.reduce] needs an array whose items have properties, and
    [new Set(sources || [])] needs an iterable. *)
Definition extractProcessingStats_completes (queryData : JSValue) : Result unit :=
  _ ← match opt_member queryData "topic_analyses" with
      | JUndefined | JNull => Ret ()
      | JArray items => if existsb nullish items then Throw "TypeError" else Ret ()
      | _ => Throw "TypeError"
      end;
  _ ← spread (or_else (opt_member queryData "sources") (JArray []));
  Ret ().

Definition sorry_text : jsstring :=
  lit "Sorry, I encountered an error while processing your request. Please try again.".

Definition error_reasoning : jsstring :=
  lit "Error occurred during processing - no analysis could be completed.".

Definition blank_message (id : string) (type : MessageType) (content : jsstring)
    (timestamp : Z) : ChatMessage :=
  {| msg_id := id; msg_type := type; msg_content := content;
     msg_timestamp := timestamp; msg_topics := JUndefined;
     msg_sources := JUndefined; msg_rating := None; msg_queryId := JUndefined;
     msg_reasoning := JUndefined; msg_topicAnalyses := JUndefined;
     msg_processingTime := JUndefined |}.

(** The body of the [try] block of [sendMessage] (lines 79-127) up to the
    construction of [assistantMessage]; [api] is the settled
    [queryApi.processQuery] call and [now] the clock when the message is
    built. *)
Definition assistantMessage_of (api : Result JSValue) (now : Z) : Result ChatMessage :=
  response ← api;
  extracted ← extractQueryData response;
  match extracted with
  | None => Throw "Invalid response format from server"
  | Some queryData =>
      cleanedResponse ← cleanResponseContent_value (opt_member queryData "response");
      match cleanedResponse with
      | [] => Throw "Empty response received from server"
      | _ =>
          _ ← extractProcessingStats_completes queryData;
          matched ← spread (or_else (opt_member queryData "matched_topics") (JArray []));
          related ← spread (or_else (opt_member queryData "related_topics") (JArray []));
          Ret {| msg_id := pretty (now + 1)%Z;
                 msg_type := assistant;
                 msg_content := cleanedResponse;
                 msg_timestamp := now;
                 msg_topics := JArray (matched ++ related);
                 msg_sources := or_else (opt_member queryData "sources") (JArray []);
                 msg_rating := None;
                 msg_queryId := opt_member queryData "query_id";
                 msg_reasoning := or_else (opt_member queryData "reasoning") (JString []);
                 msg_topicAnalyses :=
                   or_else (opt_member queryData "topic_analyses") (JArray []);
                 msg_processingTime :=
                   or_else (opt_member queryData "processing_time_ms") (JNumber 0) |}
      end
  end.

(** The [catch] block (lines 128-151). *)
Definition errorMessage_at (now : Z) : ChatMessage :=
  {| msg_id := pretty (now + 1)%Z; msg_type := assistant;
     msg_content := sorry_text; msg_timestamp := now;
     msg_topics := JUndefined; msg_sources := JUndefined; msg_rating := None;
     msg_queryId := JUndefined; msg_reasoning := JString error_reasoning;
     msg_topicAnalyses := JUndefined; msg_processingTime := JUndefined |}.

(** [sendMessage] updates the list twice, with the request in between: the
    user's message when it is called, the reply when the request settles.
    [sendMessage_accepts] is the guard of line 63. *)
Definition sendMessage_accepts (content : jsstring) (isLoading : bool) : bool :=
  negb (match trim content with [] => true | _ => false end || isLoading).

Definition sendMessage_start (content : jsstring) (now : Z)
    (prev : list ChatMessage) : list ChatMessage :=
  prev ++ [blank_message (pretty now) user (trim content) now].

Definition sendMessage_settle (api : Result JSValue) (now : Z)
    (prev : list ChatMessage) : list ChatMessage * option ChatMessage :=
  match assistantMessage_of api now with
  | Ret assistantMessage => (prev ++ [assistantMessage], Some assistantMessage)
  | Throw _ => (prev ++ [errorMessage_at now], None)
  end.

(** The whole call when no other update comes in between. *)
Definition sendMessage (content : jsstring) (isLoading : bool) (now1 now2 : Z)
    (api : Result JSValue) (prev : list ChatMessage)
    : list ChatMessage * option ChatMessage :=
  if sendMessage_accepts content isLoading
  then sendMessage_settle api now2 (sendMessage_start content now1 prev)
  else (prev, None).

Definition clearMessages (prev : list ChatMessage) : list ChatMessage := [].

Definition removeMessage (messageId : string) (prev : list ChatMessage)
    : list ChatMessage :=
  List.filter (fun msg => negb (String.eqb (msg_id msg) messageId)) prev.

Definition set_rating (rating : Z) (msg : ChatMessage) : ChatMessage :=
  {| msg_id := msg_id msg; msg_type := msg_type msg;
     msg_content := msg_content msg; msg_timestamp := msg_timestamp msg;
     msg_topics := msg_topics msg; msg_sources := msg_sources msg;
     msg_rating := Some rating; msg_queryId := msg_queryId msg;
     msg_reasoning := msg_reasoning msg;
     msg_topicAnalyses := msg_topicAnalyses msg;
     msg_processingTime := msg_processingTime msg |}.

Definition rate_locally (messageId : string) (rating : Z)
    (prev : list ChatMessage) : list ChatMessage :=
  List.map (fun msg => if String.eqb (msg_id msg) messageId
                       then set_rating rating msg else msg) prev.

(** [rateMessage] (lines 166-200).  [messages] is the list the callback was
    created with, [prev] the list when the update is applied, [api] the
    settled [queryApi.rateResponse] call, made only for an assistant message
    with a query id. *)
Definition rateMessage (messages : list ChatMessage) (messageId : string)
    (rating : Z) (api : Result bool) (prev : list ChatMessage)
    : list ChatMessage :=
  match List.find (fun msg => String.eqb (msg_id msg) messageId) messages with
  | Some message =>
      if match msg_type message with assistant => true | user => false end
         && truthy (msg_queryId message)
      then match api with
           | Ret true => rate_locally messageId rating prev
           | Ret false | Throw _ => prev
           end
      else rate_locally messageId rating prev
  | None => rate_locally messageId rating prev
  end.

Inductive DetailLevel := brief | standard | detailed.

Record RegenerateOptions := {
  focusTopics : list jsstring;
  excludeTopics : list jsstring;
  detailLevel : option DetailLevel
}.

Fixpoint join (sep : jsstring) (items : list jsstring) : jsstring :=
  match items with
  | [] => []
  | [x] => x
  | x :: rest => x ++ sep ++ join sep rest
  end.

Definition detail_name (d : DetailLevel) : jsstring :=
  match d with
  | brief => lit "brief"
  | standard => lit "standard"
  | detailed => lit "detailed"
  end.

Definition modifiedQuery (query : jsstring) (options : RegenerateOptions) : jsstring :=
  let q1 := match focusTopics options with
            | [] => query
            | ts => query ++ lit " (Focus on: " ++ join (lit ", ") ts ++ lit ")"
            end in
  let q2 := match excludeTopics options with
            | [] => q1
            | ts => q1 ++ lit " (Exclude: " ++ join (lit ", ") ts ++ lit ")"
            end in
  match detailLevel options with
  | Some brief => q2 ++ lit " (brief analysis)"
  | Some detailed => q2 ++ lit " (detailed analysis)"
  | Some standard | None => q2
  end.

Fixpoint findIndex {A} (p : A -> bool) (l : list A) : option nat :=
  match l with
  | [] => None
  | x :: rest => if p x then Some 0 else option_map S (findIndex p rest)
  end.

(** The user message right before the message [messageId], if there is one
    (lines 277-290). *)
Definition original_query (messages : list ChatMessage) (messageId : string)
    : option ChatMessage :=
  match findIndex (fun msg => String.eqb (msg_id msg) messageId) messages with
  | Some (S i) =>
      match messages !! i with
      | Some userMessage =>
          match msg_type userMessage with
          | user => Some userMessage
          | assistant => None
          end
      | None => None
      end
  | Some 0 | None => None
  end.

(** [regenerateResponse] (lines 272-312), with what [sendMessage] needs. *)
Definition regenerateResponse (messages : list ChatMessage) (messageId : string)
    (options : RegenerateOptions) (isLoading : bool) (now1 now2 : Z)
    (api : Result JSValue) (prev : list ChatMessage)
    : list ChatMessage * option ChatMessage :=
  match original_query messages messageId with
  | None => (prev, None)
  | Some userMessage =>
      sendMessage (modifiedQuery (msg_content userMessage) options)
        isLoading now1 now2 api (removeMessage messageId prev)
  end.

(** ** Vocabulary of the specification *)

(** A message with its rating put aside. *)
Definition without_rating (msg : ChatMessage) : ChatMessage :=
  {| msg_id := msg_id msg; msg_type := msg_type msg;
     msg_content := msg_content msg; msg_timestamp := msg_timestamp msg;
     msg_topics := msg_topics msg; msg_sources := msg_sources msg;
     msg_rating := None; msg_queryId := msg_queryId msg;
     msg_reasoning := msg_reasoning msg;
     msg_topicAnalyses := msg_topicAnalyses msg;
     msg_processingTime := msg_processingTime msg |}.

(** Every message of [prev] is still in [next], at its place, possibly with
    another rating; new messages come behind them. *)
Definition extends_in_place (prev next : list ChatMessage) : Prop :=
  exists added,
    List.map without_rating next = List.map without_rating prev ++ added.

(* ===================================================================== *)
(** * 6. Requests and notifications                                       *)
(* ===================================================================== *)

(** What the code reads of a rejected request: [error.response?.status],
    [error.response?.data?.message] and [error.message] (empty when absent). *)
Record ApiError := {
  err_status : option Z;
  err_data_message : jsstring;
  err_message : jsstring
}.

(** A settled promise of a request. *)
Inductive Settled (A : Type) : Type :=
| Fulfilled (data : A)
| Rejected (error : ApiError).
Arguments Fulfilled {A} data.
Arguments Rejected {A} error.

(** [error.response?.data?.message || error.message || fallback] *)
Definition errorMessage (error : ApiError) (fallback : jsstring) : jsstring :=
  match err_data_message error with
  | [] => match err_message error with
          | [] => fallback
          | m => m
          end
  | m => m
  end.

(** [new Error(text)] thrown inside the [try] block. *)
Definition thrown (text : jsstring) : ApiError :=
  {| err_status := None; err_data_message := []; err_message := text |}.

Inductive Toast :=
| toast_success (text : jsstring)
| toast_error (text : jsstring)
| toast_plain (text : jsstring).

Inductive DocStatus :=
  st_uploading | st_uploaded | st_processing | st_processed | st_error.

Record Document := {
  doc_id : string;
  doc_filename : jsstring;
  doc_status : DocStatus
}.

(* ===================================================================== *)
(** * 7. The documents hook (src/unnamed/part_010, lines 378-647)         *)
(* ===================================================================== *)

Record File := {
  file_name : jsstring;
  file_size : Z
}.

(** [s.split('.')]: the pieces between the dots, at least one. *)
Fixpoint split_dot (s : jsstring) : list jsstring :=
  match s with
  | [] => [[]]
  | c :: rest =>
      if (c =? 46)%N then [] :: split_dot rest
      else match split_dot rest with
           | piece :: pieces => (c :: piece) :: pieces
           | [] => [[c]]
           end
  end.

(** [toLowerCase], exact on every code unit whose lower case contains an
    ASCII unit: the letters A-Z, the Kelvin sign and the dotted capital I.
    The other units are kept; their lower case holds no ASCII unit either,
    which is all that the comparison with the allowed extensions sees. *)
Definition toLowerCase (s : jsstring) : jsstring :=
  flat_map (fun c =>
    if ((65 <=? c) && (c <=? 90))%N then [(c + 32)%N]
    else if (c =? 8490)%N then [107%N]
    else if (c =? 304)%N then [105%N; 775%N]
    else [c]) s.

Definition jsstring_eqb (a b : jsstring) : bool :=
  bool_decide (a = b).

Definition maxSize : Z := 50 * 1024 * 1024.

Definition allowedTypes : list jsstring :=
  [lit "pdf"; lit "docx"; lit "txt"; lit "pptx"].

(** [file.name.split('.').pop()?.toLowerCase()] *)
Definition fileExtension (file : File) : jsstring :=
  toLowerCase (List.last (split_dot (file_name file)) []).

(** The extension passes the test of line 427. *)
Definition extension_allowed (file : File) : bool :=
  match fileExtension file with
  | [] => false
  | ext => existsb (jsstring_eqb ext) allowedTypes
  end.

Record UploadReply := {
  up_success : bool;
  up_document : Document;
  up_error : jsstring
}.

(** What a call leaves behind: its result ([None] for [null]), the toasts it
    raised, the requests it sent, and the document list. *)
Record UploadOutcome := {
  upload_result : option Document;
  upload_toasts : list Toast;
  upload_requests : list File;
  upload_documents : list Document
}.

Definition uploadDocument (file : option File) (api : File -> Settled UploadReply)
    (documents : list Document) : UploadOutcome :=
  let rejected text :=
    {| upload_result := None; upload_toasts := [toast_error text];
       upload_requests := []; upload_documents := documents |} in
  match file with
  | None => rejected (lit "No file selected")
  | Some file =>
      if (file_size file >? maxSize)%Z then
        rejected (lit "File size exceeds 50MB limit")
      else if negb (extension_allowed file) then
        rejected (lit "File type not supported. Allowed types: "
                    ++ join (lit ", ") allowedTypes)
      else
        let failed error :=
          {| upload_result := None;
             upload_toasts := [toast_error (errorMessage error (lit "Upload failed"))];
             upload_requests := [file]; upload_documents := documents |} in
        match api file with
        | Fulfilled reply =>
            if up_success reply then
              let newDocument := up_document reply in
              {| upload_result := Some newDocument;
                 upload_toasts :=
                   [toast_success (34%N :: file_name file
                                     ++ 34%N :: lit " uploaded successfully")];
                 upload_requests := [file];
                 upload_documents := newDocument :: documents |}
            else failed (thrown (match up_error reply with
                                 | [] => lit "Upload failed"
                                 | e => e
                                 end))
        | Rejected error => failed error
        end
  end.

Record BatchDeleteReply := {
  bd_success : bool;
  bd_summary : option (Z * Z);
  bd_error : jsstring
}.

Record BatchDeleteOutcome := {
  bd_result : Z * Z;
  bd_toasts : list Toast;
  bd_documents : list Document
}.

Definition number_text (n : Z) : jsstring := lit (pretty n).

(** [batchDeleteDocuments] (lines 550-584).  The pair is (success, failed);
    a summary is the backend's (successful_deletions, failed_deletions). *)
Definition batchDeleteDocuments (ids : list string) (api : Settled BatchDeleteReply)
    (documents : list Document) : BatchDeleteOutcome :=
  let count := Z.of_nat (length ids) in
  let failed error :=
    {| bd_result := (0, count)%Z;
       bd_toasts := [toast_error (errorMessage error (lit "Batch deletion failed"))];
       bd_documents := documents |} in
  match ids with
  | [] => {| bd_result := (0, 0)%Z;
             bd_toasts := [toast_error (lit "No documents selected")];
             bd_documents := documents |}
  | _ =>
      match api with
      | Fulfilled reply =>
          if bd_success reply then
            let remaining :=
              List.filter (fun doc => negb (existsb (String.eqb (doc_id doc)) ids))
                documents in
            match bd_summary reply with
            | Some (successful_deletions, failed_deletions) =>
                {| bd_result := (successful_deletions, failed_deletions);
                   bd_toasts :=
                     [toast_success (number_text successful_deletions
                                       ++ lit " documents deleted successfully")];
                   bd_documents := remaining |}
            | None =>
                {| bd_result := (count, 0)%Z;
                   bd_toasts :=
                     [toast_success
                        (number_text count ++ lit " document"
                           ++ (if (count >? 1)%Z then lit "s" else [])
                           ++ lit " deleted successfully")];
                   bd_documents := remaining |}
            end
          else failed (thrown (match bd_error reply with
                              | [] => lit "Batch deletion failed"
                              | e => e
                              end))
      | Rejected error => failed error
      end
  end.

(** ** Numbers of the statistics *)

(** A JavaScript number is an IEEE 754 double: a binary floating-point
    number with 53 bits of precision, the infinities, the two zeros and
    [NaN].  The operations are those of the standard, rounding to nearest,
    ties to even. *)
Definition jsnum : Type := spec_float.

Definition NaN : jsnum := S754_nan.
Definition zero : jsnum := S754_zero false.

(** The double nearest to an integer; exact up to 2 ^ 53. *)
Definition num_of_Z (n : Z) : jsnum := binary_normalize 53 1024 n 0 false.
Definition num_of_nat (n : nat) : jsnum := num_of_Z (Z.of_nat n).

Definition num_add (a b : jsnum) : jsnum := SFadd 53 1024 a b.
Definition num_mul (a b : jsnum) : jsnum := SFmul 53 1024 a b.
Definition num_div (a b : jsnum) : jsnum := SFdiv 53 1024 a b.

(** [a > b] *)
Definition num_gtb (a b : jsnum) : bool := SFltb b a.

(** A number is falsy when it is a zero or [NaN]. *)
Definition num_truthy (a : jsnum) : bool :=
  match a with
  | S754_zero _ | S754_nan => false
  | _ => true
  end.

(** [Math.round]: the integer nearest to the argument, the upper one of two
    that are equally near; an argument that is an integer, an infinity or
    [NaN] is returned as it is, and the result keeps the sign of the argument
    when it is zero.  A finite double with a negative exponent [e] is the
    fraction [m / 2 ^ (- e)]. *)
Definition num_round (a : jsnum) : jsnum :=
  match a with
  | S754_finite s m e =>
      if (0 <=? e)%Z then a
      else
        let n := ((2 * cond_Zopp s (Zpos m) + 2 ^ (- e)) / 2 ^ (1 - e))%Z in
        if (n =? 0)%Z then S754_zero s else num_of_Z n
  | _ => a
  end.

Record DocumentStats := {
  ds_total : nat;
  ds_processed : nat;
  ds_processing : nat;
  ds_uploaded : nat;
  ds_errors : nat;
  ds_successRate : jsnum
}.

Definition has_status (status : DocStatus) (doc : Document) : bool :=
  match status, doc_status doc with
  | st_uploading, st_uploading | st_uploaded, st_uploaded
  | st_processing, st_processing | st_processed, st_processed
  | st_error, st_error => true
  | _, _ => false
  end.

(** [getDocumentStats] (lines 615-630) *)
Definition getDocumentStats (documents : list Document) : DocumentStats :=
  let total := length documents in
  let processed_count := length (List.filter (has_status st_processed) documents) in
  {| ds_total := total;
     ds_processed := processed_count;
     ds_processing := length (List.filter (has_status st_processing) documents);
     ds_uploaded := length (List.filter (has_status st_uploaded) documents);
     ds_errors := length (List.filter (has_status st_error) documents);
     ds_successRate :=
       if 0 <? total
       then num_round (num_mul (num_div (num_of_nat processed_count) (num_of_nat total))
                               (num_of_nat 100))
       else zero |}.

(* ===================================================================== *)
(** * 8. The topics hook (src/unnamed/part_010, lines 297-313)            *)
(* ===================================================================== *)

Record Topic := {
  topic_id : string;
  topic_category : option jsstring;
  topic_content_count : option jsnum
}.

Record TopicStats := {
  ts_total : nat;
  ts_withContent : nat;
  ts_categories : nat;
  ts_avgContent : jsnum;
  ts_contentCoverage : jsnum
}.

(** [topic.content_count || 0] *)
Definition content_count (topic : Topic) : jsnum :=
  match topic_content_count topic with
  | Some count => if num_truthy count then count else zero
  | None => zero
  end.

(** [topic.category || 'uncategorized'] *)
Definition category (topic : Topic) : jsstring :=
  match topic_category topic with
  | None | Some [] => lit "uncategorized"
  | Some c => c
  end.

Definition getTopicStats (topics : list Topic) : TopicStats :=
  let total := length topics in
  if total =? 0 then
    {| ts_total := 0; ts_withContent := 0; ts_categories := 0;
       ts_avgContent := zero; ts_contentCoverage := zero |}
  else
    let withContent :=
      length (List.filter (fun topic => num_gtb (content_count topic) zero) topics) in
    let categories := size (list_to_set (List.map category topics) : gset jsstring) in
    let avgContent :=
      num_div (fold_left (fun sum topic => num_add sum (content_count topic)) topics zero)
              (num_of_nat total) in
    {| ts_total := total;
       ts_withContent := withContent;
       ts_categories := categories;
       ts_avgContent :=
         num_div (num_round (num_mul avgContent (num_of_nat 100))) (num_of_nat 100);
       ts_contentCoverage :=
         num_round (num_mul (num_div (num_of_nat withContent) (num_of_nat total))
                            (num_of_nat 100)) |}.

(* ===================================================================== *)
(** * 9. The retry helper (src/src/services/api.ts, lines 911-941)        *)
(* ===================================================================== *)

(** [status && status >= 400 && status < 500] *)
Definition client_error (error : ApiError) : bool :=
  match err_status error with
  | Some status => negb (status =? 0)%Z && (400 <=? status)%Z && (status <? 500)%Z
  | None => false
  end.

(** A run of [retryApiCall]: how it settles, how many times [apiCall] was
    invoked, and the delays (in milliseconds) waited in between. *)
Record RetryRun (T : Type) := {
  run_settled : Settled T;
  run_calls : nat;
  run_delays : list Z
}.
Arguments run_settled {T} _.
Arguments run_calls {T} _.
Arguments run_delays {T} _.

(** The loop from [attempt] on, with [remaining = maxRetries - attempt].
    [apiCall n] is how the [n]-th invocation (counted from 0) settles. *)
Fixpoint retry_from {T} (apiCall : nat -> Settled T) (baseDelay : Z)
    (remaining attempt : nat) : RetryRun T :=
  match apiCall attempt with
  | Fulfilled value =>
      {| run_settled := Fulfilled value; run_calls := 1; run_delays := [] |}
  | Rejected error =>
      match remaining with
      | 0 => {| run_settled := Rejected error; run_calls := 1; run_delays := [] |}
      | S remaining' =>
          if client_error error then
            {| run_settled := Rejected error; run_calls := 1; run_delays := [] |}
          else
            let delay := (baseDelay * 2 ^ Z.of_nat attempt)%Z in
            let rest := retry_from apiCall baseDelay remaining' (S attempt) in
            {| run_settled := run_settled rest;
               run_calls := S (run_calls rest);
               run_delays := delay :: run_delays rest |}
      end
  end.

Definition retryApiCall {T} (apiCall : nat -> Settled T) (maxRetries : nat)
    (baseDelay : Z) : RetryRun T :=
  retry_from apiCall baseDelay maxRetries 0.

(** The delays before the attempts 1 .. [k]: the base delay, doubled each time. *)
Definition backoff (baseDelay : Z) (k : nat) : list Z :=
  List.map (fun attempt => (baseDelay * 2 ^ Z.of_nat attempt)%Z) (seq 0 k).

(** The invocation [n] fails in a way that is retried: a rejection that is
    no client error (a server error, or no response at all). *)
Definition retried {T} (apiCall : nat -> Settled T) (n : nat) : Prop :=
  exists error, apiCall n = Rejected error /\ client_error error = false.

(* ===================================================================== *)
(** * 10. The document status poller
         (src/src/components/admin/DocumentUpload.tsx, lines 46-340)      *)
(* ===================================================================== *)

(** ** The component and its environment *)

(** The props and the state of the component as one render sees them.  A
    function created during a render (an event handler, an effect, the
    callback of an interval) reads these values for as long as it lives;
    it writes through the state setters, which act on the current state. *)
Record Render := {
  documents : list Document;
  processing : gset string;
  reprocessing : gset string;
  processingTimers : gmap string Z;
  pollingIntervals : gmap string nat
}.

(** The callback [pollStatus] of an interval started by [startPolling]: its
    arguments and the render it was created in. *)
Record PollClosure := {
  poll_documentId : string;
  poll_isReprocessing : bool;
  poll_render : Render
}.

(** The component in its environment.
    - [current]: the props and the state with all updates applied;
    - [committed]: the render that is on screen, in which the installed
      effects and their clean-up functions were created;
    - [registry_changed], [status_deps_changed]: a dependency of the clean-up
      effect (lines 81-85), respectively of the status effect (lines 159-169),
      has been given a new value since that render;
    - [intervals]: the browser's live [setInterval] timers by handle, and
      [next_handle] the handle the next one gets (handles are positive);
    - [toasts]: the notifications raised so far;
    - [refreshes]: the number of calls of [onDocumentsRefresh];
    - [is_mounted]: the component has not been unmounted; afterwards React
      drops its state updates and renders it no more, while timers that
      were not cancelled and pending requests still run their callbacks. *)
Record World := {
  is_mounted : bool;
  current : Render;
  committed : Render;
  registry_changed : bool;
  status_deps_changed : bool;
  intervals : gmap nat PollClosure;
  next_handle : nat;
  toasts : list Toast;
  refreshes : nat
}.

Definition with_current (f : Render -> Render) (w : World) : World :=
  {| is_mounted := is_mounted w;
     current := (if is_mounted w then f (current w) else current w);
     committed := committed w;
     registry_changed := registry_changed w;
     status_deps_changed := status_deps_changed w;
     intervals := intervals w; next_handle := next_handle w;
     toasts := toasts w; refreshes := refreshes w |}.

Definition mark_registry (w : World) : World :=
  {| is_mounted := is_mounted w;
     current := current w; committed := committed w;
     registry_changed := true;
     status_deps_changed := status_deps_changed w;
     intervals := intervals w; next_handle := next_handle w;
     toasts := toasts w; refreshes := refreshes w |}.

Definition mark_status (w : World) : World :=
  {| is_mounted := is_mounted w;
     current := current w; committed := committed w;
     registry_changed := registry_changed w;
     status_deps_changed := true;
     intervals := intervals w; next_handle := next_handle w;
     toasts := toasts w; refreshes := refreshes w |}.

(** [setProcessing(prev => f(prev))]; every call hands React a new set. *)
Definition setProcessing (f : gset string -> gset string) (w : World) : World :=
  mark_status (with_current (fun r =>
    {| documents := documents r; processing := f (processing r);
       reprocessing := reprocessing r; processingTimers := processingTimers r;
       pollingIntervals := pollingIntervals r |}) w).

Definition setReprocessing (f : gset string -> gset string) (w : World) : World :=
  mark_status (with_current (fun r =>
    {| documents := documents r; processing := processing r;
       reprocessing := f (reprocessing r); processingTimers := processingTimers r;
       pollingIntervals := pollingIntervals r |}) w).

Definition setProcessingTimers (f : gmap string Z -> gmap string Z) (w : World) : World :=
  with_current (fun r =>
    {| documents := documents r; processing := processing r;
       reprocessing := reprocessing r; processingTimers := f (processingTimers r);
       pollingIntervals := pollingIntervals r |}) w.

Definition setPollingIntervals (f : gmap string nat -> gmap string nat) (w : World) : World :=
  mark_registry (with_current (fun r =>
    {| documents := documents r; processing := processing r;
       reprocessing := reprocessing r; processingTimers := processingTimers r;
       pollingIntervals := f (pollingIntervals r) |}) w).

(** The parent hands down a new [documents] array. *)
Definition receiveDocuments (docs : list Document) (w : World) : World :=
  mark_status (with_current (fun r =>
    {| documents := docs; processing := processing r;
       reprocessing := reprocessing r; processingTimers := processingTimers r;
       pollingIntervals := pollingIntervals r |}) w).

Definition toast (t : Toast) (w : World) : World :=
  {| is_mounted := is_mounted w;
     current := current w; committed := committed w;
     registry_changed := registry_changed w;
     status_deps_changed := status_deps_changed w;
     intervals := intervals w; next_handle := next_handle w;
     toasts := toasts w ++ [t]; refreshes := refreshes w |}.

Definition onDocumentsRefresh (w : World) : World :=
  {| is_mounted := is_mounted w;
     current := current w; committed := committed w;
     registry_changed := registry_changed w;
     status_deps_changed := status_deps_changed w;
     intervals := intervals w; next_handle := next_handle w;
     toasts := toasts w; refreshes := S (refreshes w) |}.

Definition clearInterval (intervalId : nat) (w : World) : World :=
  {| is_mounted := is_mounted w;
     current := current w; committed := committed w;
     registry_changed := registry_changed w;
     status_deps_changed := status_deps_changed w;
     intervals := delete intervalId (intervals w); next_handle := next_handle w;
     toasts := toasts w; refreshes := refreshes w |}.

(** [setInterval(callback, 3000)]: the new timer gets the next handle. *)
Definition setInterval (callback : PollClosure) (w : World) : World :=
  {| is_mounted := is_mounted w;
     current := current w; committed := committed w;
     registry_changed := registry_changed w;
     status_deps_changed := status_deps_changed w;
     intervals := <[next_handle w := callback]> (intervals w);
     next_handle := S (next_handle w);
     toasts := toasts w; refreshes := refreshes w |}.

(** ** The functions of the component *)

Definition terminal (doc : Document) : bool :=
  has_status st_processed doc || has_status st_error doc.

Definition find_document (documentId : string) (docs : list Document) : option Document :=
  List.find (fun d => String.eqb (doc_id d) documentId) docs.

Definition operation_name (isReprocessing : bool) : jsstring :=
  if isReprocessing then lit "Reprocessing" else lit "Processing".

(** [stopPolling] (lines 113-156), as created in the render [r]. *)
Definition stopPolling (r : Render) (documentId : string) (isReprocessing : bool)
    (w : World) : World :=
  let w :=
    match pollingIntervals r !! documentId with
    | Some intervalId =>
        if intervalId =? 0 then w
        else setPollingIntervals (delete documentId) (clearInterval intervalId w)
    | None => w
    end in
  let w :=
    if isReprocessing
    then setReprocessing (fun prev => prev ∖ {[documentId]}) w
    else setProcessing (fun prev => prev ∖ {[documentId]}) w in
  let w := setProcessingTimers (delete documentId) w in
  match find_document documentId (documents r) with
  | Some currentDocument =>
      match doc_status currentDocument with
      | st_processed =>
          toast (toast_success (operation_name isReprocessing ++ lit " completed: "
                                  ++ doc_filename currentDocument)) w
      | st_error =>
          toast (toast_error (operation_name isReprocessing ++ lit " failed: "
                                ++ doc_filename currentDocument)) w
      | _ => w
      end
  | None => w
  end.

(** [pollStatus] (lines 90-105), the callback of a tick. *)
Definition pollStatus (c : PollClosure) (w : World) : World :=
  let w := onDocumentsRefresh w in
  match find_document (poll_documentId c) (documents (poll_render c)) with
  | Some currentDocument =>
      if terminal currentDocument
      then stopPolling (poll_render c) (poll_documentId c) (poll_isReprocessing c) w
      else w
  | None => w
  end.

(** [startPolling] (lines 89-110), as created in the render [r]. *)
Definition startPolling (r : Render) (documentId : string) (isReprocessing : bool)
    (w : World) : World :=
  let intervalId := next_handle w in
  let w := setInterval {| poll_documentId := documentId;
                          poll_isReprocessing := isReprocessing;
                          poll_render := r |} w in
  setPollingIntervals (fun prev => <[documentId := intervalId]> prev) w.

(** The effect of lines 159-169, run in the render [r]. *)
Definition statusEffect (r : Render) (w : World) : World :=
  fold_left (fun w document =>
    let isBeingProcessed := bool_decide (doc_id document ∈ processing r) in
    let isBeingReprocessed := bool_decide (doc_id document ∈ reprocessing r) in
    if (isBeingProcessed || isBeingReprocessed) && terminal document
    then stopPolling r (doc_id document) isBeingReprocessed w
    else w) (documents r) w.

(** The clean-up function of the effect of lines 81-85, created in [r]. *)
Definition cleanupIntervals (r : Render) (w : World) : World :=
  fold_left (fun w entry => clearInterval (snd entry) w)
    (map_to_list (pollingIntervals r)) w.

(** [processDocument] (lines 244-290) up to its request, and after it (for a
    call that got past the guard of line 246). *)
Definition processDocument_begin (r : Render) (documentId : string) (now : Z)
    (w : World) : World :=
  if bool_decide (documentId ∈ processing r) then w
  else setProcessingTimers (fun prev => <[documentId := now]> prev)
         (setProcessing (fun prev => prev ∪ {[documentId]}) w).

(** [response.data] of [documentApi.processDocument]. *)
Record StartReply := {
  start_success : bool;
  start_error : jsstring
}.

(** The reply that reports success. *)
Definition started : StartReply := {| start_success := true; start_error := [] |}.

Definition processDocument_settled (r : Render) (documentId : string)
    (reply : Settled StartReply) (w : World) : World :=
  let failed error :=
    setProcessingTimers (delete documentId)
      (setProcessing (fun prev => prev ∖ {[documentId]})
         (toast (toast_error (lit "Failed to start document processing: "
                                ++ errorMessage error (lit "undefined"))) w)) in
  match reply with
  | Fulfilled data =>
      if start_success data then
        startPolling r documentId false
          (toast (toast_success (lit "Document processing started")) w)
      else failed (thrown (match start_error data with
                           | [] => lit "Failed to start processing"
                           | e => e
                           end))
  | Rejected error => failed error
  end.

(** [reprocessDocument] (lines 292-339), once confirmed: up to its request,
    and after it. *)
Definition reprocessDocument_begin (r : Render) (documentId : string) (now : Z)
    (w : World) : World :=
  setProcessingTimers (fun prev => <[documentId := now]> prev)
    (setReprocessing (fun prev => prev ∪ {[documentId]}) w).

Definition reprocessDocument_settled (r : Render) (documentId : string)
    (reply : Settled unit) (w : World) : World :=
  match reply with
  | Fulfilled _ =>
      startPolling r documentId true
        (toast (toast_success (lit "Document reprocessing started")) w)
  | Rejected _ =>
      setProcessingTimers (delete documentId)
        (setReprocessing (fun prev => prev ∖ {[documentId]})
           (toast (toast_error (lit "Failed to start document reprocessing")) w))
  end.

(** ** Rendering *)

(** React renders again after an update and then runs, of the effects whose
    dependencies have new values, first the clean-up functions of the
    previous render and then the effects of the new one. *)
Definition commit (w : World) : World :=
  let w1 := if registry_changed w then cleanupIntervals (committed w) w else w in
  let r := current w1 in
  let w2 :=
    {| is_mounted := is_mounted w1; current := r; committed := r;
       registry_changed := false; status_deps_changed := false;
       intervals := intervals w1; next_handle := next_handle w1;
       toasts := toasts w1; refreshes := refreshes w1 |} in
  if status_deps_changed w then statusEffect r w2 else w2.

(** Renders until no effect asks for another one.  An unmounted component
    is not rendered. *)
Fixpoint settle (fuel : nat) (w : World) : World :=
  match fuel with
  | 0 => w
  | S fuel' =>
      if is_mounted w && (registry_changed w || status_deps_changed w)
      then settle fuel' (commit w)
      else w
  end.

Definition settled (w : World) : bool :=
  negb (registry_changed w || status_deps_changed w).

(** Unmounting runs the clean-up functions of the render on screen. *)
Definition unmount (w : World) : World :=
  let w := cleanupIntervals (committed w) w in
  {| is_mounted := false;
     current := current w; committed := committed w;
     registry_changed := registry_changed w;
     status_deps_changed := status_deps_changed w;
     intervals := intervals w; next_handle := next_handle w;
     toasts := toasts w; refreshes := refreshes w |}.

(** A tick of the interval [h], if it is still live. *)
Definition tick (h : nat) (w : World) : World :=
  match intervals w !! h with
  | Some callback => pollStatus callback w
  | None => w
  end.

Definition emptyRender (docs : list Document) : Render :=
  {| documents := docs; processing := ∅; reprocessing := ∅;
     processingTimers := ∅; pollingIntervals := ∅ |}.

(** The component right after mounting with the documents [docs]. *)
Definition mounted (docs : list Document) : World :=
  {| is_mounted := true;
     current := emptyRender docs; committed := emptyRender docs;
     registry_changed := false; status_deps_changed := false;
     intervals := ∅; next_handle := 1; toasts := []; refreshes := 0 |}.

(** ** Runs of the component *)

(** What happens to the component: a click on a button (the handler of the
    render on screen runs up to its request), a request settling (the rest
    of the handler runs, in the render [r] it was started in), a tick of an
    interval, new documents from the parent, unmounting.  After each of them
    React renders until nothing is left to do. *)
Inductive Event :=
| ClickProcess (documentId : string) (now : Z)
| ProcessSettled (r : Render) (documentId : string) (reply : Settled StartReply)
| ClickReprocess (documentId : string) (now : Z)
| ReprocessSettled (r : Render) (documentId : string) (reply : Settled unit)
| Tick (h : nat)
| Documents (docs : list Document)
| Unmount.

Definition handle (e : Event) (w : World) : World :=
  match e with
  | ClickProcess documentId now => processDocument_begin (committed w) documentId now w
  | ProcessSettled r documentId reply => processDocument_settled r documentId reply w
  | ClickReprocess documentId now => reprocessDocument_begin (committed w) documentId now w
  | ReprocessSettled r documentId reply => reprocessDocument_settled r documentId reply w
  | Tick h => tick h w
  | Documents docs => receiveDocuments docs w
  | Unmount => unmount w
  end.

Definition step (w : World) (e : Event) : World := settle 8 (handle e w).

Definition run (trace : list Event) (w : World) : World := fold_left step trace w.

(** The interval [h] is live and polls the document [documentId]. *)
Definition polls (w : World) (h : nat) (documentId : string) : Prop :=
  poll_documentId <$> intervals w !! h = Some documentId.

(** The poll of [documentId] by the interval [h] has been stopped: the
    interval is cancelled and out of the registry, the identifier is out of
    its in-flight set, and its timer entry is gone. *)
Definition stopped (documentId : string) (h : nat) (isReprocessing : bool)
    (w : World) : Prop :=
  intervals w !! h = None
  /\ pollingIntervals (current w) !! documentId = None
  /\ processingTimers (current w) !! documentId = None
  /\ documentId ∉ (if isReprocessing then reprocessing (current w)
                   else processing (current w)).

(** ** The documents of the examples *)

Definition a_pdf (status : DocStatus) : Document :=
  {| doc_id := "d1"; doc_filename := lit "a.pdf"; doc_status := status |}.

Definition completed_toast : Toast :=
  toast_success (lit "Reprocessing completed: a.pdf").

(** Reprocessing the processed document [a.pdf]: the click, the request
    settling, two ticks with the backend reporting "processing" in between,
    and the refresh that reports "processed" again. *)
Definition reprocess_run : list Event :=
  [ClickReprocess "d1" 0;
   ReprocessSettled (emptyRender [a_pdf st_processed]) "d1" (Fulfilled ());
   Tick 1;
   Documents [a_pdf st_processing];
   Tick 1;
   Documents [a_pdf st_processed]].

(** Processing the uploaded document [a.pdf], likewise. *)
Definition process_run : list Event :=
  [ClickProcess "d1" 0;
   ProcessSettled (emptyRender [a_pdf st_uploaded]) "d1" (Fulfilled started);
   Tick 1;
   Documents [a_pdf st_processing];
   Tick 1;
   Documents [a_pdf st_processed]].

(** [a.pdf] is reprocessed, and the first refresh reports it as "uploaded"
    again: its Process button is back while the interval 1 still polls it.
    The user clicks the button. *)
Definition restart_run : list Event :=
  [ClickReprocess "d1" 0;
   ReprocessSettled (emptyRender [a_pdf st_processed]) "d1" (Fulfilled ());
   Tick 1;
   Documents [a_pdf st_uploaded];
   ClickProcess "d1" 9].

Definition restarted : World := run restart_run (mounted [a_pdf st_processed]).

(** The render of that click. *)
Definition restart_render : Render :=
  committed (run (take 4 restart_run) (mounted [a_pdf st_processed])).

(* ===================================================================== *)
(** * 11. Vocabulary of the further properties                            *)
(* ===================================================================== *)

(** The time a run of [retryApiCall] spends waiting. *)
Definition total_delay (delays : list Z) : Z := fold_right Z.add 0%Z delays.


(** Two uploaded documents; the first is being polled by the interval 1
    when the request that starts the second settles. *)
Definition b_pdf (status : DocStatus) : Document :=
  {| doc_id := "d2"; doc_filename := lit "b.pdf"; doc_status := status |}.

Definition second_started : World :=
  let w := run [ClickProcess "d1" 0;
                ProcessSettled (emptyRender [a_pdf st_uploaded; b_pdf st_uploaded])
                  "d1" (Fulfilled started);
                ClickProcess "d2" 5]
             (mounted [a_pdf st_uploaded; b_pdf st_uploaded]) in
  handle (ProcessSettled (committed w) "d2" (Fulfilled started)) w.

(* ===================================================================== *)
(** * 12. The documents hook, continued
      (src/unnamed/part_010, lines 388-409 and 457-548)                   *)
(* ===================================================================== *)

Module useDocuments.

(** The requests of [documentApi] (src/src/services/api.ts, lines 335-365). *)
Inductive Request :=
| get_documents
| post_process (documentId : string)
| post_reprocess (documentId : string)
| delete_document (documentId : string).

(** [response.data] of [getDocuments], and of the requests that act on one
    document. *)
Record ListReply := {
  lr_success : bool;
  lr_documents : option (list Document);
  lr_error : jsstring
}.

Record Reply := {
  rp_success : bool;
  rp_error : jsstring
}.

(** The state of the hook: [documents] and [error]. *)
Record State := {
  hook_documents : list Document;
  hook_error : option jsstring
}.

(** What a call leaves behind: its result, the toasts it raised, the
    requests it sent, in order, and the state. *)
Record Outcome := {
  result : bool;
  raised : list Toast;
  requests : list Request;
  state : State
}.

(** [doc.id === id ? { ...doc, status } : doc] *)
Definition set_status (id : string) (status : DocStatus) (doc : Document) : Document :=
  if String.eqb (doc_id doc) id
  then {| doc_id := doc_id doc; doc_filename := doc_filename doc;
          doc_status := status |}
  else doc.

(** [refreshDocuments] (lines 388-409), the request settled as [listed]. *)
Definition refreshDocuments (listed : Settled ListReply) (s : State) : State :=
  let failed error :=
    {| hook_documents := hook_documents s;
       hook_error := Some (errorMessage error (lit "Failed to fetch documents")) |} in
  match listed with
  | Fulfilled reply =>
      if lr_success reply then
        {| hook_documents := match lr_documents reply with
                             | Some documentsData => documentsData
                             | None => []
                             end;
           hook_error := None |}
      else failed (thrown (match lr_error reply with
                           | [] => lit "Failed to fetch documents"
                           | e => e
                           end))
  | Rejected error => failed error
  end.

(** [processDocument] (lines 457-490); [reprocessed] is the settled request
    and [listed] the settled request of the refresh that follows it. *)
Definition processDocument (id : string) (reprocessed : Settled Reply)
    (listed : Settled ListReply) (s : State) : Outcome :=
  let s :=
    {| hook_documents := List.map (set_status id st_processing) (hook_documents s);
       hook_error := hook_error s |} in
  let failed error :=
    {| result := false;
       raised := [toast_error (errorMessage error (lit "Processing failed"))];
       requests := [post_reprocess id];
       state := {| hook_documents :=
                     List.map (set_status id st_error) (hook_documents s);
                   hook_error := hook_error s |} |} in
  match reprocessed with
  | Fulfilled reply =>
      if rp_success reply then
        {| result := true;
           raised := [toast_success (lit "Document processed successfully")];
           requests := [post_reprocess id; get_documents];
           state := refreshDocuments listed s |}
      else failed (thrown (match rp_error reply with
                           | [] => lit "Processing failed"
                           | e => e
                           end))
  | Rejected error => failed error
  end.

(** [reprocessDocument] (lines 492-522). *)
Definition reprocessDocument (id : string) (reprocessed : Settled Reply)
    (listed : Settled ListReply) (s : State) : Outcome :=
  let s :=
    {| hook_documents := List.map (set_status id st_processing) (hook_documents s);
       hook_error := hook_error s |} in
  let failed error :=
    {| result := false;
       raised := [toast_error (errorMessage error (lit "Reprocessing failed"))];
       requests := [post_reprocess id];
       state := {| hook_documents :=
                     List.map (set_status id st_error) (hook_documents s);
                   hook_error := hook_error s |} |} in
  match reprocessed with
  | Fulfilled reply =>
      if rp_success reply then
        {| result := true;
           raised := [toast_success (lit "Document reprocessed successfully")];
           requests := [post_reprocess id; get_documents];
           state := refreshDocuments listed s |}
      else failed (thrown (match rp_error reply with
                           | [] => lit "Reprocessing failed"
                           | e => e
                           end))
  | Rejected error => failed error
  end.

(** [deleteDocument] (lines 524-548).  The callback looks the document up in
    [documents], the list of the render it was created in, and updates the
    list that the state holds when the request has settled. *)
Definition deleteDocument (documents : list Document) (id : string)
    (deleted : Settled Reply) (s : State) : Outcome :=
  match List.find (fun doc => String.eqb (doc_id doc) id) documents with
  | None =>
      {| result := false; raised := [toast_error (lit "Document not found")];
         requests := []; state := s |}
  | Some documentToDelete =>
      let failed error :=
        {| result := false;
           raised := [toast_error (errorMessage error (lit "Deletion failed"))];
           requests := [delete_document id]; state := s |} in
      match deleted with
      | Fulfilled reply =>
          if rp_success reply then
            {| result := true;
               raised := [toast_success
                            (34%N :: doc_filename documentToDelete
                               ++ 34%N :: lit " deleted successfully")];
               requests := [delete_document id];
               state := {| hook_documents :=
                             List.filter (fun doc => negb (String.eqb (doc_id doc) id))
                               (hook_documents s);
                           hook_error := hook_error s |} |}
          else failed (thrown (match rp_error reply with
                               | [] => lit "Deletion failed"
                               | e => e
                               end))
      | Rejected error => failed error
      end
  end.

End useDocuments.

(* ===================================================================== *)
(** * 13. The selection of documents
      (src/src/components/admin/DocumentUpload.tsx, lines 450-468)        *)
(* ===================================================================== *)

Definition toggleDocumentSelection (documentId : string) (prev : gset string)
    : gset string :=
  if bool_decide (documentId ∈ prev) then prev ∖ {[documentId]}
  else prev ∪ {[documentId]}.

Definition selectAllDocuments (documents : list Document)
    (selectedDocuments : gset string) : gset string :=
  if size selectedDocuments =? length documents then ∅
  else list_to_set (List.map doc_id documents).

(* ===================================================================== *)
(** * 14. Searching topics (src/unnamed/part_010, lines 51-69)            *)
(* ===================================================================== *)

(** [response.data] of [api.searchTopics]; [sr_topics] is [data?.topics]. *)
Record SearchReply := {
  sr_success : bool;
  sr_topics : option (list Topic);
  sr_error : jsstring
}.

(** The topics returned, the toasts raised and the requests sent: the query
    and the limit of each. *)
Record SearchOutcome := {
  search_result : list Topic;
  search_toasts : list Toast;
  search_requests : list (jsstring * Z)
}.

Definition searchTopics (topics : list Topic) (query : jsstring)
    (api : jsstring -> Z -> Settled SearchReply) : SearchOutcome :=
  match trim query with
  | [] => {| search_result := topics; search_toasts := []; search_requests := [] |}
  | _ =>
      let failed error :=
        {| search_result := [];
           search_toasts := [toast_error (errorMessage error (lit "Search failed"))];
           search_requests := [(query, 50%Z)] |} in
      match api query 50%Z with
      | Fulfilled reply =>
          if sr_success reply then
            {| search_result := match sr_topics reply with
                                | Some found => found
                                | None => []
                                end;
               search_toasts := []; search_requests := [(query, 50%Z)] |}
          else failed (thrown (match sr_error reply with
                               | [] => lit "Search failed"
                               | e => e
                               end))
      | Rejected error => failed error
      end
  end.

(* ===================================================================== *)
(** * 15. Vocabulary of the properties of the notifications               *)
(* ===================================================================== *)

Definition toast_text (t : Toast) : jsstring :=
  match t with
  | toast_success text | toast_error text | toast_plain text => text
  end.

(** Every toast of the list has a text to show. *)
Definition all_worded (raised : list Toast) : Prop :=
  Forall (fun t => toast_text t <> []) raised.

(* ===================================================================== *)
(** * 16. Vocabulary of the properties of the registry                    *)
(* ===================================================================== *)

(** Every live interval is the one that the registry on screen holds for
    the document it polls. *)
Definition registered (w : World) : Prop :=
  forall h c,
    intervals w !! h = Some c ->
    pollingIntervals (committed w) !! poll_documentId c = Some h.

(** The registry of the state is the one on screen unless a change of it is
    waiting for the next render. *)
Definition registry_in_step (w : World) : Prop :=
  registry_changed w = false ->
  pollingIntervals (current w) = pollingIntervals (committed w).

(** The component between two events, if it is still mounted. *)
Definition at_rest (w : World) : Prop :=
  is_mounted w = true -> registered w /\ registry_in_step w.

(** The component after a handler and before the render: an interval that
    the handler has started is in the registry of the state. *)
Definition in_handler (w : World) : Prop :=
  is_mounted w = true ->
  (forall h c,
      intervals w !! h = Some c ->
      pollingIntervals (committed w) !! poll_documentId c = Some h
      \/ (registry_changed w = true
          /\ pollingIntervals (current w) !! poll_documentId c = Some h))
  /\ registry_in_step w.

(** [w'] comes from [w] by steps that start no interval and leave the
    render on screen alone. *)
Definition cancels_only (w w' : World) : Prop :=
  is_mounted w' = is_mounted w
  /\ committed w' = committed w
  /\ (forall h c, intervals w' !! h = Some c -> intervals w !! h = Some c)
  /\ (registry_changed w' = false ->
      registry_changed w = false
      /\ pollingIntervals (current w') = pollingIntervals (current w))
  /\ next_handle w' = next_handle w.

(** The handles of the live intervals are older than the next one. *)
Definition fresh (w : World) : Prop :=
  forall h c, intervals w !! h = Some c -> h < next_handle w.

(** The processing of [a.pdf] is started; a refresh reports an error before
    the request has settled, and the user asks for reprocessing.  The
    component is unmounted while both requests are pending, and then they
    settle. *)
Definition late_run : list Event :=
  [ClickProcess "d1" 0;
   Documents [a_pdf st_error];
   ClickReprocess "d1" 5;
   Unmount;
   ProcessSettled (emptyRender [a_pdf st_uploaded]) "d1" (Fulfilled started);
   ReprocessSettled (emptyRender [a_pdf st_error]) "d1" (Fulfilled ())].

(** ** Vocabulary of the property of a failed start *)

(** The status effect of the render [r] finds nothing to stop: no document
    in a terminal state is in an in-flight set. *)
Definition idle (r : Render) : Prop :=
  forall d, In d (documents r) -> terminal d = true ->
    (doc_id d ∉ processing r) /\ (doc_id d ∉ reprocessing r).

(** The component after the render of its state, when no effect had
    anything to do. *)
Definition rendered (w : World) : World :=
  {| is_mounted := is_mounted w; current := current w; committed := current w;
     registry_changed := false; status_deps_changed := false;
     intervals := intervals w; next_handle := next_handle w;
     toasts := toasts w; refreshes := refreshes w |}.

(** The toast of [stopPolling] for a document in a terminal state. *)
Definition outcome_toast (isReprocessing : bool) (d : Document) : Toast :=
  match doc_status d with
  | st_error =>
      toast_error (operation_name isReprocessing ++ lit " failed: " ++ doc_filename d)
  | _ =>
      toast_success (operation_name isReprocessing ++ lit " completed: "
                       ++ doc_filename d)
  end.
(* ===================================================================== *)
(** * Proofs                                                              *)
(* ===================================================================== *)

(** ** Sanitiser: examples *)

Example clean_think :
  cleanResponseContent (lit "Hi <THINK>a
b</Think> there ") = lit "Hi  there".
Proof. vm_compute. reflexivity. Qed.

Example clean_tokens :
  cleanResponseContent (lit " <reasoning>why</reasoning><final_answer>42</FINAL_ANSWER>")
  = lit "why42".
Proof. vm_compute. reflexivity. Qed.

Example clean_splice :
  cleanResponseContent (lit "<reasoning<final_answer>>") = lit "<reasoning>".
Proof. vm_compute. reflexivity. Qed.

(** ** The scanning replace *)

Section ScanningReplace.

Variable re : jsstring -> option nat.

Lemma replaceAll_cons_None c s :
  re (c :: s) = None -> replaceAll re (c :: s) = c :: replaceAll re s.
Proof. intros H. simp replaceAll. rewrite H. reflexivity. Qed.

Lemma replaceAll_cons_Some c s n :
  re (c :: s) = Some n -> replaceAll re (c :: s) = replaceAll re (drop (pred n) s).
Proof. intros H. simp replaceAll. rewrite H. reflexivity. Qed.

(** A match at the head is dropped. *)
Lemma replaceAll_match s n :
  re s = Some n -> 0 < n -> replaceAll re s = replaceAll re (drop n s).
Proof.
  intros H Hn. destruct s as [|c s].
  - now rewrite drop_nil.
  - rewrite (replaceAll_cons_Some _ _ _ H).
    destruct n as [|n]; [lia|]. reflexivity.
Qed.

(** A prefix in which no match starts is kept. *)
Lemma replaceAll_skip pre rest :
  (forall i, i < length pre -> re (drop i (pre ++ rest)) = None) ->
  replaceAll re (pre ++ rest) = pre ++ replaceAll re rest.
Proof.
  induction pre as [|c pre IH]; intros H; [reflexivity|].
  simpl. rewrite replaceAll_cons_None.
  - f_equal. apply IH. intros i Hi. apply (H (S i)). simpl. lia.
  - apply (H 0). simpl. lia.
Qed.

Lemma replaceAll_id s :
  (forall i, re (drop i s) = None) -> replaceAll re s = s.
Proof.
  intros H. rewrite <- (app_nil_r s) at 1.
  rewrite replaceAll_skip.
  - simp replaceAll. apply app_nil_r.
  - intros i _. rewrite app_nil_r. apply H.
Qed.

Lemma replaceAll_length s : length (replaceAll re s) <= length s.
Proof.
  remember (length s) as k eqn:Hk.
  assert (Hle : length s <= k) by lia. clear Hk.
  revert s Hle. induction k as [|k IH]; intros [|c s] Hle; simpl in *;
    try (simp replaceAll; simpl; lia).
  destruct (re (c :: s)) as [n|] eqn:E.
  - rewrite (replaceAll_cons_Some _ _ _ E).
    assert (L : length (drop (pred n) s) <= k) by (rewrite length_drop; lia).
    specialize (IH _ L). lia.
  - rewrite (replaceAll_cons_None _ _ E). simpl.
    assert (L : length s <= k) by lia. specialize (IH _ L). lia.
Qed.

(** Where something matches, the result is shorter. *)
Lemma replaceAll_shrinks s i n :
  re (drop i s) = Some n -> i < length s ->
  length (replaceAll re s) < length s.
Proof.
  revert i. induction s as [|c s IH]; intros i H Hi; simpl in Hi; [lia|].
  destruct (re (c :: s)) as [k|] eqn:E.
  - rewrite (replaceAll_cons_Some _ _ _ E).
    pose proof (replaceAll_length (drop (pred k) s)) as L.
    rewrite length_drop in L. simpl. lia.
  - rewrite (replaceAll_cons_None _ _ E). simpl.
    destruct i as [|i]; [simpl in H; congruence|].
    simpl in H. specialize (IH i H). lia.
Qed.

End ScanningReplace.

(** ** Case-insensitive patterns *)

Lemma starts_ci_app pat u rest :
  length pat <= length u -> starts_ci pat (u ++ rest) = starts_ci pat u.
Proof.
  revert u. induction pat as [|p pat IH]; intros [|c u] H; simpl in *;
    try reflexivity; try lia.
  rewrite IH by lia. reflexivity.
Qed.

Lemma starts_ci_length pat s : starts_ci pat s = true -> length pat <= length s.
Proof.
  revert s. induction pat as [|p pat IH]; intros [|c s] H; simpl in *;
    try lia; try discriminate.
  apply andb_true_iff in H as [_ H]. apply IH in H. lia.
Qed.

Lemma occurs_ci_drop pat s i :
  starts_ci pat (drop i s) = true -> occurs_ci pat s = true.
Proof.
  revert i. induction s as [|c s IH]; intros i H.
  - rewrite drop_nil in H. simpl. now rewrite H.
  - destruct i as [|i]; simpl in *.
    + now rewrite H.
    + rewrite (IH _ H). apply orb_true_r.
Qed.

Lemma occurs_ci_ex pat s :
  occurs_ci pat s = true ->
  exists i, i <= length s /\ starts_ci pat (drop i s) = true.
Proof.
  induction s as [|c s IH]; simpl; intros H.
  - exists 0. split; [lia|]. now rewrite orb_false_r in H.
  - apply orb_true_iff in H as [H|H].
    + exists 0. split; [lia|exact H].
    + destruct (IH H) as (i & Hi & Hs). exists (S i). split; [lia|exact Hs].
Qed.

Lemma occurs_ci_none pat s i :
  occurs_ci pat s = false -> starts_ci pat (drop i s) = false.
Proof.
  intros H. destruct (starts_ci pat (drop i s)) eqn:E; [|reflexivity].
  apply occurs_ci_drop in E. congruence.
Qed.

(** An occurrence that ends inside [u] is an occurrence in [u]. *)
Lemma occurs_ci_window pat u rest i :
  i + length pat <= length u ->
  starts_ci pat (drop i (u ++ rest)) = true -> occurs_ci pat u = true.
Proof.
  intros Hi H. rewrite skipn_app in H.
  rewrite starts_ci_app in H by (rewrite length_drop; lia).
  eapply occurs_ci_drop, H.
Qed.

Lemma find_ci_cons pat c s :
  find_ci pat (c :: s) =
  if starts_ci pat (c :: s) then Some 0 else option_map S (find_ci pat s).
Proof. reflexivity. Qed.

Lemma find_ci_nil pat : find_ci pat [] = if starts_ci pat [] then Some 0 else None.
Proof. reflexivity. Qed.

Lemma find_ci_first pat s k :
  starts_ci pat (drop k s) = true -> k <= length s ->
  (forall j, j < k -> starts_ci pat (drop j s) = false) ->
  find_ci pat s = Some k.
Proof.
  revert k. induction s as [|c s IH]; intros k Hk Hlen Hmin.
  - simpl in Hlen. assert (k = 0) by lia. subst.
    rewrite find_ci_nil. simpl in Hk. now rewrite Hk.
  - rewrite find_ci_cons. destruct k as [|k].
    + simpl in Hk. now rewrite Hk.
    + pose proof (Hmin 0 ltac:(lia)) as H0. simpl in H0. rewrite H0.
      rewrite (IH k); [reflexivity|exact Hk|simpl in Hlen; lia|].
      intros j Hj. apply (Hmin (S j)). lia.
Qed.

Lemma find_ci_occurs pat s :
  find_ci pat s = None <-> occurs_ci pat s = false.
Proof.
  induction s as [|c s IH].
  - rewrite find_ci_nil. simpl. destruct (starts_ci pat []); simpl; split; congruence.
  - rewrite find_ci_cons. simpl.
    destruct (starts_ci pat (c :: s)); simpl; [split; congruence|].
    rewrite <- IH. destruct (find_ci pat s); simpl; split; congruence.
Qed.

Lemma find_ci_bound pat s k : find_ci pat s = Some k -> k <= length s.
Proof.
  revert k. induction s as [|c s IH]; intros k.
  - rewrite find_ci_nil. destruct (starts_ci pat []); intros [= <-]; simpl; lia.
  - rewrite find_ci_cons. destruct (starts_ci pat (c :: s)); [intros [= <-]; lia|].
    destruct (find_ci pat s) as [j|]; simpl; [|discriminate].
    intros [= <-]. specialize (IH _ eq_refl). lia.
Qed.

Lemma eq_ci_length pat x : eq_ci pat x = true -> length x = length pat.
Proof. unfold eq_ci. intros H. apply andb_true_iff in H as [H _]. now apply Nat.eqb_eq. Qed.

Lemma eq_ci_starts pat x rest : eq_ci pat x = true -> starts_ci pat (x ++ rest) = true.
Proof.
  intros H. pose proof (eq_ci_length _ _ H) as L.
  unfold eq_ci in H. apply andb_true_iff in H as [_ H].
  rewrite starts_ci_app by lia. exact H.
Qed.

Lemma removelast_length {A} (l : list A) : length (removelast l) = pred (length l).
Proof.
  induction l as [|a [|b l] IH]; simpl in *; try reflexivity. now rewrite IH.
Qed.

Lemma removelast_split {A} (l : list A) (d : A) :
  l <> [] -> l = removelast l ++ [List.last l d].
Proof. apply app_removelast_last. Qed.

(** No occurrence of [pat] starts in [pre] when none lies within [pre] and
    all of the following token [x] but its last unit. *)
Lemma no_start_window pat pre x rest i :
  occurs_ci pat (pre ++ removelast x) = false ->
  i + length pat <= length pre + pred (length x) ->
  starts_ci pat (drop i (pre ++ x ++ rest)) = false.
Proof.
  intros Hno Hi.
  destruct (starts_ci pat (drop i (pre ++ x ++ rest))) eqn:E; [|reflexivity].
  destruct x as [|x0 x].
  - simpl in *. rewrite app_nil_r in Hno.
    rewrite (occurs_ci_window pat pre rest i) in Hno; [discriminate|lia|exact E].
  - rewrite (removelast_split (x0 :: x) x0) in E by discriminate.
    rewrite <- app_assoc, app_assoc in E.
    apply occurs_ci_window in E; [congruence|].
    rewrite length_app, removelast_length. lia.
Qed.

(** ** The think pass *)

Lemma think_re_None s :
  starts_ci think_open s && occurs_ci think_close (drop 7 s) = false ->
  think_re s = None.
Proof.
  unfold think_re. destruct (starts_ci think_open s); simpl; [|reflexivity].
  intros H. apply find_ci_occurs in H. now rewrite H.
Qed.

Lemma think_re_Some s :
  starts_ci think_open s && occurs_ci think_close (drop 7 s) = true ->
  exists n, think_re s = Some n /\ 0 < n.
Proof.
  unfold think_re. intros H. apply andb_true_iff in H as [-> H].
  destruct (find_ci think_close (drop 7 s)) as [k|] eqn:E.
  - exists (7 + k + 8). split; [reflexivity|lia].
  - apply find_ci_occurs in E. congruence.
Qed.

Lemma has_think_span_false s i :
  has_think_span s = false -> think_re (drop i s) = None.
Proof.
  revert i. induction s as [|c s IH]; intros i H.
  - rewrite drop_nil. reflexivity.
  - simpl in H. apply orb_false_iff in H as [H1 H2].
    destruct i as [|i]; simpl.
    + apply think_re_None. exact H1.
    + apply IH, H2.
Qed.

Lemma has_think_span_true s :
  has_think_span s = true ->
  exists i n, i < length s /\ think_re (drop i s) = Some n /\ 0 < n.
Proof.
  induction s as [|c s IH]; simpl; [discriminate|]. intros H.
  apply orb_true_iff in H as [H|H].
  - destruct (think_re_Some (c :: s) H) as (n & Hn & Hpos).
    exists 0, n. repeat split; [lia|exact Hn|exact Hpos].
  - destruct (IH H) as (i & n & Hi & Hn & Hpos).
    exists (S i), n. repeat split; [lia|exact Hn|exact Hpos].
Qed.

Lemma removeThinkTags_span pre o body c post :
  eq_ci think_open o = true -> eq_ci think_close c = true ->
  occurs_ci think_open (pre ++ removelast o) = false ->
  occurs_ci think_close (body ++ removelast c) = false ->
  removeThinkTags (pre ++ o ++ body ++ c ++ post) = pre ++ removeThinkTags post.
Proof.
  intros Ho Hc Hpre Hbody. unfold removeThinkTags.
  pose proof (eq_ci_length _ _ Ho) as Lo. pose proof (eq_ci_length _ _ Hc) as Lc.
  change (length think_open) with 7 in Lo. change (length think_close) with 8 in Lc.
  rewrite replaceAll_skip.
  - f_equal.
    assert (E : think_re (o ++ body ++ c ++ post) = Some (7 + length body + 8)).
    { unfold think_re. rewrite (eq_ci_starts _ _ _ Ho).
      rewrite (drop_app_length' o _ 7) by lia.
      rewrite (find_ci_first _ _ (length body)); [reflexivity| | |].
      - rewrite drop_app_length. apply eq_ci_starts, Hc.
      - rewrite length_app. lia.
      - intros j Hj. apply no_start_window; [exact Hbody|].
        change (length think_close) with 8. lia. }
    rewrite (replaceAll_match _ _ _ E) by lia. f_equal.
    rewrite <- Lo at 1. rewrite <- Nat.add_assoc, drop_app_add.
    rewrite <- Lc. rewrite drop_app_add. now rewrite drop_app_length.
  - intros i Hi. apply think_re_None.
    rewrite (no_start_window think_open pre o); [reflexivity|exact Hpre|].
    change (length think_open) with 7. lia.
Qed.

Lemma removeThinkTags_id s : has_think_span s = false -> removeThinkTags s = s.
Proof.
  intros H. apply replaceAll_id. intros i. now apply has_think_span_false.
Qed.

(** ** The tag-token passes *)

Lemma lit_app a b : lit (a ++ b)%string = lit a ++ lit b.
Proof. induction a as [|x a IH]; simpl; [reflexivity|]. now rewrite IH. Qed.

Lemma open_tag_cons name : open_tag name = 60%N :: lit (name ++ ">")%string.
Proof. reflexivity. Qed.

Lemma close_tag_cons name :
  close_tag name = 60%N :: 47%N :: lit (name ++ ">")%string.
Proof. reflexivity. Qed.

Lemma close_tag_length name : length (close_tag name) = S (length (open_tag name)).
Proof. reflexivity. Qed.

Lemma tag_re_None name s :
  starts_ci (open_tag name) s = false -> starts_ci (close_tag name) s = false ->
  tag_re name s = None.
Proof. unfold tag_re. now intros -> ->. Qed.

Lemma tag_re_Some name s :
  starts_ci (open_tag name) s || starts_ci (close_tag name) s = true ->
  exists n, tag_re name s = Some n /\ 0 < n.
Proof.
  unfold tag_re. intros H.
  destruct (starts_ci (close_tag name) s).
  - eexists. split; [reflexivity|]. rewrite close_tag_length. lia.
  - rewrite orb_false_r in H. rewrite H.
    eexists. split; [reflexivity|]. rewrite open_tag_cons. simpl. lia.
Qed.

Lemma occurs_tag_false name s i :
  occurs_tag name s = false -> tag_re name (drop i s) = None.
Proof.
  unfold occurs_tag. intros H. apply orb_false_iff in H as [H1 H2].
  apply tag_re_None; now apply occurs_ci_none.
Qed.

Lemma occurs_ci_lt pat s :
  pat <> [] -> occurs_ci pat s = true ->
  exists i, i < length s /\ starts_ci pat (drop i s) = true.
Proof.
  intros Hp H. destruct (occurs_ci_ex _ _ H) as (i & Hi & Hs).
  exists i. split; [|exact Hs].
  apply starts_ci_length in Hs. rewrite length_drop in Hs.
  destruct pat; [congruence|]. simpl in Hs. lia.
Qed.

Lemma occurs_tag_true name s :
  occurs_tag name s = true ->
  exists i n, i < length s /\ tag_re name (drop i s) = Some n /\ 0 < n.
Proof.
  unfold occurs_tag. intros H. apply orb_true_iff in H as [H|H];
    apply occurs_ci_lt in H; try (rewrite ?open_tag_cons, ?close_tag_cons; discriminate);
    destruct H as (i & Hi & Hs);
    destruct (tag_re_Some name (drop i s)) as (n & Hn & Hpos);
    try (rewrite Hs; auto using orb_true_r);
    exists i, n; auto.
Qed.

Lemma open_not_close name t rest :
  plain_name name = true -> eq_ci (open_tag name) t = true ->
  starts_ci (close_tag name) (t ++ rest) = false.
Proof.
  unfold plain_name, eq_ci. intros Hp H. apply andb_true_iff in H as [_ H].
  rewrite open_tag_cons in H. rewrite close_tag_cons.
  assert (Hne : lit (name ++ ">")%string <> []).
  { rewrite lit_app. destruct (lit name); discriminate. }
  destruct t as [|t0 t]; [discriminate|]. simpl in H.
  apply andb_true_iff in H as [H0 H]. simpl. rewrite H0. simpl.
  destruct (lit (name ++ ">")%string) as [|n0 ns]; [congruence|].
  destruct t as [|t1 t]; [discriminate|]. simpl in *.
  apply andb_true_iff in H as [H1 _].
  rewrite andb_true_r in Hp. apply negb_true_iff in Hp.
  unfold char_ci in *. apply N.eqb_eq in H1. rewrite <- H1.
  rewrite Hp. reflexivity.
Qed.

(** A closing token cannot start one unit before an opening token. *)
Lemma close_not_before_open name a t rest :
  eq_ci (open_tag name) t = true ->
  starts_ci (close_tag name) (a :: t ++ rest) = false.
Proof.
  unfold eq_ci. intros H. apply andb_true_iff in H as [_ H].
  rewrite open_tag_cons in H. rewrite close_tag_cons.
  destruct t as [|t0 t]; [discriminate|]. simpl in H.
  apply andb_true_iff in H as [H0 _]. simpl.
  unfold char_ci in *. apply N.eqb_eq in H0.
  replace (canonicalize 47 =? canonicalize t0)%N with false;
    [now rewrite andb_false_r|].
  symmetry. apply N.eqb_neq. rewrite <- H0. intros E. vm_compute in E. discriminate.
Qed.

Lemma tag_re_token name t rest :
  plain_name name = true -> is_tag name t = true ->
  tag_re name (t ++ rest) = Some (length t).
Proof.
  unfold is_tag, tag_re. intros Hp H. apply orb_true_iff in H as [H|H].
  - rewrite (open_not_close _ _ _ Hp H), (eq_ci_starts _ _ _ H).
    now rewrite (eq_ci_length _ _ H).
  - rewrite (eq_ci_starts _ _ _ H). now rewrite (eq_ci_length _ _ H).
Qed.

Lemma tag_token_removed name pre t post :
  plain_name name = true -> is_tag name t = true ->
  occurs_tag name (pre ++ removelast t) = false ->
  replaceAll (tag_re name) (pre ++ t ++ post)
  = pre ++ replaceAll (tag_re name) post.
Proof.
  intros Hp Ht Hno. unfold occurs_tag in Hno.
  apply orb_false_iff in Hno as [Hno_o Hno_c].
  assert (Lt : length (open_tag name) <= length t).
  { unfold is_tag in Ht. apply orb_true_iff in Ht as [H|H];
      apply eq_ci_length in H; rewrite H, ?close_tag_length; lia. }
  assert (Lo : 2 <= length (open_tag name)).
  { rewrite open_tag_cons, lit_app, length_cons, length_app. simpl. lia. }
  rewrite replaceAll_skip.
  - f_equal. rewrite (replaceAll_match _ _ _ (tag_re_token _ _ _ Hp Ht)) by lia.
    now rewrite drop_app_length.
  - intros i Hi. apply tag_re_None.
    + apply no_start_window; [exact Hno_o|lia].
    + destruct (Nat.le_gt_cases (i + length (close_tag name))
                  (length pre + pred (length t))) as [Hw|Hw].
      * apply no_start_window; [exact Hno_c|exact Hw].
      * unfold is_tag in Ht. apply orb_true_iff in Ht as [H|H].
        -- pose proof (eq_ci_length _ _ H) as L.
           rewrite close_tag_length in Hw.
           assert (Ei : i = length pre - 1) by lia.
           destruct (exists_last (l := pre)) as (pre' & a & ->);
             [destruct pre; simpl in Hi; [lia|discriminate]|].
           rewrite length_app in Ei. simpl in Ei.
           replace i with (length pre') by lia.
           rewrite <- app_assoc, drop_app_length. simpl.
           now apply close_not_before_open.
        -- apply eq_ci_length in H. lia.
Qed.

Lemma tag_pass_id name s :
  occurs_tag name s = false -> replaceAll (tag_re name) s = s.
Proof.
  intros H. apply replaceAll_id. intros i. now apply occurs_tag_false.
Qed.

(** ** Trimming *)

Lemma trimStart_spec s :
  exists w, s = w ++ trimStart s /\ forallb isWhiteSpace w = true
            /\ starts_clean (trimStart s).
Proof.
  induction s as [|c s (w & E & Hw & Hc)]; simpl.
  - exists []. now repeat split.
  - destruct (isWhiteSpace c) eqn:Ec.
    + exists (c :: w). simpl. rewrite Ec, Hw. repeat split; [|exact Hc].
      now rewrite <- E.
    + exists []. repeat split. exact Ec.
Qed.

Lemma trimStart_id s : starts_clean s -> trimStart s = s.
Proof. destruct s as [|c s]; simpl; [reflexivity|]. now intros ->. Qed.

Lemma trimStart_ws w s : forallb isWhiteSpace w = true -> trimStart (w ++ s) = trimStart s.
Proof.
  induction w as [|c w IH]; simpl; [reflexivity|].
  intros H. apply andb_true_iff in H as [-> H]. now apply IH.
Qed.

Lemma trimStart_length s : length (trimStart s) <= length s.
Proof.
  destruct (trimStart_spec s) as (w & E & _). rewrite E at 2.
  rewrite length_app. lia.
Qed.

Lemma trimEnd_length s : length (trimEnd s) <= length s.
Proof.
  unfold trimEnd. rewrite length_rev.
  etransitivity; [apply trimStart_length|]. now rewrite length_rev.
Qed.

Lemma trim_length s : length (trim s) <= length s.
Proof.
  unfold trim. etransitivity; [apply trimEnd_length|apply trimStart_length].
Qed.

Lemma last_hd_rev (s : jsstring) c r d : rev s = c :: r -> List.last s d = c.
Proof.
  intros H. apply (f_equal (@rev N)) in H. rewrite rev_involutive in H.
  subst s. simpl. apply last_last.
Qed.

Lemma trimmed_rev c s : trimmed (c :: s) -> starts_clean (rev (c :: s)).
Proof.
  intros [_ H]. destruct (rev (c :: s)) as [|a r] eqn:E; simpl; [exact I|].
  now rewrite (last_hd_rev _ _ _ c E) in H.
Qed.

Lemma trim_id t : trimmed t -> trim t = t.
Proof.
  destruct t as [|c t]; [reflexivity|]. intros H. unfold trim.
  rewrite (trimStart_id (c :: t)) by apply H.
  unfold trimEnd. rewrite trimStart_id by now apply trimmed_rev.
  apply rev_involutive.
Qed.

Lemma trim_core l core r :
  forallb isWhiteSpace l = true -> forallb isWhiteSpace r = true ->
  trimmed core -> trim (l ++ core ++ r) = core.
Proof.
  intros Hl Hr Hc. unfold trim. rewrite trimStart_ws by exact Hl.
  destruct core as [|c core].
  - simpl. rewrite <- (app_nil_r r), trimStart_ws by exact Hr. reflexivity.
  - rewrite (trimStart_id ((c :: core) ++ r)) by apply Hc.
    unfold trimEnd. rewrite rev_app_distr, trimStart_ws.
    + rewrite trimStart_id by now apply trimmed_rev. apply rev_involutive.
    + rewrite forallb_forall in *. intros x Hx. apply Hr. now apply in_rev.
Qed.

Lemma trimmed_trim s : trimmed (trim s).
Proof.
  unfold trim. set (u := trimStart s).
  assert (Hu : starts_clean u) by (destruct (trimStart_spec s) as (? & _ & _ & H); exact H).
  unfold trimEnd.
  destruct (trimStart_spec (rev u)) as (w & E & Hw & Hc).
  destruct (rev (trimStart (rev u))) as [|c v] eqn:Ev; [exact I|].
  apply (f_equal (@rev N)) in E. rewrite rev_involutive, rev_app_distr, Ev in E.
  split.
  - rewrite E in Hu. exact Hu.
  - apply (f_equal (@rev N)) in Ev. rewrite rev_involutive in Ev.
    rewrite Ev in Hc. destruct (rev (c :: v)) as [|a r] eqn:Er.
    { apply (f_equal (@length N)) in Er. rewrite length_rev in Er. discriminate. }
    rewrite (last_hd_rev _ _ _ c Er). exact Hc.
Qed.

(** ** The sanitiser as a whole *)

Lemma cleanResponseContent_pipeline content :
  cleanResponseContent content
  = trim (removeAnswerTags (removeReasoningTags (removeThinkTags content))).
Proof. destruct content; reflexivity. Qed.

Lemma plain_reasoning : plain_name "reasoning" = true.
Proof. reflexivity. Qed.

Lemma plain_final_answer : plain_name "final_answer" = true.
Proof. reflexivity. Qed.

(** C2.  [cleanResponseContent] is the trimmed result of three passes.  The
    first deletes each think span: the leftmost opening tag (in any letter
    case) up to and including the first closing tag behind it, whatever lies
    between them, line breaks included, and then goes on behind the span; text
    without such a span is left alone.  The second and third delete each
    [reasoning], respectively [final_answer], token (opening or closing, in
    any letter case) and keep the text before and behind it.  Trimming
    removes exactly the white space around the remaining text; text without
    any of this markup is only trimmed. *)
Theorem cleanResponseContent_sanitizes :
  (forall content,
      cleanResponseContent content
      = trim (removeAnswerTags (removeReasoningTags (removeThinkTags content))))
  /\ (forall pre o body c post,
         eq_ci think_open o = true -> eq_ci think_close c = true ->
         occurs_ci think_open (pre ++ removelast o) = false ->
         occurs_ci think_close (body ++ removelast c) = false ->
         removeThinkTags (pre ++ o ++ body ++ c ++ post)
         = pre ++ removeThinkTags post)
  /\ (forall s, has_think_span s = false -> removeThinkTags s = s)
  /\ (forall pre t post,
         is_tag "reasoning" t = true ->
         occurs_tag "reasoning" (pre ++ removelast t) = false ->
         removeReasoningTags (pre ++ t ++ post) = pre ++ removeReasoningTags post)
  /\ (forall s, occurs_tag "reasoning" s = false -> removeReasoningTags s = s)
  /\ (forall pre t post,
         is_tag "final_answer" t = true ->
         occurs_tag "final_answer" (pre ++ removelast t) = false ->
         removeAnswerTags (pre ++ t ++ post) = pre ++ removeAnswerTags post)
  /\ (forall s, occurs_tag "final_answer" s = false -> removeAnswerTags s = s)
  /\ (forall l core r,
         forallb isWhiteSpace l = true -> forallb isWhiteSpace r = true ->
         trimmed core -> trim (l ++ core ++ r) = core)
  /\ (forall s, markup_free s = true -> cleanResponseContent s = trim s).
Proof.
  split; [exact cleanResponseContent_pipeline|].
  split; [exact removeThinkTags_span|].
  split; [exact removeThinkTags_id|].
  split; [intros; now apply tag_token_removed|].
  split; [intros; now apply tag_pass_id|].
  split; [intros; now apply tag_token_removed|].
  split; [intros; now apply tag_pass_id|].
  split; [exact trim_core|].
  intros s H. unfold markup_free in H.
  apply andb_true_iff in H as [H Ha]. apply andb_true_iff in H as [Hs Hr].
  apply negb_true_iff in Hs, Hr, Ha.
  rewrite cleanResponseContent_pipeline, (removeThinkTags_id _ Hs).
  unfold removeReasoningTags, removeAnswerTags.
  now rewrite (tag_pass_id _ _ Hr), (tag_pass_id _ _ Ha).
Qed.

Lemma cleanResponseContent_sanitizes_witness :
  removeThinkTags (lit "Hi " ++ lit "<THINK>" ++ lit "a
b" ++ lit "</Think>" ++ lit " there")
  = lit "Hi " ++ removeThinkTags (lit " there").
Proof.
  apply (proj1 (proj2 cleanResponseContent_sanitizes)); reflexivity.
Defined.

(** ** Idempotence *)

Lemma cleanResponseContent_length s : length (cleanResponseContent s) <= length s.
Proof.
  rewrite cleanResponseContent_pipeline.
  unfold removeAnswerTags, removeReasoningTags, removeThinkTags.
  etransitivity; [apply trim_length|].
  etransitivity; [apply replaceAll_length|].
  etransitivity; [apply replaceAll_length|]. apply replaceAll_length.
Qed.

Lemma trimmed_cleanResponseContent s : trimmed (cleanResponseContent s).
Proof. rewrite cleanResponseContent_pipeline. apply trimmed_trim. Qed.

Lemma markup_free_fixed t :
  trimmed t -> markup_free t = true -> cleanResponseContent t = t.
Proof.
  unfold markup_free. intros Ht H.
  apply andb_true_iff in H as [H Ha]. apply andb_true_iff in H as [Hs Hr].
  apply negb_true_iff in Hs, Hr, Ha.
  rewrite cleanResponseContent_pipeline.
  rewrite (removeThinkTags_id _ Hs).
  unfold removeReasoningTags, removeAnswerTags.
  rewrite (tag_pass_id _ _ Hr), (tag_pass_id _ _ Ha).
  now apply trim_id.
Qed.

Lemma fixed_markup_free t : cleanResponseContent t = t -> markup_free t = true.
Proof.
  intros E. apply (f_equal (@length N)) in E.
  rewrite cleanResponseContent_pipeline in E.
  unfold removeAnswerTags, removeReasoningTags, removeThinkTags in E.
  pose proof (trim_length
    (replaceAll (tag_re "final_answer")
       (replaceAll (tag_re "reasoning") (replaceAll think_re t)))) as L0.
  pose proof (replaceAll_length (tag_re "final_answer")
       (replaceAll (tag_re "reasoning") (replaceAll think_re t))) as L1.
  pose proof (replaceAll_length (tag_re "reasoning") (replaceAll think_re t)) as L2.
  pose proof (replaceAll_length think_re t) as L3.
  destruct (has_think_span t) eqn:Hs.
  { destruct (has_think_span_true _ Hs) as (i & n & Hi & Hn & _).
    pose proof (replaceAll_shrinks _ _ _ _ Hn Hi). lia. }
  pose proof (removeThinkTags_id _ Hs) as E1. unfold removeThinkTags in E1.
  rewrite E1 in *.
  destruct (occurs_tag "reasoning" t) eqn:Hr.
  { destruct (occurs_tag_true _ _ Hr) as (i & n & Hi & Hn & _).
    pose proof (replaceAll_shrinks _ _ _ _ Hn Hi). lia. }
  rewrite (tag_pass_id _ _ Hr) in *.
  destruct (occurs_tag "final_answer" t) eqn:Ha.
  { destruct (occurs_tag_true _ _ Ha) as (i & n & Hi & Hn & _).
    pose proof (replaceAll_shrinks _ _ _ _ Hn Hi). lia. }
  unfold markup_free. now rewrite Hs, Hr, Ha.
Qed.

(** C3, as the code has it.  Sanitising sanitised text changes nothing when
    the sanitised text holds no think span and no [reasoning] or
    [final_answer] token. *)
Theorem cleanResponseContent_idempotent_on_clean s :
  markup_free (cleanResponseContent s) = true ->
  cleanResponseContent (cleanResponseContent s) = cleanResponseContent s.
Proof. apply markup_free_fixed, trimmed_cleanResponseContent. Qed.

Lemma cleanResponseContent_idempotent_on_clean_witness :
  markup_free (cleanResponseContent (lit " a <think>b</think><reasoning>c ")) = true
  /\ cleanResponseContent (cleanResponseContent (lit " a <think>b</think><reasoning>c "))
     = cleanResponseContent (lit " a <think>b</think><reasoning>c ").
Proof.
  split; [reflexivity|].
  apply (cleanResponseContent_idempotent_on_clean
           (lit " a <think>b</think><reasoning>c ")).
  reflexivity.
Defined.

(** The condition is also necessary: a second run changes the text exactly
    when the first run left markup behind. *)
Lemma cleanResponseContent_idempotent_iff s :
  cleanResponseContent (cleanResponseContent s) = cleanResponseContent s
  <-> markup_free (cleanResponseContent s) = true.
Proof.
  split; [apply fixed_markup_free|].
  apply markup_free_fixed, trimmed_cleanResponseContent.
Qed.

(** C3, as the specification states it, fails: removing a [final_answer]
    token can join the text around it into a [reasoning] token, which only a
    second run removes. *)
Lemma cleanResponseContent_not_idempotent :
  cleanResponseContent (cleanResponseContent (lit "<reasoning<final_answer>>"))
  <> cleanResponseContent (lit "<reasoning<final_answer>>").
Proof. vm_compute. discriminate. Qed.

(* ===================================================================== *)
(** * The response normaliser                                             *)
(* ===================================================================== *)

Example extract_nested :
  extractQueryData
    (JObject [("data", JObject [("success", JBool true);
                                ("data", JObject [("response", JString (lit "hi"))])])])
  = Ret (Some (JObject [("response", JString (lit "hi"))])).
Proof. reflexivity. Qed.

Example extract_direct :
  extractQueryData (JObject [("data", JObject [("response", JString (lit "hi"))])])
  = Ret (Some (JObject [("response", JString (lit "hi"))])).
Proof. reflexivity. Qed.

Example extract_bare :
  extractQueryData (JObject [("response", JString (lit "hi")); ("query_id", JNumber 7)])
  = Ret (Some (JObject [("response", JString (lit "hi")); ("query_id", JNumber 7)])).
Proof. reflexivity. Qed.

(** The nested envelope wins over a [response] next to it. *)
Example extract_nested_first :
  extractQueryData
    (JObject [("data", JObject [("response", JString (lit "direct"));
                                ("success", JNumber 1);
                                ("data", JObject [("response", JString (lit "nested"))])])])
  = Ret (Some (JObject [("response", JString (lit "nested"))])).
Proof. reflexivity. Qed.

(** A success envelope without a payload falls through to the next shape. *)
Example extract_falls_through :
  extractQueryData
    (JObject [("data", JObject [("success", JBool true); ("data", JNull);
                                ("response", JString (lit "direct"))])])
  = Ret (Some (JObject [("success", JBool true); ("data", JNull);
                        ("response", JString (lit "direct"))])).
Proof. reflexivity. Qed.

Example extract_null : extractQueryData JNull = Ret None.
Proof. reflexivity. Qed.

Lemma opt_member_field v k : opt_member v k = default JUndefined (field v k).
Proof. destruct v; reflexivity. Qed.

Lemma member_field v k k' x :
  field v k = Some x -> member v k' = Ret (default JUndefined (field v k')).
Proof. destruct v; simpl; congruence. Qed.

Lemma truthy_field v k :
  truthy (default JUndefined (field v k)) = true <->
  exists x, field v k = Some x /\ truthy x = true.
Proof.
  destruct (field v k) as [x|]; simpl.
  - split; [eauto|]. now intros (y & [= <-] & H).
  - split; [discriminate|]. now intros (y & [=] & _).
Qed.

Lemma falsy_field v k x :
  truthy (default JUndefined (field v k)) = false -> field v k = Some x ->
  truthy x = false.
Proof. intros H E. now rewrite E in H. Qed.

(** The function in terms of the fields it reads. *)
Lemma extractQueryData_fields r :
  extractQueryData r =
  let env := default JUndefined (field r "data") in
  if truthy (default JUndefined (field env "success"))
     && truthy (default JUndefined (field env "data"))
  then Ret (Some (default JUndefined (field env "data")))
  else if truthy (default JUndefined (field env "response")) then Ret (Some env)
  else if truthy (default JUndefined (field r "response")) then Ret (Some r)
  else Ret None.
Proof.
  unfold extractQueryData. rewrite !opt_member_field.
  destruct (field r "data") as [env|] eqn:Ed; simpl.
  - rewrite (member_field _ _ "data" _ Ed), Ed. simpl.
    rewrite !opt_member_field.
    destruct (truthy (default JUndefined (field env "success"))) eqn:Es; simpl.
    + destruct (truthy (default JUndefined (field env "data"))) eqn:Ep; simpl.
      * apply truthy_field in Es as (s & Es & _).
        now rewrite (member_field _ _ "data" _ Es).
      * reflexivity.
    + reflexivity.
  - reflexivity.
Qed.

(** C1, as the code has it.  The three shapes are tried in the order (a),
    (b), (c), where a field counts only when its value is truthy; the payload
    of the first shape that matches is returned, and [null] when none does.
    No input makes the function throw. *)
Theorem extractQueryData_first_truthy_shape (r : JSValue) :
  (forall p, shape_a truthy r p -> extractQueryData r = Ret (Some p))
  /\ (forall p, ~ (exists q, shape_a truthy r q) -> shape_b truthy r p ->
                extractQueryData r = Ret (Some p))
  /\ (~ (exists q, shape_a truthy r q) -> ~ (exists q, shape_b truthy r q) ->
      shape_c truthy r -> extractQueryData r = Ret (Some r))
  /\ (~ (exists q, shape_a truthy r q) -> ~ (exists q, shape_b truthy r q) ->
      ~ shape_c truthy r -> extractQueryData r = Ret None).
Proof.
  rewrite extractQueryData_fields. cbv zeta.
  assert (Ha : truthy (default JUndefined (field (default JUndefined (field r "data")) "success"))
               && truthy (default JUndefined (field (default JUndefined (field r "data")) "data")) = true
               <-> exists q, shape_a truthy r q).
  { rewrite andb_true_iff, !truthy_field. unfold shape_a. split.
    - intros [(s & Es & Hs) (p & Ep & Hp)].
      destruct (field r "data") as [env|] eqn:Ed; [|discriminate].
      exists p, env, s. auto.
    - intros (p & env & s & Ed & Es & Hs & Ep & Hp). rewrite Ed. simpl.
      split; eauto. }
  assert (Hb : truthy (default JUndefined (field (default JUndefined (field r "data")) "response")) = true
               <-> exists q, shape_b truthy r q).
  { rewrite truthy_field. unfold shape_b. split.
    - intros (x & Ex & Hx).
      destruct (field r "data") as [env|] eqn:Ed; [|discriminate].
      exists env, x. auto.
    - intros (p & x & Ed & Ex & Hx). rewrite Ed. simpl. eauto. }
  assert (Hc : truthy (default JUndefined (field r "response")) = true
               <-> shape_c truthy r).
  { rewrite truthy_field. reflexivity. }
  repeat split.
  - intros p Hp. destruct Hp as (env & s & Ed & Es & Hs & Ep & Hp).
    rewrite Ed. simpl. rewrite Es, Ep. simpl. now rewrite Hs, Hp.
  - intros p Hna Hp.
    destruct (_ && _) eqn:E; [exfalso; apply Hna, Ha; reflexivity|].
    destruct Hp as (x & Ed & Ex & Hx). rewrite Ed. simpl. rewrite Ex. simpl.
    now rewrite Hx.
  - intros Hna Hnb Hp.
    destruct (_ && _) eqn:E; [exfalso; apply Hna, Ha; reflexivity|].
    destruct (truthy (default JUndefined (field (default JUndefined (field r "data")) "response"))) eqn:E';
      [exfalso; apply Hnb, Hb; reflexivity|].
    apply Hc in Hp. now rewrite Hp.
  - intros Hna Hnb Hnc.
    destruct (_ && _) eqn:E; [exfalso; apply Hna, Ha; reflexivity|].
    destruct (truthy (default JUndefined (field (default JUndefined (field r "data")) "response"))) eqn:E';
      [exfalso; apply Hnb, Hb; reflexivity|].
    destruct (truthy (default JUndefined (field r "response"))) eqn:E'';
      [exfalso; apply Hnc, Hc; reflexivity|].
    reflexivity.
Qed.

Lemma extractQueryData_first_truthy_shape_witness :
  extractQueryData
    (JObject [("data", JObject [("success", JBool true);
                                ("data", JObject [("response", JString (lit "hi"))])])])
  = Ret (Some (JObject [("response", JString (lit "hi"))])).
Proof.
  apply (proj1 (extractQueryData_first_truthy_shape _)).
  exists (JObject [("success", JBool true);
                   ("data", JObject [("response", JString (lit "hi"))])]),
         (JBool true).
  repeat split; reflexivity.
Defined.

(** C1, as the specification states it, fails.  The envelope
    [{ data: { response: "" } }] has the singly-nested shape, its [data]
    carrying a [response] field, and neither of the shapes tried before it;
    the function returns [null], not the payload. *)
Lemma extractQueryData_empty_response_is_null :
  ~ (exists q, shape_a present
                 (JObject [("data", JObject [("response", JString [])])]) q)
  /\ shape_b present (JObject [("data", JObject [("response", JString [])])])
                     (JObject [("response", JString [])])
  /\ extractQueryData (JObject [("data", JObject [("response", JString [])])])
     <> Ret (Some (JObject [("response", JString [])]))
  /\ extractQueryData (JObject [("data", JObject [("response", JString [])])])
     = Ret None.
Proof.
  repeat split.
  - intros (q & env & s & Ed & Es & _). simpl in Ed. injection Ed as <-.
    discriminate.
  - exists (JString []). repeat split; reflexivity.
  - discriminate.
Qed.

(* ===================================================================== *)
(** * The chat message list                                               *)
(* ===================================================================== *)

Lemma removeMessage_sublist messageId prev :
  removeMessage messageId prev `sublist_of` prev.
Proof.
  unfold removeMessage. induction prev as [|m prev IH]; simpl.
  - constructor.
  - destruct (negb _); now constructor.
Qed.

Lemma without_rating_set_rating rating msg :
  without_rating (set_rating rating msg) = without_rating msg.
Proof. reflexivity. Qed.

Lemma rate_locally_in_place messageId rating prev :
  List.map without_rating (rate_locally messageId rating prev)
  = List.map without_rating prev.
Proof.
  unfold rate_locally. induction prev as [|m prev IH]; simpl; [reflexivity|].
  rewrite IH. now destruct (String.eqb _ _).
Qed.

Lemma rate_locally_lookup messageId rating (prev : list ChatMessage) i m :
  prev !! i = Some m ->
  rate_locally messageId rating prev !! i
  = Some (if String.eqb (msg_id m) messageId then set_rating rating m else m).
Proof.
  unfold rate_locally. intros H.
  change (List.map ?f prev) with (f <$> prev).
  now rewrite list_lookup_fmap, H.
Qed.

Lemma removeMessage_In messageId prev m :
  In m (removeMessage messageId prev) <-> In m prev /\ msg_id m <> messageId.
Proof.
  unfold removeMessage. rewrite List.filter_In, negb_true_iff.
  split; intros [H1 H2]; (split; [exact H1|]).
  - intros E. apply String.eqb_eq in E. congruence.
  - now apply String.eqb_neq.
Qed.

Lemma removeMessage_largest messageId prev l :
  l `sublist_of` prev -> Forall (fun m => msg_id m <> messageId) l ->
  l `sublist_of` removeMessage messageId prev.
Proof.
  unfold removeMessage. induction 1 as [|x l1 l2 Hs IH|x l1 l2 Hs IH]; intros HF; simpl.
  - constructor.
  - inversion HF as [|? ? Hx HF']; subst.
    apply String.eqb_neq in Hx. rewrite Hx. simpl. constructor. now apply IH.
  - destruct (negb _); [constructor|]; now apply IH.
Qed.

Lemma assistantMessage_of_type api now m :
  assistantMessage_of api now = Ret m -> msg_type m = assistant.
Proof.
  unfold assistantMessage_of, mbind, Result_bind.
  destruct api as [response|e]; [|discriminate].
  destruct (extractQueryData response) as [[queryData|]|e]; try discriminate.
  destruct (cleanResponseContent_value _) as [[|c cleaned]|e]; try discriminate.
  destruct (extractProcessingStats_completes _) as [[]|e]; try discriminate.
  destruct (spread _) as [matched|e]; try discriminate.
  destruct (spread _) as [related|e]; try discriminate.
  now intros [= <-].
Qed.

Lemma sendMessage_settle_appends api now prev :
  exists reply,
    fst (sendMessage_settle api now prev) = prev ++ [reply]
    /\ msg_type reply = assistant
    /\ (assistantMessage_of api now = Ret reply \/ reply = errorMessage_at now).
Proof.
  unfold sendMessage_settle.
  destruct (assistantMessage_of api now) as [m|e] eqn:E; simpl.
  - exists m. split; [reflexivity|]. split; [eapply assistantMessage_of_type, E|now left].
  - eexists. split; [reflexivity|]. split; [reflexivity|now right].
Qed.

Lemma sendMessage_appends content isLoading now1 now2 api prev :
  exists added,
    fst (sendMessage content isLoading now1 now2 api prev) = prev ++ added
    /\ (added = [] \/
        exists reply,
          added = [blank_message (pretty now1) user (trim content) now1; reply]
          /\ msg_type reply = assistant).
Proof.
  unfold sendMessage. destruct (sendMessage_accepts content isLoading).
  - destruct (sendMessage_settle_appends api now2 (sendMessage_start content now1 prev))
      as (reply & E & Ht & _).
    rewrite E. unfold sendMessage_start. rewrite <- app_assoc. simpl.
    eexists. split; [reflexivity|]. right. eauto.
  - exists []. simpl. rewrite app_nil_r. auto.
Qed.

Example sendMessage_answer :
  List.map (fun m => (msg_id m, msg_type m, msg_content m))
    (fst (sendMessage (lit " hi ") false 100 200
            (Ret (JObject
               [("data", JObject
                   [("success", JBool true);
                    ("data", JObject
                       [("response", JString (lit "<think>hm</think>Hello"));
                        ("query_id", JString (lit "q1"))])])]))
            []))
  = [("100", user, lit "hi"); ("201", assistant, lit "Hello")].
Proof. vm_compute. reflexivity. Qed.

Example sendMessage_apology :
  List.map (fun m => (msg_id m, msg_type m, msg_content m))
    (fst (sendMessage (lit "hi") false 100 200
            (Ret (JObject [("response", JString (lit "<think>hm</think> "))]))
            []))
  = [("100", user, lit "hi"); ("201", assistant, sorry_text)].
Proof. vm_compute. reflexivity. Qed.



(* ===================================================================== *)
(** * Upload validation                                                   *)
(* ===================================================================== *)

Example extension_exe :
  fileExtension {| file_name := lit "archive.tar.EXE"; file_size := 10 |} = lit "exe".
Proof. reflexivity. Qed.

Example extension_upper_pdf :
  extension_allowed {| file_name := lit "Report.PDF"; file_size := 10 |} = true.
Proof. reflexivity. Qed.

(** C7, as the code has it.  The limit is 50 * 1024 * 1024 bytes.  A larger
    file is turned down with the toast that cites the 50MB limit; a file
    within the limit whose extension is not allowed is turned down with the
    toast that lists the allowed extensions.  Either way the result is
    [null], no request is sent and the document list is as before. *)
Theorem uploadDocument_validates_first (file : File)
    (api : File -> Settled UploadReply) (documents : list Document) :
  maxSize = 52428800%Z
  /\ ((file_size file > maxSize)%Z ->
      uploadDocument (Some file) api documents
      = {| upload_result := None;
           upload_toasts := [toast_error (lit "File size exceeds 50MB limit")];
           upload_requests := [];
           upload_documents := documents |})
  /\ ((file_size file <= maxSize)%Z -> extension_allowed file = false ->
      uploadDocument (Some file) api documents
      = {| upload_result := None;
           upload_toasts :=
             [toast_error
                (lit "File type not supported. Allowed types: pdf, docx, txt, pptx")];
           upload_requests := [];
           upload_documents := documents |}).
Proof.
  split; [reflexivity|]. unfold uploadDocument. split.
  - intros H. apply Z.gtb_gt in H. now rewrite H.
  - intros H Hext.
    destruct (file_size file >? maxSize)%Z eqn:E; [apply Z.gtb_gt in E; lia|].
    now rewrite Hext.
Qed.

Lemma uploadDocument_validates_first_witness :
  uploadDocument (Some {| file_name := lit "movie.pdf"; file_size := 62914560 |})
    (fun _ => Rejected (thrown [])) []
  = {| upload_result := None;
       upload_toasts := [toast_error (lit "File size exceeds 50MB limit")];
       upload_requests := [];
       upload_documents := [] |}
  /\ uploadDocument (Some {| file_name := lit "setup.exe"; file_size := 1024 |})
       (fun _ => Rejected (thrown [])) []
     = {| upload_result := None;
          upload_toasts :=
            [toast_error
               (lit "File type not supported. Allowed types: pdf, docx, txt, pptx")];
          upload_requests := [];
          upload_documents := [] |}.
Proof.
  split.
  - apply (uploadDocument_validates_first
             {| file_name := lit "movie.pdf"; file_size := 62914560 |}).
    reflexivity.
  - apply (uploadDocument_validates_first
             {| file_name := lit "setup.exe"; file_size := 1024 |});
      [discriminate|reflexivity].
Defined.

(** C7, as the specification states it, fails for a file that is both too
    large and of a type that is not allowed: the size is tested first, and
    the only toast cites the size limit, not the allowed extensions. *)
Lemma uploadDocument_large_exe_cites_size :
  extension_allowed {| file_name := lit "setup.exe"; file_size := 62914560 |} = false
  /\ upload_toasts
       (uploadDocument (Some {| file_name := lit "setup.exe"; file_size := 62914560 |})
          (fun _ => Rejected (thrown [])) [])
     = [toast_error (lit "File size exceeds 50MB limit")]
  /\ upload_toasts
       (uploadDocument (Some {| file_name := lit "setup.exe"; file_size := 62914560 |})
          (fun _ => Rejected (thrown [])) [])
     <> [toast_error
           (lit "File type not supported. Allowed types: pdf, docx, txt, pptx")].
Proof. split; [reflexivity|split; [reflexivity|discriminate]]. Qed.

(* ===================================================================== *)
(** * Batch deletion                                                      *)
(* ===================================================================== *)

(** C8, as the code has it.  The result is a pair of counts, (success,
    failed).  For a list of [n] identifiers that is not empty: when the reply
    reports success without a summary the pair is [(n, 0)]; when it reports
    success with a summary it is the backend's pair (successful_deletions,
    failed_deletions) as it came; when the reply reports no success, or the
    request is rejected, it is [(0, n)].  So the counts add up to [n]
    whenever the backend's summary, if it sends one, does. *)
Theorem batchDeleteDocuments_counts_add_up (ids : list string)
    (api : Settled BatchDeleteReply) (documents : list Document) :
  ids <> [] ->
  (forall reply,
      api = Fulfilled reply -> bd_success reply = true -> bd_summary reply = None ->
      bd_result (batchDeleteDocuments ids api documents)
      = (Z.of_nat (length ids), 0%Z))
  /\ (forall reply successful failed,
      api = Fulfilled reply -> bd_success reply = true ->
      bd_summary reply = Some (successful, failed) ->
      bd_result (batchDeleteDocuments ids api documents) = (successful, failed))
  /\ (forall reply,
      api = Fulfilled reply -> bd_success reply = false ->
      bd_result (batchDeleteDocuments ids api documents)
      = (0%Z, Z.of_nat (length ids)))
  /\ (forall error,
      api = Rejected error ->
      bd_result (batchDeleteDocuments ids api documents)
      = (0%Z, Z.of_nat (length ids)))
  /\ ((forall reply successful failed,
         api = Fulfilled reply -> bd_success reply = true ->
         bd_summary reply = Some (successful, failed) ->
         (successful + failed = Z.of_nat (length ids))%Z) ->
      (fst (bd_result (batchDeleteDocuments ids api documents))
       + snd (bd_result (batchDeleteDocuments ids api documents))
       = Z.of_nat (length ids))%Z).
Proof.
  intros Hids. unfold batchDeleteDocuments.
  destruct ids as [|i ids]; [contradiction|].
  split; [|split; [|split; [|split]]].
  - intros reply -> -> ->. reflexivity.
  - intros reply s f -> -> ->. reflexivity.
  - intros reply -> ->. reflexivity.
  - intros e ->. reflexivity.
  - intros Hsum.
    destruct api as [reply|e]; [|simpl; lia].
    destruct (bd_success reply) eqn:Es; [|simpl; lia].
    destruct (bd_summary reply) as [[s f]|] eqn:E; [|simpl; lia].
    simpl. now apply (Hsum reply).
Qed.

Lemma batchDeleteDocuments_counts_add_up_witness :
  (fst (bd_result (batchDeleteDocuments ["a"; "b"; "c"]
         (Fulfilled {| bd_success := true; bd_summary := Some (2, 1)%Z; bd_error := [] |}) []))
   + snd (bd_result (batchDeleteDocuments ["a"; "b"; "c"]
         (Fulfilled {| bd_success := true; bd_summary := Some (2, 1)%Z; bd_error := [] |}) []))
   = 3)%Z.
Proof.
  refine (proj2 (proj2 (proj2 (proj2
    (batchDeleteDocuments_counts_add_up ["a"; "b"; "c"]
       (Fulfilled {| bd_success := true; bd_summary := Some (2, 1)%Z;
                     bd_error := [] |}) [] _)))) _).
  - discriminate.
  - intros reply s f [= <-] _ [= <- <-]. reflexivity.
Defined.

(** C8, as the specification states it, fails: the counts of a summary are
    passed on as they are, whatever they add up to. *)
Lemma batchDeleteDocuments_summary_passed_on :
  bd_result (batchDeleteDocuments ["a"; "b"]
    (Fulfilled {| bd_success := true; bd_summary := Some (1, 0)%Z; bd_error := [] |}) [])
  = (1, 0)%Z
  /\ (fst (bd_result (batchDeleteDocuments ["a"; "b"]
        (Fulfilled {| bd_success := true; bd_summary := Some (1, 0)%Z; bd_error := [] |}) []))
      + snd (bd_result (batchDeleteDocuments ["a"; "b"]
        (Fulfilled {| bd_success := true; bd_summary := Some (1, 0)%Z; bd_error := [] |}) []))
      <> Z.of_nat (length ["a"; "b"]))%Z.
Proof. split; [reflexivity|discriminate]. Qed.

(* ===================================================================== *)
(** * Statistics                                                          *)
(* ===================================================================== *)

(** ** Doubles *)

Lemma digits2_pos_lower p : (2 ^ (Zpos (digits2_pos p) - 1) <= Zpos p)%Z.
Proof.
  induction p as [p IH|p IH|]; cbn [digits2_pos].
  - rewrite Pos2Z.inj_succ.
    replace (Z.succ (Zpos (digits2_pos p)) - 1)%Z
      with (Z.succ (Zpos (digits2_pos p) - 1)) by lia.
    rewrite Z.pow_succ_r by lia. lia.
  - rewrite Pos2Z.inj_succ.
    replace (Z.succ (Zpos (digits2_pos p)) - 1)%Z
      with (Z.succ (Zpos (digits2_pos p) - 1)) by lia.
    rewrite Z.pow_succ_r by lia. lia.
  - simpl. lia.
Qed.

Lemma digits2_pos_iter_xO p k :
  Zpos (digits2_pos (Pos.iter xO p k)) = (Zpos (digits2_pos p) + Zpos k)%Z.
Proof.
  induction k as [|k IH] using Pos.peano_ind.
  - simpl. lia.
  - rewrite Pos.iter_succ. cbn [digits2_pos]. lia.
Qed.

(** An integer below 2 ^ 53 is a double; if it is positive, the double is
    finite and not zero. *)
Lemma num_of_Z_finite z :
  (0 < z < 2 ^ 53)%Z -> exists m e, num_of_Z z = S754_finite false m e.
Proof.
  intros [H0 H1]. destruct z as [|p|p]; try lia.
  unfold num_of_Z, binary_normalize, binary_round.
  pose proof (digits2_pos_lower p) as Hd.
  assert (Hd53 : (Zpos (digits2_pos p) <= 53)%Z).
  { destruct (Z_le_gt_dec (Zpos (digits2_pos p)) 53) as [|Hgt]; [assumption|].
    exfalso. assert (2 ^ 53 <= 2 ^ (Zpos (digits2_pos p) - 1))%Z
      by (apply Z.pow_le_mono_r; lia). lia. }
  assert (Hf : fexp 53 1024 (Zpos (digits2_pos p) + 0) = (Zpos (digits2_pos p) - 53)%Z).
  { unfold fexp, emin. lia. }
  rewrite Hf. unfold shl_align.
  assert (Haux : forall mz ez, Zpos (digits2_pos mz) = 53%Z -> (- 52 <= ez <= 0)%Z ->
            exists m e, binary_round_aux 53 1024 false (Zpos mz) ez loc_Exact
                        = S754_finite false m e).
  { intros mz ez Hm He. unfold binary_round_aux, shr_fexp.
    cbn [Zdigits2]. rewrite Hm.
    replace (fexp 53 1024 (53 + ez) - ez)%Z with 0%Z by (unfold fexp, emin; lia).
    cbn [shr shr_record_of_loc loc_of_shr_record shr_m round_nearest_even Zdigits2].
    rewrite Hm.
    replace (fexp 53 1024 (53 + ez) - ez)%Z with 0%Z by (unfold fexp, emin; lia).
    cbn [shr shr_record_of_loc shr_m].
    replace (ez <=? 1024 - 53)%Z with true by (symmetry; apply Z.leb_le; lia).
    eauto. }
  destruct (Zpos (digits2_pos p) - 53 - 0)%Z as [|q|q] eqn:E; try lia.
  - apply Haux; lia.
  - apply Haux; [rewrite digits2_pos_iter_xO; lia|lia].
Qed.

Lemma iter_pos_invariant {A} (P : A -> Prop) (f : A -> A) :
  (forall x, P x -> P (f x)) -> forall n x, P x -> P (SpecFloat.iter_pos f n x).
Proof.
  intros Hf. induction n as [n IH|n IH|]; intros x Hx; cbn [SpecFloat.iter_pos]; auto.
Qed.

Lemma shr_1_nonneg mrs : (0 <= shr_m mrs)%Z -> (0 <= shr_m (shr_1 mrs))%Z.
Proof.
  destruct mrs as [m r s]. cbn [shr_m]. intros H.
  destruct m as [|[p|p|]|p]; cbn; lia.
Qed.

Lemma shr_fexp_nonneg m e l :
  (0 <= m)%Z -> (0 <= shr_m (fst (shr_fexp 53 1024 m e l)))%Z.
Proof.
  intros H. unfold shr_fexp, shr.
  assert (H0 : (0 <= shr_m (shr_record_of_loc m l))%Z)
    by (destruct l as [|[]]; exact H).
  destruct (fexp 53 1024 (Zdigits2 m + e) - e)%Z as [|n|n]; cbn [fst]; try exact H0.
  now apply (iter_pos_invariant (fun mrs => (0 <= shr_m mrs)%Z) shr_1 shr_1_nonneg).
Qed.

(** Rounding a quantity that is not negative never gives [NaN]. *)
Lemma binary_round_aux_number s m e l :
  (0 <= m)%Z -> binary_round_aux 53 1024 s m e l <> NaN.
Proof.
  intros H. unfold binary_round_aux.
  pose proof (shr_fexp_nonneg m e l H) as H1.
  destruct (shr_fexp 53 1024 m e l) as [mrs1 e1]. cbn [fst] in H1.
  assert (H2 : (0 <= round_nearest_even (shr_m mrs1) (loc_of_shr_record mrs1))%Z).
  { unfold round_nearest_even. destruct (loc_of_shr_record mrs1) as [|[]];
      try destruct (Z.even _); lia. }
  pose proof (shr_fexp_nonneg _ e1 loc_Exact H2) as H3.
  destruct (shr_fexp 53 1024 _ e1 loc_Exact) as [mrs2 e2]. cbn [fst] in H3.
  destruct (shr_m mrs2) as [|q|q]; [discriminate| |lia].
  destruct (e2 <=? 1024 - 53)%Z; discriminate.
Qed.

Lemma num_of_Z_number z : num_of_Z z <> NaN.
Proof.
  destruct z as [|p|p]; [discriminate|..];
    unfold num_of_Z, binary_normalize, binary_round;
    destruct (shl_align _ _ _) as [mz ez]; now apply binary_round_aux_number.
Qed.

Lemma num_div_number a m e :
  a <> NaN -> (forall s, a <> S754_infinity s) ->
  num_div a (S754_finite false m e) <> NaN.
Proof.
  intros Ha Hi. destruct a as [s|s| |s ma ea].
  - discriminate.
  - now destruct (Hi s).
  - contradiction.
  - unfold num_div, SFdiv, SFdiv_core_binary.
    set (shifted := match (ea - e - _)%Z with
                    | Zpos _ => Z.shiftl (Zpos ma) _
                    | Z0 => Zpos ma
                    | Zneg _ => 0%Z
                    end).
    assert (Hs : (0 <= shifted)%Z).
    { unfold shifted. destruct (ea - e - _)%Z; try lia.
      apply Z.shiftl_nonneg. lia. }
    pose proof (Z_div_mod shifted (Zpos m) eq_refl) as Hq.
    destruct (Z.div_eucl shifted (Zpos m)) as [q r].
    apply binary_round_aux_number. nia.
Qed.

Lemma num_mul_number a m e :
  a <> NaN -> num_mul a (S754_finite false m e) <> NaN.
Proof.
  intros Ha. destruct a as [s|s| |s ma ea]; try discriminate; [contradiction|].
  unfold num_mul, SFmul. apply binary_round_aux_number. lia.
Qed.

Lemma num_round_number a : a <> NaN -> num_round a <> NaN.
Proof.
  intros Ha. destruct a as [s|s| |s m e]; try assumption.
  unfold num_round. destruct (0 <=? e)%Z; [discriminate|].
  destruct (_ =? 0)%Z; [discriminate|apply num_of_Z_number].
Qed.

(** The share of a part in a whole that is not empty, as a percentage, is a
    number. *)
Lemma rounded_share_number (part whole : nat) :
  part <= whole -> 0 < whole -> (Z.of_nat whole < 2 ^ 32)%Z ->
  num_round (num_mul (num_div (num_of_nat part) (num_of_nat whole)) (num_of_nat 100))
  <> NaN.
Proof.
  intros Hle Hpos Hlt.
  assert (H32 : (2 ^ 32 < 2 ^ 53)%Z) by (apply Z.pow_lt_mono_r; lia).
  destruct (num_of_Z_finite (Z.of_nat whole)) as (m & e & Ew); [lia|].
  destruct (num_of_Z_finite 100) as (m' & e' & E100); [lia|].
  unfold num_of_nat. rewrite Ew. change (Z.of_nat 100) with 100%Z. rewrite E100.
  apply num_round_number, num_mul_number, num_div_number.
  - apply num_of_Z_number.
  - intros s. destruct part as [|part]; [discriminate|].
    destruct (num_of_Z_finite (Z.of_nat (S part))) as (mp & ep & ->); [lia|].
    discriminate.
Qed.

Lemma filter_length_le {A} (f : A -> bool) (l : list A) :
  length (List.filter f l) <= length l.
Proof.
  induction l as [|x l IH]; simpl; [lia|]. destruct (f x); simpl; lia.
Qed.

Example getTopicStats_two :
  getTopicStats [ {| topic_id := "t1"; topic_category := Some (lit "law");
                     topic_content_count := Some (num_of_Z 3) |};
                  {| topic_id := "t2"; topic_category := None;
                     topic_content_count := None |} ]
  = {| ts_total := 2; ts_withContent := 1; ts_categories := 2;
       ts_avgContent := num_div (num_of_Z 3) (num_of_Z 2);
       ts_contentCoverage := num_of_Z 50 |}.
Proof. vm_compute. reflexivity. Qed.

(** The arithmetic is that of doubles: of 40 documents 23 are processed,
    [(23 / 40) * 100] is 57.49999999999999 and the success rate is 57. *)
Example getDocumentStats_23_of_40 :
  ds_successRate
    (getDocumentStats (repeat (a_pdf st_processed) 23 ++ repeat (a_pdf st_uploaded) 17))
  = num_of_Z 57.
Proof. vm_compute. reflexivity. Qed.

(** A sum of counts that exceeds the largest double is an infinity. *)
Example getTopicStats_overflow :
  ts_avgContent
    (getTopicStats [ {| topic_id := "t1"; topic_category := None;
                        topic_content_count := Some (num_of_Z (10 ^ 307)) |} ])
  = S754_infinity false.
Proof. vm_compute. reflexivity. Qed.

(** C10.  On the empty list [getTopicStats] gives the statistics that are
    all zero, and [getDocumentStats] a success rate of zero.  The divisor of
    the coverage and of the success rate is the length of the list, which as
    a number is finite and not zero when the list is not empty (an array has
    less than 2 ^ 32 elements); so on every list the coverage and the success
    rate are numbers, never the [NaN] that a division of zero by zero gives. *)
Theorem stats_total_on_empty :
  getTopicStats []
  = {| ts_total := 0; ts_withContent := 0; ts_categories := 0;
       ts_avgContent := zero; ts_contentCoverage := zero |}
  /\ ds_successRate (getDocumentStats []) = zero
  /\ (forall n : nat,
         0 < n -> (Z.of_nat n < 2 ^ 32)%Z ->
         exists m e, num_of_nat n = S754_finite false m e)
  /\ (forall topics,
         (Z.of_nat (length topics) < 2 ^ 32)%Z ->
         ts_contentCoverage (getTopicStats topics) <> NaN)
  /\ (forall documents,
         (Z.of_nat (length documents) < 2 ^ 32)%Z ->
         ds_successRate (getDocumentStats documents) <> NaN).
Proof.
  assert (H32 : (2 ^ 32 < 2 ^ 53)%Z) by (apply Z.pow_lt_mono_r; lia).
  split; [reflexivity|]. split; [reflexivity|]. split; [|split].
  - intros n Hn Hlt. apply num_of_Z_finite. lia.
  - intros topics Hlt. unfold getTopicStats.
    destruct (length topics =? 0) eqn:E; [discriminate|].
    apply Nat.eqb_neq in E. cbn [ts_contentCoverage].
    apply rounded_share_number; [apply filter_length_le|lia|exact Hlt].
  - intros documents Hlt. unfold getDocumentStats. cbn [ds_successRate].
    destruct (0 <? length documents) eqn:E; [|discriminate].
    apply Nat.ltb_lt in E.
    apply rounded_share_number; [apply filter_length_le|exact E|exact Hlt].
Qed.

Lemma stats_total_on_empty_witness :
  ds_successRate (getDocumentStats [a_pdf st_processed; a_pdf st_error]) <> NaN.
Proof.
  apply (proj2 (proj2 (proj2 (proj2 stats_total_on_empty)))).
  vm_compute. reflexivity.
Defined.

(* ===================================================================== *)
(** * The retry helper                                                    *)
(* ===================================================================== *)

Lemma client_error_4xx e status :
  err_status e = Some status -> (400 <= status < 500)%Z -> client_error e = true.
Proof.
  unfold client_error. intros -> H.
  replace (status =? 0)%Z with false by (symmetry; apply Z.eqb_neq; lia).
  replace (400 <=? status)%Z with true by (symmetry; apply Z.leb_le; lia).
  replace (status <? 500)%Z with true by (symmetry; apply Z.ltb_lt; lia).
  reflexivity.
Qed.

Lemma client_error_5xx e status :
  err_status e = Some status -> (500 <= status)%Z -> client_error e = false.
Proof.
  unfold client_error. intros -> H.
  replace (status <? 500)%Z with false by (symmetry; apply Z.ltb_ge; lia).
  apply andb_false_r.
Qed.

Lemma client_error_network e : err_status e = None -> client_error e = false.
Proof. unfold client_error. now intros ->. Qed.

Section RetryLoop.

Context {T : Type} (apiCall : nat -> Settled T) (baseDelay : Z).

(** [k] retried failures in a row cost [k] invocations and [k] delays. *)
Lemma retry_from_retried k :
  forall remaining attempt,
    k <= remaining ->
    (forall j, j < k -> retried apiCall (attempt + j)) ->
    retry_from apiCall baseDelay remaining attempt
    = let rest := retry_from apiCall baseDelay (remaining - k) (attempt + k) in
      {| run_settled := run_settled rest;
         run_calls := k + run_calls rest;
         run_delays :=
           List.map (fun a => (baseDelay * 2 ^ Z.of_nat a)%Z) (seq attempt k)
           ++ run_delays rest |}.
Proof.
  induction k as [|k IH]; intros remaining attempt Hk Hfail; cbv zeta.
  - rewrite Nat.sub_0_r, Nat.add_0_r. simpl. now destruct (retry_from _ _ _ _).
  - destruct remaining as [|remaining]; [lia|].
    destruct (Hfail 0 ltac:(lia)) as (e & He & Hc). rewrite Nat.add_0_r in He.
    simpl retry_from at 1. rewrite He, Hc.
    rewrite (IH remaining (S attempt)) by
      (try lia; intros j Hj; replace (S attempt + j) with (attempt + S j) by lia;
       apply Hfail; lia).
    cbv zeta. simpl.
    replace (attempt + S k) with (S (attempt + k)) by lia. reflexivity.
Qed.

Lemma retry_from_last attempt e :
  apiCall attempt = Rejected e ->
  retry_from apiCall baseDelay 0 attempt
  = {| run_settled := Rejected e; run_calls := 1; run_delays := [] |}.
Proof. simpl. now intros ->. Qed.

Lemma retry_from_client_error remaining attempt e :
  apiCall attempt = Rejected e -> client_error e = true ->
  retry_from apiCall baseDelay remaining attempt
  = {| run_settled := Rejected e; run_calls := 1; run_delays := [] |}.
Proof. destruct remaining; simpl; intros -> Hc; [reflexivity|now rewrite Hc]. Qed.

Lemma retry_from_fulfilled remaining attempt v :
  apiCall attempt = Fulfilled v ->
  retry_from apiCall baseDelay remaining attempt
  = {| run_settled := Fulfilled v; run_calls := 1; run_delays := [] |}.
Proof. destruct remaining; simpl; now intros ->. Qed.

(** The loop never invokes [apiCall] more than [remaining + 1] times, and
    waits once between two invocations. *)
Lemma retry_from_calls remaining :
  forall attempt,
    1 <= run_calls (retry_from apiCall baseDelay remaining attempt) <= S remaining
    /\ length (run_delays (retry_from apiCall baseDelay remaining attempt))
       = pred (run_calls (retry_from apiCall baseDelay remaining attempt)).
Proof.
  induction remaining as [|remaining IH]; intros attempt; simpl.
  - destruct (apiCall attempt); simpl; lia.
  - destruct (apiCall attempt) as [v|e]; simpl; [lia|].
    destruct (client_error e); simpl; [lia|].
    specialize (IH (S attempt)). lia.
Qed.

End RetryLoop.

(** C9.  An attempt that fails with a client error (a status from 400 to
    499) is the last one: its error is rethrown and [apiCall] is not invoked
    again.  Failures of any other kind, server errors and missing responses
    among them, are retried; the delay before the retry of attempt [a] is
    [baseDelay * 2 ^ a], so it doubles each time; after [maxRetries + 1]
    failed attempts the error of the last one is rethrown.  A fulfilled
    attempt ends the loop with its value.  No run makes more than
    [maxRetries + 1] attempts. *)
Theorem retryApiCall_policy {T} (apiCall : nat -> Settled T) (maxRetries : nat)
    (baseDelay : Z) :
  (forall k e,
      k <= maxRetries -> (forall j, j < k -> retried apiCall j) ->
      apiCall k = Rejected e -> client_error e = true ->
      retryApiCall apiCall maxRetries baseDelay
      = {| run_settled := Rejected e; run_calls := S k;
           run_delays := backoff baseDelay k |})
  /\ (forall e,
         (forall j, j < maxRetries -> retried apiCall j) ->
         apiCall maxRetries = Rejected e ->
         retryApiCall apiCall maxRetries baseDelay
         = {| run_settled := Rejected e; run_calls := S maxRetries;
              run_delays := backoff baseDelay maxRetries |})
  /\ (forall k v,
         k <= maxRetries -> (forall j, j < k -> retried apiCall j) ->
         apiCall k = Fulfilled v ->
         retryApiCall apiCall maxRetries baseDelay
         = {| run_settled := Fulfilled v; run_calls := S k;
              run_delays := backoff baseDelay k |})
  /\ run_calls (retryApiCall apiCall maxRetries baseDelay) <= S maxRetries
  /\ (forall k, backoff baseDelay (S k)
                = backoff baseDelay k ++ [(baseDelay * 2 ^ Z.of_nat k)%Z])
  /\ (forall e status, err_status e = Some status -> (400 <= status < 500)%Z ->
                       client_error e = true)
  /\ (forall e status, err_status e = Some status -> (500 <= status)%Z ->
                       client_error e = false)
  /\ (forall e, err_status e = None -> client_error e = false).
Proof.
  unfold retryApiCall, backoff. repeat apply conj.
  - intros k e Hk Hfail He Hc.
    rewrite (retry_from_retried apiCall baseDelay k) by (simpl; auto).
    cbv zeta. simpl (0 + k).
    rewrite (retry_from_client_error _ _ _ _ _ He Hc). simpl.
    now rewrite app_nil_r, Nat.add_1_r.
  - intros e Hfail He.
    rewrite (retry_from_retried apiCall baseDelay maxRetries) by (simpl; auto).
    cbv zeta. simpl (0 + maxRetries). rewrite Nat.sub_diag.
    rewrite (retry_from_last _ _ _ _ He). simpl.
    now rewrite app_nil_r, Nat.add_1_r.
  - intros k v Hk Hfail Hv.
    rewrite (retry_from_retried apiCall baseDelay k) by (simpl; auto).
    cbv zeta. simpl (0 + k).
    rewrite (retry_from_fulfilled _ _ _ _ _ Hv). simpl.
    now rewrite app_nil_r, Nat.add_1_r.
  - apply retry_from_calls.
  - intros k. now rewrite seq_S, map_app.
  - exact client_error_4xx.
  - exact client_error_5xx.
  - exact client_error_network.
Qed.

Lemma retryApiCall_policy_witness :
  retryApiCall
    (fun n => match n with
              | 0 => Rejected {| err_status := Some 503%Z; err_data_message := [];
                                 err_message := lit "unavailable" |}
              | 1 => Rejected {| err_status := None; err_data_message := [];
                                 err_message := lit "Network Error" |}
              | _ => Rejected {| err_status := Some 404%Z; err_data_message := [];
                                 err_message := lit "not found" |}
              end : Settled unit)
    3 1000
  = {| run_settled := Rejected {| err_status := Some 404%Z; err_data_message := [];
                                  err_message := lit "not found" |};
       run_calls := 3;
       run_delays := [1000; 2000]%Z |}.
Proof.
  apply (proj1 (retryApiCall_policy _ 3 1000%Z) 2).
  - lia.
  - intros [|[|j]] Hj; [| |lia]; eexists; split; reflexivity.
  - reflexivity.
  - reflexivity.
Defined.

(* ===================================================================== *)
(** * The document status poller                                          *)
(* ===================================================================== *)

(** ** What [stopPolling] does when its render knows the handle *)

(** The branches of [stopPolling]. *)
Ltac stopPolling_cases r documentId isReprocessing :=
  unfold stopPolling;
  destruct (pollingIntervals r !! documentId) as [?|];
  [match goal with |- context [if ?h =? 0 then _ else _] => destruct (h =? 0) end|];
  (let d := fresh "d" in
   destruct (find_document documentId (documents r)) as [d|];
   [destruct (doc_status d)|]);
  destruct isReprocessing.


Lemma stopPolling_mounted r documentId isReprocessing w :
  is_mounted (stopPolling r documentId isReprocessing w) = is_mounted w.
Proof.
  stopPolling_cases r documentId isReprocessing; reflexivity.
Qed.

Lemma stopPolling_cancels r documentId isReprocessing w h :
  is_mounted w = true ->
  pollingIntervals r !! documentId = Some h -> h <> 0 ->
  stopped documentId h isReprocessing (stopPolling r documentId isReprocessing w).
Proof.
  intros Hm Hh Hne. unfold stopped, stopPolling. rewrite Hh.
  destruct (h =? 0) eqn:E; [apply Nat.eqb_eq in E; lia|].
  assert (Hout : forall s : gset string, documentId ∉ s ∖ {[documentId]})
    by (intros s; rewrite elem_of_difference, elem_of_singleton; tauto).
  destruct (find_document documentId (documents r)) as [d|];
    [destruct (doc_status d)|]; destruct isReprocessing; cbn;
    rewrite Hm; cbn; rewrite ?lookup_delete_eq; auto.
Qed.

(** [stopPolling] only ever cancels and removes. *)
Lemma stopPolling_keeps_stopped r documentId' isReprocessing' documentId h isReprocessing w :
  stopped documentId h isReprocessing w ->
  stopped documentId h isReprocessing (stopPolling r documentId' isReprocessing' w).
Proof.
  unfold stopped. intros (Hi & Hp & Ht & Hs).
  assert (Hless : forall s : gset string, documentId ∉ s -> documentId ∉ s ∖ {[documentId']})
    by (intros s; rewrite elem_of_difference; tauto).
  stopPolling_cases r documentId' isReprocessing'; destruct isReprocessing; cbn;
    destruct (is_mounted w); cbn; rewrite ?lookup_delete_None; auto 6.
Qed.

(** The status effect stops the poll of every document it finds in a
    terminal state and in an in-flight set, if its render knows the handle. *)
Lemma statusEffect_stops r w d h :
  is_mounted w = true ->
  d ∈ documents r -> terminal d = true ->
  doc_id d ∈ processing r \/ doc_id d ∈ reprocessing r ->
  pollingIntervals r !! doc_id d = Some h -> h <> 0 ->
  stopped (doc_id d) h (bool_decide (doc_id d ∈ reprocessing r)) (statusEffect r w).
Proof.
  intros Hm Hd Hterm Hin Hh Hne. unfold statusEffect.
  generalize (documents r) w Hm Hd. clear w Hm Hd.
  assert (Hgo : forall l w,
             stopped (doc_id d) h (bool_decide (doc_id d ∈ reprocessing r)) w
             \/ (d ∈ l /\ is_mounted w = true) ->
             stopped (doc_id d) h (bool_decide (doc_id d ∈ reprocessing r))
               (fold_left (fun w document =>
                  if (bool_decide (doc_id document ∈ processing r)
                      || bool_decide (doc_id document ∈ reprocessing r))
                     && terminal document
                  then stopPolling r (doc_id document)
                         (bool_decide (doc_id document ∈ reprocessing r)) w
                  else w) l w)).
  { induction l as [|x l IH]; intros w [H|[H Hm]]; simpl.
    - exact H.
    - now apply elem_of_nil in H.
    - apply IH. left. destruct (_ && _); [now apply stopPolling_keeps_stopped|exact H].
    - apply elem_of_cons in H as [<-|H].
      + apply IH. left. rewrite Hterm, andb_true_r.
        replace (_ || _) with true; [now apply stopPolling_cancels|].
        symmetry. apply orb_true_iff.
        destruct Hin as [Hin|Hin]; [left|right]; now apply bool_decide_eq_true_2.
      + apply IH. right. split; [exact H|].
        destruct (_ && _); [now rewrite stopPolling_mounted|exact Hm]. }
  intros l w Hm Hd. apply Hgo. now right.
Qed.

Lemma stopPolling_toast r documentId isReprocessing w d :
  find_document documentId (documents r) = Some d ->
  toasts (stopPolling r documentId isReprocessing w)
  = toasts w ++
    match doc_status d with
    | st_processed =>
        [toast_success (operation_name isReprocessing ++ lit " completed: "
                          ++ doc_filename d)]
    | st_error =>
        [toast_error (operation_name isReprocessing ++ lit " failed: "
                        ++ doc_filename d)]
    | _ => []
    end.
Proof.
  intros Hd. unfold stopPolling. rewrite Hd.
  destruct (pollingIntervals r !! documentId) as [h|]; [destruct (h =? 0)|];
    destruct (doc_status d), isReprocessing; cbn; now rewrite ?app_nil_r.
Qed.

(** ** What [startPolling] does to an interval that is already there *)

Lemma startPolling_keeps_intervals r documentId isReprocessing w h c :
  is_mounted w = true ->
  intervals w !! h = Some c -> h < next_handle w ->
  intervals (startPolling r documentId isReprocessing w) !! h = Some c
  /\ intervals (startPolling r documentId isReprocessing w) !! next_handle w
     = Some {| poll_documentId := documentId;
               poll_isReprocessing := isReprocessing; poll_render := r |}
  /\ pollingIntervals (current (startPolling r documentId isReprocessing w))
       !! documentId = Some (next_handle w).
Proof.
  intros Hm Hc Hlt. unfold startPolling. cbn. rewrite Hm.
  rewrite lookup_insert_ne by lia. rewrite !lookup_insert_eq. cbn.
  rewrite lookup_insert_eq. auto.
Qed.

(** ** Unmounting *)

Lemma clearInterval_fold_gone (l : list (string * nat)) w h :
  intervals w !! h = None ->
  intervals (fold_left (fun w entry => clearInterval (snd entry) w) l w) !! h = None.
Proof.
  revert w. induction l as [|[k x] l IH]; intros w H; simpl; [exact H|].
  apply IH. cbn. rewrite lookup_delete. now destruct (decide (x = h)).
Qed.

Lemma clearInterval_fold (l : list (string * nat)) w k h :
  (k, h) ∈ l ->
  intervals (fold_left (fun w entry => clearInterval (snd entry) w) l w) !! h = None.
Proof.
  revert w. induction l as [|[k' x] l IH]; intros w H; simpl.
  - now apply elem_of_nil in H.
  - apply elem_of_cons in H as [[= <- <-]|H].
    + apply clearInterval_fold_gone. cbn. apply lookup_delete_eq.
    + now apply IH.
Qed.

(** Every interval in the registry of the render on screen is cancelled. *)
Lemma unmount_clears_registry w documentId h :
  pollingIntervals (committed w) !! documentId = Some h ->
  intervals (unmount w) !! h = None.
Proof.
  intros H. unfold unmount, cleanupIntervals. cbn [intervals].
  apply (clearInterval_fold _ _ documentId). now apply elem_of_map_to_list.
Qed.

(** ** The initial processing of a document: the poller stops *)

Example process_run_stops :
  polls (run (take 5 process_run) (mounted [a_pdf st_uploaded])) 1 "d1"
  /\ intervals (run process_run (mounted [a_pdf st_uploaded])) = ∅
  /\ current (run process_run (mounted [a_pdf st_uploaded]))
     = emptyRender [a_pdf st_processed]
  /\ toasts (run process_run (mounted [a_pdf st_uploaded]))
     = [toast_success (lit "Document processing started");
        toast_success (lit "Processing completed: a.pdf")]
  /\ refreshes (run (process_run ++ [Tick 1]) (mounted [a_pdf st_uploaded]))
     = refreshes (run process_run (mounted [a_pdf st_uploaded])).
Proof. vm_compute. repeat split. Qed.

(** ** C4 *)

(** C4, on the code.  The document [a.pdf] is processed and is reprocessed.
    The status effect runs right after the click, finds the document in the
    reprocessing set with its old terminal status, and announces the
    completion before the request has settled.  The interval started
    afterwards reads the documents and the registry of the render of the
    click: every tick announces the completion again, and none cancels the
    interval.  When the refreshed documents report "processed", nothing
    stops the poller: the interval is live and registered, it polls on the
    next tick, and it goes on after that. *)
Theorem reprocess_poll_never_stops :
  toasts (run (take 1 reprocess_run) (mounted [a_pdf st_processed]))
  = [completed_toast]
  /\ documents (current (run reprocess_run (mounted [a_pdf st_processed])))
     = [a_pdf st_processed]
  /\ settled (run reprocess_run (mounted [a_pdf st_processed])) = true
  /\ polls (run reprocess_run (mounted [a_pdf st_processed])) 1 "d1"
  /\ pollingIntervals (current (run reprocess_run (mounted [a_pdf st_processed])))
     = {[ "d1" := 1 ]}
  /\ toasts (run reprocess_run (mounted [a_pdf st_processed]))
     = [completed_toast;
        toast_success (lit "Document reprocessing started");
        completed_toast; completed_toast]
  /\ refreshes (run (reprocess_run ++ [Tick 1]) (mounted [a_pdf st_processed]))
     = S (refreshes (run reprocess_run (mounted [a_pdf st_processed])))
  /\ polls (run (reprocess_run ++ [Tick 1; Tick 1; Tick 1])
              (mounted [a_pdf st_processed])) 1 "d1".
Proof. vm_compute. repeat split. Qed.

(** Teardown.  Unmounting cancels the intervals of the registry on screen;
    an interval started by a request that settles after the unmount is in
    no registry and polls on. *)
Example poll_after_unmount :
  intervals (run (reprocess_run ++ [Unmount]) (mounted [a_pdf st_processed])) = ∅
  /\ polls (run [ClickProcess "d1" 0; Unmount;
                 ProcessSettled (emptyRender [a_pdf st_uploaded]) "d1" (Fulfilled started);
                 Tick 1; Tick 1]
              (mounted [a_pdf st_uploaded])) 1 "d1"
  /\ refreshes (run [ClickProcess "d1" 0; Unmount;
                     ProcessSettled (emptyRender [a_pdf st_uploaded]) "d1" (Fulfilled started);
                     Tick 1; Tick 1]
                  (mounted [a_pdf st_uploaded])) = 2.
Proof. vm_compute. repeat split. Qed.

(** ** C5 *)

(** What happens on the way from the specification's case to the render:
    [a.pdf] is polled by the interval 1 when its processing is started
    again and the request settles.  [startPolling] starts the interval 2
    and puts it in the registry in the place of 1, which it does not cancel;
    the render that follows cancels 1. *)
Example restart_replaced_at_render :
  pollingIntervals (current restarted) = {[ "d1" := 1 ]}
  /\ dom (intervals restarted) = ({[ 1 ]} : gset nat)
  /\ polls (processDocument_settled restart_render "d1" (Fulfilled started) restarted)
           1 "d1"
  /\ polls (processDocument_settled restart_render "d1" (Fulfilled started) restarted)
           2 "d1"
  /\ pollingIntervals
       (current (processDocument_settled restart_render "d1" (Fulfilled started)
                   restarted))
     = {[ "d1" := 2 ]}
  /\ dom (intervals
            (settle 8 (processDocument_settled restart_render "d1"
                         (Fulfilled started) restarted)))
     = ({[ 2 ]} : gset nat).
Proof. vm_compute. repeat split. Qed.

(* ===================================================================== *)
(** * Further properties of the sanitiser and of the chat hook            *)
(* ===================================================================== *)

(** X1.  Whatever the input, the sanitised text has no white space at
    either end and is not longer than the input. *)
Theorem cleanResponseContent_trimmed_and_shorter (s : jsstring) :
  trimmed (cleanResponseContent s)
  /\ length (cleanResponseContent s) <= length s.
Proof.
  split; [apply trimmed_cleanResponseContent|apply cleanResponseContent_length].
Qed.

(** X2.  The texts that the sanitiser leaves as they are, are exactly the
    trimmed texts without a think span and without a [reasoning] or
    [final_answer] token. *)
Theorem cleanResponseContent_fixed_points (t : jsstring) :
  cleanResponseContent t = t <-> trimmed t /\ markup_free t = true.
Proof.
  split.
  - intros E. split; [|now apply fixed_markup_free].
    rewrite <- E. apply trimmed_cleanResponseContent.
  - intros [Ht Hm]. now apply markup_free_fixed.
Qed.

Lemma cleanResponseContent_fixed_points_witness :
  cleanResponseContent (lit "a < b") = lit "a < b".
Proof.
  apply (proj2 (cleanResponseContent_fixed_points (lit "a < b"))).
  split; [split; reflexivity|reflexivity].
Defined.

Lemma cleanResponseContent_value_string v s :
  cleanResponseContent_value v = Ret s -> s <> [] ->
  exists text, v = JString text /\ s = cleanResponseContent text.
Proof.
  unfold cleanResponseContent_value.
  destruct (truthy v) eqn:Ht; simpl; [|intros [= <-] H; congruence].
  destruct v; try discriminate. intros [= <-] _. eauto.
Qed.

Lemma assistantMessage_of_inv (api : Result JSValue) (now : Z) (m : ChatMessage) :
  assistantMessage_of api now = Ret m ->
  exists response queryData text,
    api = Ret response
    /\ extractQueryData response = Ret (Some queryData)
    /\ opt_member queryData "response" = JString text
    /\ msg_content m = cleanResponseContent text
    /\ msg_content m <> [].
Proof.
  unfold assistantMessage_of, mbind, Result_bind.
  destruct api as [response|e]; [|discriminate].
  destruct (extractQueryData response) as [[queryData|]|e] eqn:Ex; try discriminate.
  destruct (cleanResponseContent_value _) as [[|c cleaned]|e] eqn:Ec; try discriminate.
  destruct (extractProcessingStats_completes _) as [[]|e]; try discriminate.
  destruct (spread _) as [matched|e]; try discriminate.
  destruct (spread _) as [related|e]; try discriminate.
  intros [= <-]. simpl.
  destruct (cleanResponseContent_value_string _ _ Ec) as (text & Hv & Hs);
    [discriminate|].
  exists response, queryData, text. repeat split; try assumption; discriminate.
Qed.

(** X3.  When [sendMessage] shows an answer, the backend reply had one of the
    three shapes, the [response] of its payload was a string, and the bubble
    holds the sanitised form of that string, which is not empty. *)
Theorem assistantMessage_is_sanitised_response (api : Result JSValue) (now : Z)
    (m : ChatMessage) :
  assistantMessage_of api now = Ret m ->
  exists response queryData text,
    api = Ret response
    /\ extractQueryData response = Ret (Some queryData)
    /\ opt_member queryData "response" = JString text
    /\ msg_content m = cleanResponseContent text
    /\ msg_content m <> [].
Proof. apply assistantMessage_of_inv. Qed.

Lemma assistantMessage_is_sanitised_response_witness :
  exists response queryData text,
    Ret (JObject [("response", JString (lit "<think>x</think> 42 "))]) = Ret response
    /\ extractQueryData response = Ret (Some queryData)
    /\ opt_member queryData "response" = JString text
    /\ msg_content
         {| msg_id := "8"; msg_type := assistant; msg_content := lit "42";
            msg_timestamp := 7; msg_topics := JArray [];
            msg_sources := JArray []; msg_rating := None;
            msg_queryId := JUndefined; msg_reasoning := JString [];
            msg_topicAnalyses := JArray []; msg_processingTime := JNumber 0 |}
       = cleanResponseContent text
    /\ msg_content
         {| msg_id := "8"; msg_type := assistant; msg_content := lit "42";
            msg_timestamp := 7; msg_topics := JArray [];
            msg_sources := JArray []; msg_rating := None;
            msg_queryId := JUndefined; msg_reasoning := JString [];
            msg_topicAnalyses := JArray []; msg_processingTime := JNumber 0 |}
       <> [].
Proof.
  apply (assistantMessage_is_sanitised_response
           (Ret (JObject [("response", JString (lit "<think>x</think> 42 "))])) 7).
  vm_compute. reflexivity.
Defined.

(** X4.  [sendMessage] never adds an empty bubble: each message it appends
    has text, be it the user's trimmed input, the answer or the apology. *)
Theorem sendMessage_never_adds_empty (content : jsstring) (isLoading : bool)
    (now1 now2 : Z) (api : Result JSValue) (prev : list ChatMessage) :
  exists added,
    fst (sendMessage content isLoading now1 now2 api prev) = prev ++ added
    /\ Forall (fun m => msg_content m <> []) added.
Proof.
  unfold sendMessage, sendMessage_accepts.
  destruct (trim content) as [|c t] eqn:Et; simpl.
  - exists []. now rewrite app_nil_r.
  - destruct isLoading; simpl; [exists []; now rewrite app_nil_r|].
    unfold sendMessage_settle, sendMessage_start. rewrite Et.
    destruct (assistantMessage_of api now2) as [m|e] eqn:E; simpl.
    + destruct (assistantMessage_of_inv _ _ _ E)
        as (_ & _ & _ & _ & _ & _ & _ & Hne).
      eexists. rewrite <- app_assoc. split; [reflexivity|].
      repeat constructor; [discriminate|exact Hne].
    + eexists. rewrite <- app_assoc. split; [reflexivity|].
      repeat constructor; discriminate.
Qed.

(** X5.  Rating a message that has no stored query identifier (a user
    message, an assistant message without one, or an unknown identifier)
    does not depend on the rating endpoint: the rating is set on every
    message with that identifier, and the other messages stay as they are. *)
Theorem rateMessage_without_queryId (messages : list ChatMessage)
    (messageId : string) (rating : Z) (api : Result bool)
    (prev : list ChatMessage) :
  (forall message,
      List.find (fun msg => String.eqb (msg_id msg) messageId) messages = Some message ->
      msg_type message = user \/ truthy (msg_queryId message) = false) ->
  length (rateMessage messages messageId rating api prev) = length prev
  /\ forall i m,
       prev !! i = Some m ->
       rateMessage messages messageId rating api prev !! i
       = Some (if String.eqb (msg_id m) messageId then set_rating rating m else m).
Proof.
  intros H.
  assert (E : rateMessage messages messageId rating api prev
              = rate_locally messageId rating prev).
  { unfold rateMessage.
    destruct (List.find _ messages) as [message|]; [|reflexivity].
    destruct (H message eq_refl) as [-> | ->]; [reflexivity|].
    now rewrite andb_false_r. }
  rewrite E. split.
  - unfold rate_locally. apply length_map.
  - intros i m. apply rate_locally_lookup.
Qed.

Lemma rateMessage_without_queryId_witness :
  length (rateMessage [blank_message "7" assistant (lit "hello") 7] "7" 4
            (Throw "unused") [blank_message "7" assistant (lit "hello") 7])
  = length [blank_message "7" assistant (lit "hello") 7]
  /\ forall i m,
       [blank_message "7" assistant (lit "hello") 7] !! i = Some m ->
       rateMessage [blank_message "7" assistant (lit "hello") 7] "7" 4
         (Throw "unused") [blank_message "7" assistant (lit "hello") 7] !! i
       = Some (if String.eqb (msg_id m) "7" then set_rating 4 m else m).
Proof.
  apply (rateMessage_without_queryId [blank_message "7" assistant (lit "hello") 7]).
  intros message [= <-]. right. reflexivity.
Defined.

(** X6.  For an assistant message with a query identifier the rating is
    stored only if the endpoint confirms it: when the submission is rejected
    or reports no success, the message list stays exactly as it was. *)
Theorem rateMessage_failed_submission (messages : list ChatMessage)
    (messageId : string) (rating : Z) (api : Result bool)
    (prev : list ChatMessage) (message : ChatMessage) :
  List.find (fun msg => String.eqb (msg_id msg) messageId) messages = Some message ->
  msg_type message = assistant -> truthy (msg_queryId message) = true ->
  api <> Ret true ->
  rateMessage messages messageId rating api prev = prev.
Proof.
  intros Hf Ht Hq Hapi. unfold rateMessage. rewrite Hf, Ht, Hq. simpl.
  destruct api as [[|]|]; congruence.
Qed.

Lemma rateMessage_failed_submission_witness :
  rateMessage
    [set_rating 2 {| msg_id := "7"; msg_type := assistant; msg_content := lit "hello";
       msg_timestamp := 7; msg_topics := JUndefined; msg_sources := JUndefined;
       msg_rating := None; msg_queryId := JString (lit "q1");
       msg_reasoning := JUndefined; msg_topicAnalyses := JUndefined;
       msg_processingTime := JUndefined |}]
    "7" 5 (Ret false)
    [blank_message "7" assistant (lit "hello") 7]
  = [blank_message "7" assistant (lit "hello") 7].
Proof.
  eapply rateMessage_failed_submission;
    [reflexivity|reflexivity|reflexivity|discriminate].
Defined.

Lemma findIndex_none {A} (p : A -> bool) (l : list A) :
  (forall x, In x l -> p x = false) -> findIndex p l = None.
Proof.
  induction l as [|a l IH]; intros H; simpl; [reflexivity|].
  rewrite (H a) by now left. rewrite IH; [reflexivity|].
  intros x Hx. apply H. now right.
Qed.

Lemma findIndex_app {A} (p : A -> bool) (pre : list A) x rest :
  (forall y, In y pre -> p y = false) -> p x = true ->
  findIndex p (pre ++ x :: rest) = Some (length pre).
Proof.
  induction pre as [|a pre IH]; intros H Hx; simpl.
  - now rewrite Hx.
  - rewrite (H a) by now left. rewrite IH; [reflexivity| |exact Hx].
    intros y Hy. apply H. now right.
Qed.

(** X7.  [regenerateResponse] looks for the message right before the first
    one with the given identifier.  Nothing happens (the list is unchanged
    and the result is [null]) when no message has the identifier, when the
    first one that has it opens the list, or when the message before it is
    no user message.  Otherwise the messages with the identifier are taken
    out and the text of the user message before, with the options appended,
    is sent again. *)
Theorem regenerateResponse_cases (messageId : string) (options : RegenerateOptions)
    (isLoading : bool) (now1 now2 : Z) (api : Result JSValue)
    (prev : list ChatMessage) :
  (forall messages,
      (forall m, In m messages -> msg_id m <> messageId) ->
      regenerateResponse messages messageId options isLoading now1 now2 api prev
      = (prev, None))
  /\ (forall m rest,
         msg_id m = messageId ->
         regenerateResponse (m :: rest) messageId options isLoading now1 now2 api prev
         = (prev, None))
  /\ (forall pre u m rest,
         (forall x, In x (pre ++ [u]) -> msg_id x <> messageId) ->
         msg_id m = messageId ->
         regenerateResponse (pre ++ u :: m :: rest) messageId options isLoading
           now1 now2 api prev
         = match msg_type u with
           | assistant => (prev, None)
           | user =>
               sendMessage (modifiedQuery (msg_content u) options) isLoading
                 now1 now2 api (removeMessage messageId prev)
           end).
Proof.
  repeat apply conj.
  - intros messages H. unfold regenerateResponse, original_query.
    rewrite findIndex_none; [reflexivity|].
    intros x Hx. apply String.eqb_neq. now apply H.
  - intros m rest Hm. unfold regenerateResponse, original_query. simpl.
    apply String.eqb_eq in Hm. now rewrite Hm.
  - intros pre u m rest H Hm. unfold regenerateResponse, original_query.
    replace (pre ++ u :: m :: rest) with ((pre ++ [u]) ++ m :: rest)
      by now rewrite <- app_assoc.
    rewrite findIndex_app;
      [|intros y Hy; apply String.eqb_neq; now apply H|now apply String.eqb_eq].
    rewrite length_app, Nat.add_1_r.
    rewrite <- app_assoc. simpl.
    rewrite list_lookup_middle by reflexivity.
    now destruct (msg_type u).
Qed.

Lemma regenerateResponse_cases_witness :
  regenerateResponse
    [blank_message "1" assistant (lit "welcome") 1;
     blank_message "2" assistant (lit "more") 2]
    "2" {| focusTopics := []; excludeTopics := []; detailLevel := None |}
    false 10 20 (Throw "unused") [blank_message "2" assistant (lit "more") 2]
  = ([blank_message "2" assistant (lit "more") 2], None).
Proof.
  apply (proj2 (proj2 (regenerateResponse_cases "2"
           {| focusTopics := []; excludeTopics := []; detailLevel := None |}
           false 10 20 (Throw "unused") [blank_message "2" assistant (lit "more") 2]))
           [] (blank_message "1" assistant (lit "welcome") 1)
           (blank_message "2" assistant (lit "more") 2) []).
  - intros x [<-|[]]. discriminate.
  - reflexivity.
Defined.

(* ===================================================================== *)
(** * Further properties of the documents hook                            *)
(* ===================================================================== *)

(** X8.  A call of [uploadDocument] sends one request if the file passes
    both tests and none otherwise, and raises exactly one toast.  The
    document list changes only when a document is returned, which is then
    put in front of it. *)
Theorem uploadDocument_one_request_one_toast (file : File)
    (api : File -> Settled UploadReply) (documents : list Document) :
  upload_requests (uploadDocument (Some file) api documents)
  = (if (file_size file <=? maxSize)%Z && extension_allowed file then [file] else [])
  /\ length (upload_toasts (uploadDocument (Some file) api documents)) = 1
  /\ upload_documents (uploadDocument (Some file) api documents)
     = match upload_result (uploadDocument (Some file) api documents) with
       | Some newDocument => newDocument :: documents
       | None => documents
       end.
Proof.
  unfold uploadDocument.
  rewrite Z.leb_antisym, Z.gtb_ltb.
  destruct (maxSize <? file_size file)%Z; simpl; [auto|].
  destruct (extension_allowed file); simpl; [|auto].
  destruct (api file) as [reply|e]; [destruct (up_success reply)|]; simpl; auto.
Qed.

Lemma split_dot_nonempty s : split_dot s <> [].
Proof.
  destruct s as [|c s]; simpl; [discriminate|].
  destruct (c =? 46)%N; [discriminate|]. now destruct (split_dot s).
Qed.

Lemma split_dot_app a b :
  split_dot (a ++ 46%N :: b) = split_dot a ++ split_dot b.
Proof.
  induction a as [|c a IH]; simpl; [reflexivity|].
  destruct (c =? 46)%N; [now rewrite IH|].
  rewrite IH. pose proof (split_dot_nonempty a) as Hne.
  destruct (split_dot a) as [|piece pieces]; [congruence|reflexivity].
Qed.

Lemma split_dot_plain s :
  Forall (fun c => c <> 46%N) s -> split_dot s = [s].
Proof.
  induction 1 as [|c s Hc _ IH]; simpl; [reflexivity|].
  apply N.eqb_neq in Hc. now rewrite Hc, IH.
Qed.

Lemma split_dot_last base ext :
  Forall (fun c => c <> 46%N) ext ->
  List.last (split_dot (base ++ 46%N :: ext)) [] = ext.
Proof.
  intros H. rewrite split_dot_app, (split_dot_plain _ H). apply last_last.
Qed.

(** X9.  The file type test of [uploadDocument] looks at nothing but the
    text behind the last dot of the name, in lower case; a name without a
    dot is its own extension (so a file called [PDF] passes). *)
Theorem extension_is_text_after_last_dot (base ext : jsstring) (size : Z) :
  Forall (fun c => c <> 46%N) ext ->
  fileExtension {| file_name := base ++ 46%N :: ext; file_size := size |}
  = toLowerCase ext
  /\ fileExtension {| file_name := ext; file_size := size |} = toLowerCase ext
  /\ extension_allowed {| file_name := base ++ 46%N :: ext; file_size := size |}
     = existsb (jsstring_eqb (toLowerCase ext)) allowedTypes.
Proof.
  intros H. unfold extension_allowed, fileExtension. cbn [file_name].
  rewrite (split_dot_last _ _ H), (split_dot_plain _ H). simpl List.last.
  repeat split. now destruct (toLowerCase ext).
Qed.

Lemma extension_is_text_after_last_dot_witness :
  fileExtension {| file_name := lit "notes.v2" ++ 46%N :: lit "TXT"; file_size := 5 |}
  = toLowerCase (lit "TXT")
  /\ fileExtension {| file_name := lit "TXT"; file_size := 5 |} = toLowerCase (lit "TXT")
  /\ extension_allowed {| file_name := lit "notes.v2" ++ 46%N :: lit "TXT"; file_size := 5 |}
     = existsb (jsstring_eqb (toLowerCase (lit "TXT"))) allowedTypes.
Proof.
  apply extension_is_text_after_last_dot.
  repeat constructor; discriminate.
Defined.

(** X10.  When the batch-delete request reports success, every requested
    document leaves the local list, whatever the summary says about failed
    deletions; the documents that were not requested stay, in their order.
    In every other case the list is unchanged. *)
Theorem batchDeleteDocuments_local_list (ids : list string)
    (api : Settled BatchDeleteReply) (documents : list Document) :
  bd_documents (batchDeleteDocuments ids api documents)
  = match ids, api with
    | _ :: _, Fulfilled reply =>
        if bd_success reply
        then List.filter (fun doc => negb (existsb (String.eqb (doc_id doc)) ids)) documents
        else documents
    | _, _ => documents
    end
  /\ (forall doc,
         In doc (bd_documents (batchDeleteDocuments ids api documents)) ->
         In doc documents)
  /\ (forall reply doc,
         ids <> [] -> api = Fulfilled reply -> bd_success reply = true ->
         (In doc (bd_documents (batchDeleteDocuments ids api documents))
          <-> In doc documents /\ ~ In (doc_id doc) ids)).
Proof.
  assert (E : bd_documents (batchDeleteDocuments ids api documents)
              = match ids, api with
                | _ :: _, Fulfilled reply =>
                    if bd_success reply
                    then List.filter
                           (fun doc => negb (existsb (String.eqb (doc_id doc)) ids))
                           documents
                    else documents
                | _, _ => documents
                end).
  { unfold batchDeleteDocuments. destruct ids as [|i ids]; [reflexivity|].
    destruct api as [reply|e]; [|reflexivity].
    destruct (bd_success reply); [|reflexivity].
    now destruct (bd_summary reply) as [[s f]|]. }
  split; [exact E|]. rewrite E. split.
  - intros doc. destruct ids as [|i ids]; [tauto|].
    destruct api as [reply|e]; [|tauto].
    destruct (bd_success reply); [|tauto].
    rewrite filter_In. tauto.
  - intros reply doc Hids -> ->. destruct ids as [|i ids]; [congruence|].
    rewrite filter_In, negb_true_iff. split; intros [Hd Hn]; split; trivial.
    + intros Hin. apply not_true_iff_false in Hn. apply Hn.
      apply existsb_exists. exists (doc_id doc). split; [exact Hin|].
      apply String.eqb_refl.
    + apply not_true_iff_false. intros Hex.
      apply existsb_exists in Hex as (x & Hx & Heq).
      apply String.eqb_eq in Heq. subst x. contradiction.
Qed.

Lemma batchDeleteDocuments_local_list_witness :
  In (a_pdf st_processed)
    (bd_documents
       (batchDeleteDocuments ["d2"]
          (Fulfilled {| bd_success := true; bd_summary := Some (0, 1)%Z; bd_error := [] |})
          [a_pdf st_processed]))
  <-> In (a_pdf st_processed) [a_pdf st_processed]
      /\ ~ In (doc_id (a_pdf st_processed)) ["d2"].
Proof.
  apply (proj2 (proj2 (batchDeleteDocuments_local_list ["d2"]
           (Fulfilled {| bd_success := true; bd_summary := Some (0, 1)%Z;
                         bd_error := [] |}) [a_pdf st_processed]))
           {| bd_success := true; bd_summary := Some (0, 1)%Z; bd_error := [] |}).
  - discriminate.
  - reflexivity.
  - reflexivity.
Defined.

(* ===================================================================== *)
(** * Further properties of the statistics                                *)
(* ===================================================================== *)

(** A rounded share of a part in a whole is a whole number from 0 to 100. *)
(** X11.  In the statistics of [getDocumentStats] the total is the number
    of documents, and the four counts together with the number of documents
    that are still uploading, which has no count of its own, add up to it. *)
Theorem getDocumentStats_counts_and_rate (documents : list Document) :
  ds_processed (getDocumentStats documents)
  + ds_processing (getDocumentStats documents)
  + ds_uploaded (getDocumentStats documents)
  + ds_errors (getDocumentStats documents)
  + length (List.filter (has_status st_uploading) documents)
  = ds_total (getDocumentStats documents)
  /\ ds_total (getDocumentStats documents) = length documents.
Proof.
  unfold getDocumentStats. cbn [ds_total ds_processed ds_processing ds_uploaded
                                ds_errors ds_successRate].
  split; [|reflexivity].
  induction documents as [|d documents IH]; [reflexivity|].
  unfold has_status in *. simpl. destruct (doc_status d); simpl; lia.
Qed.

Lemma size_list_to_set_le (l : list jsstring) :
  size (list_to_set l : gset jsstring) <= length l.
Proof.
  induction l as [|x l IH].
  - rewrite list_to_set_nil, size_empty. simpl. lia.
  - rewrite list_to_set_cons, size_union_alt, size_singleton. simpl length.
    assert (Hsub : (list_to_set l : gset jsstring) ∖ {[x]} ⊆ list_to_set l)
      by (intros y; rewrite elem_of_difference; tauto).
    apply subseteq_size in Hsub. lia.
Qed.

(** X12.  In the statistics of [getTopicStats] the total is the number of
    topics, the topics with content and the categories are at most as many
    as the topics, and a list that is not empty has at least one category. *)
Theorem getTopicStats_bounds (topics : list Topic) :
  ts_total (getTopicStats topics) = length topics
  /\ ts_withContent (getTopicStats topics) <= length topics
  /\ ts_categories (getTopicStats topics) <= length topics
  /\ (topics <> [] -> 1 <= ts_categories (getTopicStats topics)).
Proof.
  unfold getTopicStats. destruct topics as [|t topics].
  { simpl. repeat split; try lia; congruence. }
  change (length (t :: topics) =? 0) with false.
  cbn [ts_total ts_withContent ts_categories ts_contentCoverage].
  split; [reflexivity|]. split; [apply filter_length_le|].
  split.
  - etransitivity; [apply size_list_to_set_le|]. now rewrite length_map.
  - intros _. rewrite map_cons, list_to_set_cons, size_union_alt, size_singleton. lia.
Qed.

Lemma getTopicStats_bounds_witness :
  1 <= ts_categories
         (getTopicStats [{| topic_id := "t1"; topic_category := None;
                            topic_content_count := Some (num_of_Z 2) |}]).
Proof.
  apply (getTopicStats_bounds [{| topic_id := "t1"; topic_category := None;
                                  topic_content_count := Some (num_of_Z 2) |}]).
  discriminate.
Defined.

(* ===================================================================== *)
(** * Further properties of the retry helper                              *)
(* ===================================================================== *)

Section RetryRuns.

Context {T : Type} (apiCall : nat -> Settled T) (baseDelay : Z).

Lemma retry_from_shape remaining :
  forall attempt,
    run_settled (retry_from apiCall baseDelay remaining attempt)
    = apiCall (attempt + pred (run_calls (retry_from apiCall baseDelay remaining attempt)))
    /\ run_delays (retry_from apiCall baseDelay remaining attempt)
       = List.map (fun a => (baseDelay * 2 ^ Z.of_nat a)%Z)
           (seq attempt (pred (run_calls (retry_from apiCall baseDelay remaining attempt))))
    /\ forall j,
         j < pred (run_calls (retry_from apiCall baseDelay remaining attempt)) ->
         retried apiCall (attempt + j).
Proof.
  induction remaining as [|remaining IH]; intros attempt; simpl.
  - destruct (apiCall attempt) as [v|e] eqn:E; simpl; rewrite Nat.add_0_r;
      (repeat split; [now rewrite E|lia]).
  - destruct (apiCall attempt) as [v|e] eqn:E; simpl.
    + rewrite Nat.add_0_r. repeat split; [now rewrite E|lia].
    + destruct (client_error e) eqn:Hc; simpl.
      * rewrite Nat.add_0_r. repeat split; [now rewrite E|lia].
      * destruct (IH (S attempt)) as (Hs & Hd & Hr).
        pose proof (retry_from_calls apiCall baseDelay remaining (S attempt)) as [Hcalls _].
        destruct (run_calls (retry_from apiCall baseDelay remaining (S attempt)))
          as [|calls] eqn:Ec; [lia|].
        simpl in *. repeat split.
        -- rewrite Hs. f_equal. lia.
        -- now rewrite Hd.
        -- intros [|j] Hj.
           ++ rewrite Nat.add_0_r. exists e. auto.
           ++ replace (attempt + S j) with (S (attempt + j)) by lia.
              apply Hr. lia.
Qed.

End RetryRuns.

(** X13.  However the invocations settle, [retryApiCall] settles as the last
    invocation it made did, every invocation before that one was a failure
    of the retried kind, and the delays it waited are the base delay doubled
    from one to the next. *)
Theorem retryApiCall_settles_as_last_call {T} (apiCall : nat -> Settled T)
    (maxRetries : nat) (baseDelay : Z) :
  run_settled (retryApiCall apiCall maxRetries baseDelay)
  = apiCall (pred (run_calls (retryApiCall apiCall maxRetries baseDelay)))
  /\ run_delays (retryApiCall apiCall maxRetries baseDelay)
     = backoff baseDelay (pred (run_calls (retryApiCall apiCall maxRetries baseDelay)))
  /\ forall j,
       j < pred (run_calls (retryApiCall apiCall maxRetries baseDelay)) ->
       retried apiCall j.
Proof.
  unfold retryApiCall, backoff.
  exact (retry_from_shape apiCall baseDelay maxRetries 0).
Qed.

Lemma retryApiCall_settles_as_last_call_witness :
  retried (fun n => if n <? 2
                    then Rejected {| err_status := Some 503%Z; err_data_message := [];
                                     err_message := [] |}
                    else Fulfilled n) 1.
Proof.
  apply (proj2 (proj2 (retryApiCall_settles_as_last_call
           (fun n => if n <? 2
                     then Rejected {| err_status := Some 503%Z; err_data_message := [];
                                      err_message := [] |}
                     else Fulfilled n) 3 1000)) 1).
  vm_compute. lia.
Defined.

Lemma total_delay_app a b : total_delay (a ++ b) = (total_delay a + total_delay b)%Z.
Proof.
  unfold total_delay. induction a as [|x a IH]; simpl; [reflexivity|]. lia.
Qed.

Lemma total_delay_backoff baseDelay k :
  total_delay (backoff baseDelay k) = (baseDelay * (2 ^ Z.of_nat k - 1))%Z.
Proof.
  induction k as [|k IH]; [simpl; lia|].
  unfold backoff in *. rewrite seq_S, map_app, total_delay_app, IH. simpl.
  unfold total_delay. simpl.
  rewrite Nat2Z.inj_succ, Z.pow_succ_r by lia. lia.
Qed.

(** X14.  A run that makes [n] invocations waits [baseDelay * (2 ^ (n - 1) - 1)]
    milliseconds in all; with a base delay that is not negative this is at
    most [baseDelay * (2 ^ maxRetries - 1)]. *)
Theorem retryApiCall_total_delay {T} (apiCall : nat -> Settled T)
    (maxRetries : nat) (baseDelay : Z) :
  total_delay (run_delays (retryApiCall apiCall maxRetries baseDelay))
  = (baseDelay
     * (2 ^ Z.of_nat (pred (run_calls (retryApiCall apiCall maxRetries baseDelay))) - 1))%Z
  /\ ((0 <= baseDelay)%Z ->
      (total_delay (run_delays (retryApiCall apiCall maxRetries baseDelay))
       <= baseDelay * (2 ^ Z.of_nat maxRetries - 1))%Z).
Proof.
  destruct (retry_from_shape apiCall baseDelay maxRetries 0) as (_ & Hd & _).
  fold (retryApiCall apiCall maxRetries baseDelay) in Hd.
  fold (backoff baseDelay
          (pred (run_calls (retryApiCall apiCall maxRetries baseDelay)))) in Hd.
  rewrite Hd, total_delay_backoff. split; [reflexivity|].
  intros Hb. apply Z.mul_le_mono_nonneg_l; [exact Hb|].
  apply Z.sub_le_mono_r, Z.pow_le_mono_r; [lia|].
  pose proof (retry_from_calls apiCall baseDelay maxRetries 0) as [Hc _].
  unfold retryApiCall. lia.
Qed.

Lemma retryApiCall_total_delay_witness :
  (total_delay (run_delays (retryApiCall
      (fun _ => Rejected {| err_status := Some 500%Z; err_data_message := [];
                            err_message := [] |} : Settled unit) 3 1000))
   <= 1000 * (2 ^ Z.of_nat 3 - 1))%Z.
Proof.
  apply (proj2 (retryApiCall_total_delay
           (fun _ => Rejected {| err_status := Some 500%Z; err_data_message := [];
                                 err_message := [] |} : Settled unit) 3 1000)).
  discriminate.
Defined.

(* ===================================================================== *)
(** * Further properties of the poller                                    *)
(* ===================================================================== *)

Lemma stopPolling_toasts_grow r documentId isReprocessing w :
  exists raised,
    toasts (stopPolling r documentId isReprocessing w) = toasts w ++ raised.
Proof.
  stopPolling_cases r documentId isReprocessing; cbn;
    solve [eexists; reflexivity | exists []; now rewrite app_nil_r].
Qed.

Lemma statusEffect_step_toasts r (l : list Document) :
  forall w t,
    In t (toasts w) ->
    In t (toasts (fold_left (fun w document =>
            if (bool_decide (doc_id document ∈ processing r)
                || bool_decide (doc_id document ∈ reprocessing r))
               && terminal document
            then stopPolling r (doc_id document)
                   (bool_decide (doc_id document ∈ reprocessing r)) w
            else w) l w)).
Proof.
  induction l as [|x l IH]; intros w t H; simpl; [exact H|].
  apply IH. destruct (_ && _); [|exact H].
  destruct (stopPolling_toasts_grow r (doc_id x)
              (bool_decide (doc_id x ∈ reprocessing r)) w) as (raised & ->).
  apply in_or_app. now left.
Qed.

(** X15.  When the status effect runs in a render that shows a document in
    a terminal state, has it in an in-flight set and knows its interval, the
    poll of that document is stopped: the interval is cancelled and out of
    the registry, the identifier is out of its in-flight set (the
    reprocessing set if it is there, else the processing set), its timer
    entry is gone; and if the document is the first with its identifier and
    is processed, the completion toast with its file name has been raised. *)
Theorem statusEffect_stops_and_announces (r : Render) (w : World)
    (d : Document) (h : nat) :
  is_mounted w = true ->
  d ∈ documents r -> terminal d = true ->
  doc_id d ∈ processing r \/ doc_id d ∈ reprocessing r ->
  pollingIntervals r !! doc_id d = Some h -> h <> 0 ->
  stopped (doc_id d) h (bool_decide (doc_id d ∈ reprocessing r)) (statusEffect r w)
  /\ (find_document (doc_id d) (documents r) = Some d ->
      doc_status d = st_processed ->
      In (toast_success
            (operation_name (bool_decide (doc_id d ∈ reprocessing r))
               ++ lit " completed: " ++ doc_filename d))
         (toasts (statusEffect r w))).
Proof.
  intros Hm Hd Hterm Hin Hh Hne.
  split; [now apply statusEffect_stops|].
  intros Hfind Hst. unfold statusEffect.
  apply list_elem_of_In, in_split in Hd as (before & after & ->).
  rewrite fold_left_app. simpl fold_left at 1.
  apply statusEffect_step_toasts.
  rewrite Hterm, andb_true_r.
  replace (_ || _) with true
    by (symmetry; apply orb_true_iff;
        destruct Hin as [Hin|Hin]; [left|right]; now apply bool_decide_eq_true_2).
  rewrite (stopPolling_toast _ _ _ _ _ Hfind), Hst.
  apply in_or_app. right. now left.
Qed.

Lemma statusEffect_stops_and_announces_witness :
  stopped "d1" 1 false
    (statusEffect
       {| documents := [a_pdf st_processed]; processing := {["d1"]};
          reprocessing := ∅; processingTimers := {["d1" := 0%Z]};
          pollingIntervals := {["d1" := 1]} |}
       (mounted [a_pdf st_processed])).
Proof.
  refine (proj1 (statusEffect_stops_and_announces
           {| documents := [a_pdf st_processed]; processing := {["d1"]};
              reprocessing := ∅; processingTimers := {["d1" := 0%Z]};
              pollingIntervals := {["d1" := 1]} |}
           (mounted [a_pdf st_processed]) (a_pdf st_processed) 1 _ _ _ _ _ _)).
  - reflexivity.
  - apply list_elem_of_In. now left.
  - reflexivity.
  - left. cbn. now apply elem_of_singleton.
  - reflexivity.
  - discriminate.
Defined.

Lemma clearInterval_fold_kept (l : list (string * nat)) w h :
  (forall k, (k, h) ∉ l) ->
  intervals (fold_left (fun w entry => clearInterval (snd entry) w) l w) !! h
  = intervals w !! h.
Proof.
  revert w. induction l as [|[k' x] l IH]; intros w H; simpl; [reflexivity|].
  rewrite IH by (intros k Hk; apply (H k); now right).
  cbn. apply lookup_delete_ne. intros ->. apply (H k'). now left.
Qed.

(** X16.  Unmounting cancels the intervals whose handles are in the registry
    of the render on screen, and no others: an interval that this registry
    does not hold lives on. *)
Theorem unmount_cancels_exactly_the_registered (w : World) (h : nat) :
  is_mounted (unmount w) = false
  /\ ((exists documentId, pollingIntervals (committed w) !! documentId = Some h) ->
      intervals (unmount w) !! h = None)
  /\ ((forall documentId, pollingIntervals (committed w) !! documentId <> Some h) ->
      intervals (unmount w) !! h = intervals w !! h).
Proof.
  split; [reflexivity|]. unfold unmount, cleanupIntervals. cbn [intervals]. split.
  - intros (documentId & H).
    apply (clearInterval_fold _ _ documentId). now apply elem_of_map_to_list.
  - intros H. apply clearInterval_fold_kept.
    intros k Hk. apply elem_of_map_to_list in Hk. now apply (H k).
Qed.

Lemma unmount_cancels_exactly_the_registered_witness :
  intervals (unmount (run (take 2 process_run) (mounted [a_pdf st_uploaded]))) !! 1
  = None.
Proof.
  apply (unmount_cancels_exactly_the_registered
           (run (take 2 process_run) (mounted [a_pdf st_uploaded])) 1).
  exists "d1". vm_compute. reflexivity.
Defined.

Lemma stopPolling_intervals_gone r documentId isReprocessing w h :
  intervals w !! h = None ->
  intervals (stopPolling r documentId isReprocessing w) !! h = None.
Proof.
  intros H.
  stopPolling_cases r documentId isReprocessing; cbn;
    rewrite ?lookup_delete_None; auto.
Qed.

Lemma stopPolling_intervals_kept r documentId isReprocessing w h :
  pollingIntervals r !! documentId <> Some h ->
  intervals (stopPolling r documentId isReprocessing w) !! h = intervals w !! h.
Proof.
  intros H. unfold stopPolling.
  destruct (pollingIntervals r !! documentId) as [intervalId|] eqn:E.
  - assert (intervalId <> h) by congruence.
    destruct (intervalId =? 0);
      (destruct (find_document documentId (documents r)) as [d|];
       [destruct (doc_status d)|]); destruct isReprocessing; cbn;
      rewrite ?lookup_delete_ne by assumption; reflexivity.
  - (destruct (find_document documentId (documents r)) as [d|];
     [destruct (doc_status d)|]); destruct isReprocessing; reflexivity.
Qed.

Lemma statusEffect_intervals_gone r w h :
  intervals w !! h = None -> intervals (statusEffect r w) !! h = None.
Proof.
  unfold statusEffect. generalize (documents r). intros l. revert w.
  induction l as [|x l IH]; intros w H; simpl; [exact H|].
  apply IH. destruct (_ && _); [|exact H].
  now apply stopPolling_intervals_gone.
Qed.

(** X17.  When the registry of intervals has changed, the next render
    cancels every interval that the registry of the previous render held,
    whichever document it polls: the clean-up function of the effect of
    lines 81-85 runs on every change of [pollingIntervals], not only when
    the component is unmounted. *)
Theorem commit_cancels_previous_registry (w : World) (documentId : string)
    (h : nat) :
  registry_changed w = true ->
  pollingIntervals (committed w) !! documentId = Some h ->
  intervals (commit w) !! h = None.
Proof.
  intros Hc Hh. unfold commit. rewrite Hc.
  assert (Hgone : intervals (cleanupIntervals (committed w) w) !! h = None).
  { unfold cleanupIntervals.
    apply (clearInterval_fold _ _ documentId). now apply elem_of_map_to_list. }
  destruct (status_deps_changed w); [|exact Hgone].
  apply statusEffect_intervals_gone. exact Hgone.
Qed.

Lemma commit_cancels_previous_registry_witness :
  polls second_started 1 "d1"
  /\ intervals (commit second_started) !! 1 = None
  /\ pollingIntervals (current (commit second_started)) !! "d1" = Some 1
  /\ "d1" ∈ processing (current (commit second_started)).
Proof.
  split; [vm_compute; reflexivity|]. split.
  - apply (commit_cancels_previous_registry second_started "d1" 1);
      vm_compute; reflexivity.
  - split; [vm_compute; reflexivity|].
    apply (bool_decide_eq_true_1 ("d1" ∈ processing (current (commit second_started)))).
    vm_compute. reflexivity.
Defined.

(** X18.  Every tick asks for one refresh of the documents.  The only
    interval it can cancel is the one that the registry of the render it was
    created in holds for its document; a poll started from a render whose
    registry has no entry for the document therefore cancels no interval by
    its ticks, its own included. *)
Theorem pollStatus_cancels_only_its_render_entry (c : PollClosure) (w : World)
    (h : nat) :
  refreshes (pollStatus c w) = S (refreshes w)
  /\ (pollingIntervals (poll_render c) !! poll_documentId c <> Some h ->
      intervals (pollStatus c w) !! h = intervals w !! h).
Proof.
  assert (Hr : forall r documentId isReprocessing w,
             refreshes (stopPolling r documentId isReprocessing w) = refreshes w)
    by (intros r documentId isReprocessing w0;
        stopPolling_cases r documentId isReprocessing; reflexivity).
  unfold pollStatus. split.
  - destruct (find_document _ _) as [d|]; [|reflexivity].
    destruct (terminal d); [|reflexivity]. now rewrite Hr.
  - intros H.
    destruct (find_document _ _) as [d|]; [|reflexivity].
    destruct (terminal d); [|reflexivity].
    now rewrite stopPolling_intervals_kept.
Qed.

Lemma pollStatus_cancels_only_its_render_entry_witness :
  intervals
    (pollStatus {| poll_documentId := "d1"; poll_isReprocessing := true;
                   poll_render := emptyRender [a_pdf st_processed] |}
       (run (take 2 reprocess_run) (mounted [a_pdf st_processed]))) !! 1
  = intervals (run (take 2 reprocess_run) (mounted [a_pdf st_processed])) !! 1.
Proof.
  apply (proj2 (pollStatus_cancels_only_its_render_entry
           {| poll_documentId := "d1"; poll_isReprocessing := true;
              poll_render := emptyRender [a_pdf st_processed] |}
           (run (take 2 reprocess_run) (mounted [a_pdf st_processed])) 1)).
  discriminate.
Defined.

(* ===================================================================== *)
(** * The registry of intervals                                           *)
(* ===================================================================== *)

Lemma cancels_only_refl w : cancels_only w w.
Proof. unfold cancels_only. auto 6. Qed.

Lemma cancels_only_trans w1 w2 w3 :
  cancels_only w1 w2 -> cancels_only w2 w3 -> cancels_only w1 w3.
Proof.
  intros (Hm & Hc & Hi & Hr & Hn) (Hm' & Hc' & Hi' & Hr' & Hn').
  split; [congruence|]. split; [congruence|]. split; [auto|].
  split; [|congruence].
  intros H. destruct (Hr' H) as [H1 E1]. destruct (Hr H1) as [H2 E2].
  split; [exact H2|congruence].
Qed.

Lemma cancels_only_at_rest w w' : cancels_only w w' -> at_rest w -> at_rest w'.
Proof.
  intros (Hm & Hc & Hi & Hr & _) Hrest Hm'. rewrite Hm in Hm'.
  destruct (Hrest Hm') as [Hreg Hstep]. split.
  - intros h c H. rewrite Hc. apply Hreg, Hi, H.
  - intros H. destruct (Hr H) as [H1 E1]. rewrite E1, Hc. now apply Hstep.
Qed.

Ltac cancels_only_setter :=
  intros; unfold cancels_only, setProcessing, setReprocessing, setProcessingTimers,
    receiveDocuments, toast, onDocumentsRefresh, mark_status, with_current;
  cbn; repeat split; auto;
  match goal with w : World |- _ => destruct (is_mounted w); reflexivity end.

Lemma cancels_only_setProcessing f w : cancels_only w (setProcessing f w).
Proof. cancels_only_setter. Qed.

Lemma cancels_only_setReprocessing f w : cancels_only w (setReprocessing f w).
Proof. cancels_only_setter. Qed.

Lemma cancels_only_setProcessingTimers f w : cancels_only w (setProcessingTimers f w).
Proof. cancels_only_setter. Qed.

Lemma cancels_only_receiveDocuments docs w : cancels_only w (receiveDocuments docs w).
Proof. cancels_only_setter. Qed.

Lemma cancels_only_toast t w : cancels_only w (toast t w).
Proof. cancels_only_setter. Qed.

Lemma cancels_only_onDocumentsRefresh w : cancels_only w (onDocumentsRefresh w).
Proof. cancels_only_setter. Qed.

Lemma cancels_only_clearInterval h w : cancels_only w (clearInterval h w).
Proof.
  unfold cancels_only, clearInterval. cbn. repeat split; auto.
  intros h' c H. apply lookup_delete_Some in H. tauto.
Qed.

Lemma cancels_only_setPollingIntervals f w : cancels_only w (setPollingIntervals f w).
Proof.
  unfold cancels_only, setPollingIntervals, mark_registry, with_current. cbn.
  repeat split; auto; discriminate.
Qed.

Create HintDb poller.

#[local] Hint Resolve cancels_only_refl cancels_only_setProcessing
  cancels_only_setReprocessing cancels_only_setProcessingTimers
  cancels_only_receiveDocuments cancels_only_toast
  cancels_only_onDocumentsRefresh cancels_only_clearInterval
  cancels_only_setPollingIntervals : poller.

Lemma cancels_only_stopPolling r documentId isReprocessing w :
  cancels_only w (stopPolling r documentId isReprocessing w).
Proof.
  unfold stopPolling.
  set (w1 := match pollingIntervals r !! documentId with
             | Some intervalId =>
                 if intervalId =? 0 then w
                 else setPollingIntervals (delete documentId) (clearInterval intervalId w)
             | None => w
             end).
  assert (H1 : cancels_only w w1).
  { unfold w1. destruct (pollingIntervals r !! documentId) as [intervalId|];
      [|apply cancels_only_refl].
    destruct (intervalId =? 0); [apply cancels_only_refl|].
    eapply cancels_only_trans;
      [apply cancels_only_clearInterval|apply cancels_only_setPollingIntervals]. }
  set (w2 := if isReprocessing
             then setReprocessing (fun prev => prev ∖ {[documentId]}) w1
             else setProcessing (fun prev => prev ∖ {[documentId]}) w1).
  assert (H2 : cancels_only w1 w2) by (unfold w2; destruct isReprocessing; auto with poller).
  set (w3 := setProcessingTimers (delete documentId) w2).
  assert (H3 : cancels_only w w3).
  { eapply cancels_only_trans; [exact H1|].
    eapply cancels_only_trans; [exact H2|]. unfold w3. auto with poller. }
  destruct (find_document documentId (documents r)) as [d|]; [|exact H3].
  destruct (doc_status d); try exact H3;
    (eapply cancels_only_trans; [exact H3|apply cancels_only_toast]).
Qed.

Lemma cancels_only_statusEffect r w : cancels_only w (statusEffect r w).
Proof.
  unfold statusEffect. generalize (documents r). intros l. revert w.
  induction l as [|d l IH]; intros w; simpl; [apply cancels_only_refl|].
  eapply cancels_only_trans; [|apply IH].
  destruct (_ && _); [apply cancels_only_stopPolling|apply cancels_only_refl].
Qed.

Lemma cancels_only_pollStatus c w : cancels_only w (pollStatus c w).
Proof.
  unfold pollStatus.
  destruct (find_document _ _) as [d|]; [destruct (terminal d)|];
    try apply cancels_only_onDocumentsRefresh.
  eapply cancels_only_trans;
    [apply cancels_only_onDocumentsRefresh|apply cancels_only_stopPolling].
Qed.

Lemma cancels_only_fresh w w' : cancels_only w w' -> fresh w -> fresh w'.
Proof.
  intros (_ & _ & Hi & _ & Hn) H h c Hc. rewrite Hn. eapply H, Hi, Hc.
Qed.

Lemma startPolling_fresh r documentId isReprocessing w :
  fresh w -> fresh (startPolling r documentId isReprocessing w).
Proof.
  intros H h c. unfold startPolling. cbn.
  destruct (decide (h = next_handle w)) as [->|Hne].
  - intros _. lia.
  - rewrite lookup_insert_ne by congruence. intros Hc. specialize (H h c Hc). lia.
Qed.

Lemma at_rest_in_handler w : at_rest w -> in_handler w.
Proof.
  intros H Hm. destruct (H Hm) as [Hreg Hstep]. split; [|exact Hstep].
  intros h c Hc. left. now apply Hreg.
Qed.

(** [startPolling] puts the interval it starts in the registry of the
    state. *)
Lemma startPolling_in_handler r documentId isReprocessing w :
  at_rest w -> in_handler (startPolling r documentId isReprocessing w).
Proof.
  intros H Hm. unfold startPolling in *. cbn in Hm.
  destruct (H Hm) as [Hreg Hstep]. split; [|discriminate].
  intros h c. cbn. rewrite Hm. cbn.
  destruct (decide (h = next_handle w)) as [->|Hne].
  - rewrite lookup_insert_eq. intros [= <-]. right. split; [reflexivity|].
    cbn. apply lookup_insert_eq.
  - rewrite lookup_insert_ne by congruence. intros Hc. left. now apply Hreg.
Qed.

Lemma cleanupIntervals_frame r w :
  is_mounted (cleanupIntervals r w) = is_mounted w
  /\ current (cleanupIntervals r w) = current w
  /\ committed (cleanupIntervals r w) = committed w
  /\ registry_changed (cleanupIntervals r w) = registry_changed w
  /\ status_deps_changed (cleanupIntervals r w) = status_deps_changed w
  /\ next_handle (cleanupIntervals r w) = next_handle w
  /\ toasts (cleanupIntervals r w) = toasts w
  /\ refreshes (cleanupIntervals r w) = refreshes w.
Proof.
  unfold cleanupIntervals. generalize (map_to_list (pollingIntervals r)).
  intros l. revert w. induction l as [|x l IH]; intros w; simpl; [repeat split|].
  destruct (IH (clearInterval (snd x) w)) as (-> & -> & -> & -> & -> & -> & -> & ->).
  repeat split.
Qed.

Lemma cleanupIntervals_live r w h c :
  intervals (cleanupIntervals r w) !! h = Some c ->
  intervals w !! h = Some c
  /\ forall documentId, pollingIntervals r !! documentId <> Some h.
Proof.
  intros H. split.
  - revert H. unfold cleanupIntervals. generalize (map_to_list (pollingIntervals r)).
    intros l. revert w. induction l as [|x l IH]; intros w; simpl; [auto|].
    intros H. apply IH in H. cbn in H. apply lookup_delete_Some in H. tauto.
  - intros documentId E.
    unfold cleanupIntervals in H.
    rewrite (clearInterval_fold _ _ documentId h) in H; [discriminate|].
    now apply elem_of_map_to_list.
Qed.

(** A render turns the state after a handler into a state of rest. *)
Lemma commit_at_rest w : in_handler w -> at_rest (commit w).
Proof.
  intros H. unfold commit.
  set (w1 := if registry_changed w then cleanupIntervals (committed w) w else w).
  set (w2 := {| is_mounted := is_mounted w1; current := current w1;
                committed := current w1;
                registry_changed := false; status_deps_changed := false;
                intervals := intervals w1; next_handle := next_handle w1;
                toasts := toasts w1; refreshes := refreshes w1 |}).
  assert (H2 : at_rest w2).
  { intros Hm. cbn in Hm. split; [|intros _; reflexivity].
    intros h c Hc. cbn in Hc |- *. unfold w1 in *.
    destruct (registry_changed w) eqn:Ec.
    - destruct (cleanupIntervals_frame (committed w) w) as (Em & Ecur & _).
      rewrite Em in Hm. rewrite Ecur.
      apply cleanupIntervals_live in Hc as [Hc Hout].
      destruct (H Hm) as [Hlive _].
      destruct (Hlive h c Hc) as [Hin|[_ Hin]]; [now destruct (Hout _ Hin)|exact Hin].
    - destruct (H Hm) as [Hlive Hstep].
      rewrite (Hstep Ec).
      destruct (Hlive h c Hc) as [Hin|[Hf _]]; [exact Hin|congruence]. }
  destruct (status_deps_changed w); [|exact H2].
  eapply cancels_only_at_rest; [apply cancels_only_statusEffect|exact H2].
Qed.

Lemma settle_at_rest fuel : forall w, at_rest w -> at_rest (settle fuel w).
Proof.
  induction fuel as [|fuel IH]; intros w H; simpl; [exact H|].
  destruct (_ && _); [|exact H].
  apply IH, commit_at_rest, at_rest_in_handler, H.
Qed.

Lemma settle_in_handler fuel w : in_handler w -> at_rest (settle (S fuel) w).
Proof.
  intros H. simpl.
  destruct (is_mounted w) eqn:Hm; simpl.
  - destruct (registry_changed w) eqn:Er; simpl.
    + apply settle_at_rest, commit_at_rest, H.
    + destruct (status_deps_changed w).
      * apply settle_at_rest, commit_at_rest, H.
      * intros _. destruct (H Hm) as [Hlive Hstep]. split; [|exact Hstep].
        intros h c Hc. destruct (Hlive h c Hc) as [Hin|[Hf _]]; [exact Hin|congruence].
  - intros Hm'. congruence.
Qed.

Lemma handle_in_handler e w : at_rest w -> in_handler (handle e w).
Proof.
  intros H.
  assert (Hgo : forall w', cancels_only w w' -> in_handler w')
    by (intros w' Hc; eapply at_rest_in_handler, cancels_only_at_rest; eauto).
  destruct e as [documentId now|r documentId reply|documentId now
                 |r documentId reply|h|docs|]; cbn [handle].
  - apply Hgo. unfold processDocument_begin.
    destruct (bool_decide _); [apply cancels_only_refl|].
    eapply cancels_only_trans;
      [apply cancels_only_setProcessing|apply cancels_only_setProcessingTimers].
  - unfold processDocument_settled.
    assert (Hfail : forall error,
      in_handler
        (setProcessingTimers (delete documentId)
           (setProcessing (fun prev => prev ∖ {[documentId]})
              (toast (toast_error (lit "Failed to start document processing: "
                                     ++ errorMessage error (lit "undefined"))) w)))).
    { intros error. apply Hgo.
      eapply cancels_only_trans; [|apply cancels_only_setProcessingTimers].
      eapply cancels_only_trans;
        [apply cancels_only_toast|apply cancels_only_setProcessing]. }
    destruct reply as [data|error]; [destruct (start_success data)|]; try apply Hfail.
    apply startPolling_in_handler.
    eapply cancels_only_at_rest; [apply cancels_only_toast|exact H].
  - apply Hgo. unfold reprocessDocument_begin.
    eapply cancels_only_trans;
      [apply cancels_only_setReprocessing|apply cancels_only_setProcessingTimers].
  - unfold reprocessDocument_settled. destruct reply as [[]|error].
    + apply startPolling_in_handler.
      eapply cancels_only_at_rest; [apply cancels_only_toast|exact H].
    + apply Hgo.
      eapply cancels_only_trans; [|apply cancels_only_setProcessingTimers].
      eapply cancels_only_trans;
        [apply cancels_only_toast|apply cancels_only_setReprocessing].
  - apply Hgo. unfold tick.
    destruct (intervals w !! h); [apply cancels_only_pollStatus|apply cancels_only_refl].
  - apply Hgo. auto with poller.
  - intros Hm. discriminate Hm.
Qed.

Lemma commit_fresh w : fresh w -> fresh (commit w).
Proof.
  intros H. unfold commit.
  set (w1 := if registry_changed w then cleanupIntervals (committed w) w else w).
  assert (H1 : fresh w1).
  { unfold w1. destruct (registry_changed w); [|exact H].
    intros h c Hc. apply cleanupIntervals_live in Hc as [Hc _].
    destruct (cleanupIntervals_frame (committed w) w)
      as (_ & _ & _ & _ & _ & -> & _). now apply (H h c). }
  destruct (status_deps_changed w); [|exact H1].
  eapply cancels_only_fresh; [apply cancels_only_statusEffect|exact H1].
Qed.

Lemma settle_fresh fuel : forall w, fresh w -> fresh (settle fuel w).
Proof.
  induction fuel as [|fuel IH]; intros w H; simpl; [exact H|].
  destruct (_ && _); [|exact H]. apply IH, commit_fresh, H.
Qed.

Lemma handle_fresh e w : fresh w -> fresh (handle e w).
Proof.
  intros H.
  assert (Hgo : forall w', cancels_only w w' -> fresh w')
    by (intros w' Hc; eapply cancels_only_fresh; eauto).
  destruct e as [documentId now|r documentId reply|documentId now
                 |r documentId reply|h|docs|]; cbn [handle].
  - apply Hgo. unfold processDocument_begin.
    destruct (bool_decide _); [apply cancels_only_refl|].
    eapply cancels_only_trans;
      [apply cancels_only_setProcessing|apply cancels_only_setProcessingTimers].
  - unfold processDocument_settled.
    assert (Hfail : forall error,
      fresh
        (setProcessingTimers (delete documentId)
           (setProcessing (fun prev => prev ∖ {[documentId]})
              (toast (toast_error (lit "Failed to start document processing: "
                                     ++ errorMessage error (lit "undefined"))) w)))).
    { intros error. apply Hgo.
      eapply cancels_only_trans; [|apply cancels_only_setProcessingTimers].
      eapply cancels_only_trans;
        [apply cancels_only_toast|apply cancels_only_setProcessing]. }
    destruct reply as [data|error]; [destruct (start_success data)|]; try apply Hfail.
    apply startPolling_fresh, Hgo, cancels_only_toast.
  - apply Hgo. unfold reprocessDocument_begin.
    eapply cancels_only_trans;
      [apply cancels_only_setReprocessing|apply cancels_only_setProcessingTimers].
  - unfold reprocessDocument_settled. destruct reply as [[]|error].
    + apply startPolling_fresh, Hgo, cancels_only_toast.
    + apply Hgo.
      eapply cancels_only_trans; [|apply cancels_only_setProcessingTimers].
      eapply cancels_only_trans;
        [apply cancels_only_toast|apply cancels_only_setReprocessing].
  - apply Hgo. unfold tick.
    destruct (intervals w !! h); [apply cancels_only_pollStatus|apply cancels_only_refl].
  - apply Hgo, cancels_only_receiveDocuments.
  - unfold unmount. intros h c Hc. cbn in Hc |- *.
    apply cleanupIntervals_live in Hc as [Hc _].
    destruct (cleanupIntervals_frame (committed w) w)
      as (_ & _ & _ & _ & _ & -> & _). now apply (H h c).
Qed.

Lemma run_fresh trace : forall w, fresh w -> fresh (run trace w).
Proof.
  unfold run. induction trace as [|e trace IH]; intros w H; simpl; [exact H|].
  apply IH. unfold step. apply settle_fresh, handle_fresh, H.
Qed.

Lemma mounted_fresh docs : fresh (mounted docs).
Proof. intros h c H. cbn in H. now rewrite lookup_empty in H. Qed.

Lemma step_at_rest w e : at_rest w -> at_rest (step w e).
Proof. intros H. apply settle_in_handler, handle_in_handler, H. Qed.

Lemma run_at_rest trace : forall w, at_rest w -> at_rest (run trace w).
Proof.
  unfold run. induction trace as [|e trace IH]; intros w H; simpl; [exact H|].
  apply IH, step_at_rest, H.
Qed.

Lemma mounted_at_rest docs : at_rest (mounted docs).
Proof.
  intros _. split; [|intros _; reflexivity].
  intros h c H. cbn in H. now rewrite lookup_empty in H.
Qed.

Lemma commit_intervals_gone w h :
  intervals w !! h = None -> intervals (commit w) !! h = None.
Proof.
  intros H. unfold commit.
  assert (H1 : intervals (if registry_changed w
                          then cleanupIntervals (committed w) w else w) !! h = None).
  { destruct (registry_changed w); [|exact H].
    unfold cleanupIntervals. now apply clearInterval_fold_gone. }
  destruct (status_deps_changed w); [|exact H1].
  now apply statusEffect_intervals_gone.
Qed.

Lemma settle_intervals_gone fuel : forall w h,
  intervals w !! h = None -> intervals (settle fuel w) !! h = None.
Proof.
  induction fuel as [|fuel IH]; intros w h H; simpl; [exact H|].
  destruct (_ && _); [|exact H]. now apply IH, commit_intervals_gone.
Qed.

Lemma commit_clears_registered w documentId h :
  registry_changed w = true ->
  pollingIntervals (committed w) !! documentId = Some h ->
  intervals (commit w) !! h = None.
Proof.
  intros Hc Hh. unfold commit. rewrite Hc.
  assert (Hgone : intervals (cleanupIntervals (committed w) w) !! h = None).
  { unfold cleanupIntervals.
    apply (clearInterval_fold _ _ documentId). now apply elem_of_map_to_list. }
  destruct (status_deps_changed w); [|exact Hgone].
  apply statusEffect_intervals_gone. exact Hgone.
Qed.



(** The renders that the two requests of [late_run] were started in are the
    ones on screen at the clicks. *)
Example late_run_renders :
  committed (mounted [a_pdf st_uploaded]) = emptyRender [a_pdf st_uploaded]
  /\ committed (run (take 2 late_run) (mounted [a_pdf st_uploaded]))
     = emptyRender [a_pdf st_error]
  /\ is_mounted (run (take 3 late_run) (mounted [a_pdf st_uploaded])) = true
  /\ is_mounted (run late_run (mounted [a_pdf st_uploaded])) = false.
Proof. vm_compute. repeat split. Qed.

(** C5, on the code.  The processing of [a.pdf] is started; a refresh
    reports an error before the request has settled, and the user asks for
    reprocessing.  The component is unmounted while the two requests are
    pending.  When they settle, each calls [startPolling]: the second call
    finds the interval 1 polling the document and starts the interval 2
    beside it.  [startPolling] cancels nothing, the registry of the state is
    no longer updated, and no render comes whose clean-up function would
    cancel an interval: both intervals poll the document from then on. *)
Theorem startPolling_after_unmount_runs_both :
  is_mounted (run late_run (mounted [a_pdf st_uploaded])) = false
  /\ polls (run (take 5 late_run) (mounted [a_pdf st_uploaded])) 1 "d1"
  /\ polls (run late_run (mounted [a_pdf st_uploaded])) 1 "d1"
  /\ polls (run late_run (mounted [a_pdf st_uploaded])) 2 "d1"
  /\ pollingIntervals (current (run late_run (mounted [a_pdf st_uploaded]))) = ∅
  /\ polls (run (late_run ++ [Tick 1; Tick 2; Tick 1; Tick 2])
              (mounted [a_pdf st_uploaded])) 1 "d1"
  /\ polls (run (late_run ++ [Tick 1; Tick 2; Tick 1; Tick 2])
              (mounted [a_pdf st_uploaded])) 2 "d1"
  /\ refreshes (run (late_run ++ [Tick 1; Tick 2; Tick 1; Tick 2])
                  (mounted [a_pdf st_uploaded])) = 4.
Proof. vm_compute. repeat split. Qed.

(* ===================================================================== *)
(** * Further properties of the documents hook                            *)
(* ===================================================================== *)

Lemma set_status_twice id a b doc :
  useDocuments.set_status id b (useDocuments.set_status id a doc)
  = useDocuments.set_status id b doc.
Proof.
  unfold useDocuments.set_status.
  destruct (String.eqb (doc_id doc) id) eqn:E; cbn; now rewrite E.
Qed.

Lemma set_status_map_twice id a b docs :
  List.map (useDocuments.set_status id b) (List.map (useDocuments.set_status id a) docs)
  = List.map (useDocuments.set_status id b) docs.
Proof.
  rewrite List.map_map. apply List.map_ext. intros doc. apply set_status_twice.
Qed.

(** X19.  [processDocument] of the hook returns true exactly when its
    request was fulfilled with [success]; the request it sends is the
    reprocess request, never the process request.  When it returns false,
    every document with the identifier is left with the status "error" (its
    earlier status is not restored) and the other documents are as before.
    When it returns true but the refresh that follows has failed, the
    document is left with the optimistic status "processing", and the only
    toast is the one that reports success. *)
Theorem processDocument_result_and_status (id : string)
    (reprocessed : Settled useDocuments.Reply)
    (listed : Settled useDocuments.ListReply) (s : useDocuments.State) :
  let o := useDocuments.processDocument id reprocessed listed s in
  (useDocuments.result o = true
   <-> exists reply, reprocessed = Fulfilled reply
                     /\ useDocuments.rp_success reply = true)
  /\ head (useDocuments.requests o) = Some (useDocuments.post_reprocess id)
  /\ ~ In (useDocuments.post_process id) (useDocuments.requests o)
  /\ (useDocuments.result o = false ->
      useDocuments.hook_documents (useDocuments.state o)
      = List.map (useDocuments.set_status id st_error) (useDocuments.hook_documents s)
      /\ useDocuments.hook_error (useDocuments.state o) = useDocuments.hook_error s)
  /\ (useDocuments.result o = true ->
      useDocuments.hook_error (useDocuments.state o) <> None ->
      useDocuments.hook_documents (useDocuments.state o)
      = List.map (useDocuments.set_status id st_processing)
          (useDocuments.hook_documents s)
      /\ useDocuments.raised o
         = [toast_success (lit "Document processed successfully")]).
Proof.
  intros o. subst o. unfold useDocuments.processDocument.
  destruct reprocessed as [reply|e];
    [destruct (useDocuments.rp_success reply) eqn:Es|];
    cbn [useDocuments.result useDocuments.requests useDocuments.state
         useDocuments.raised useDocuments.hook_documents useDocuments.hook_error head].
  - split; [split; [intros _; now exists reply|reflexivity]|].
    split; [reflexivity|].
    split; [intros [H|[H|[]]]; discriminate|].
    split; [discriminate|]. intros _.
    unfold useDocuments.refreshDocuments.
    destruct listed as [lr|e]; [destruct (useDocuments.lr_success lr)|];
      cbn [useDocuments.hook_documents useDocuments.hook_error];
      intros H; try (now split); now destruct H.
  - split; [split; [discriminate|intros (r & [= <-] & H); congruence]|].
    split; [reflexivity|].
    split; [intros [H|[]]; discriminate|].
    split; [intros _; split; [apply set_status_map_twice|reflexivity]|discriminate].
  - split; [split; [discriminate|intros (r & [=] & _)]|].
    split; [reflexivity|].
    split; [intros [H|[]]; discriminate|].
    split; [intros _; split; [apply set_status_map_twice|reflexivity]|discriminate].
Qed.

Lemma processDocument_result_and_status_witness :
  useDocuments.hook_documents
    (useDocuments.state
       (useDocuments.processDocument "d1"
          (Fulfilled {| useDocuments.rp_success := false;
                        useDocuments.rp_error := [] |})
          (Rejected (thrown (lit "offline")))
          {| useDocuments.hook_documents := [a_pdf st_uploaded; b_pdf st_uploaded];
             useDocuments.hook_error := None |}))
  = [a_pdf st_error; b_pdf st_uploaded].
Proof.
  apply (proj1 (proj1 (proj2 (proj2 (proj2 (processDocument_result_and_status "d1"
           (Fulfilled {| useDocuments.rp_success := false;
                         useDocuments.rp_error := [] |})
           (Rejected (thrown (lit "offline")))
           {| useDocuments.hook_documents := [a_pdf st_uploaded; b_pdf st_uploaded];
              useDocuments.hook_error := None |})))) eq_refl)).
Defined.

(** X20.  [reprocessDocument] of the hook does what [processDocument] does:
    for the same replies the two return the same result, send the same
    requests and leave the same state; only the texts of their toasts
    differ, and each raises exactly one. *)
Theorem reprocessDocument_agrees_with_processDocument (id : string)
    (reprocessed : Settled useDocuments.Reply)
    (listed : Settled useDocuments.ListReply) (s : useDocuments.State) :
  let p := useDocuments.processDocument id reprocessed listed s in
  let r := useDocuments.reprocessDocument id reprocessed listed s in
  useDocuments.result r = useDocuments.result p
  /\ useDocuments.requests r = useDocuments.requests p
  /\ useDocuments.state r = useDocuments.state p
  /\ length (useDocuments.raised r) = 1
  /\ length (useDocuments.raised p) = 1.
Proof.
  unfold useDocuments.processDocument, useDocuments.reprocessDocument.
  destruct reprocessed as [reply|e];
    [destruct (useDocuments.rp_success reply)|]; cbn; auto 6.
Qed.

(** X21.  [deleteDocument] of the hook sends its request exactly when the
    list of its render holds a document with the identifier.  When it
    returns true, the state has lost exactly the documents with that
    identifier; when it returns false, the state is as before.  It raises
    one toast in every case. *)
Theorem deleteDocument_guarded_by_rendered_list (documents : list Document)
    (id : string) (deleted : Settled useDocuments.Reply) (s : useDocuments.State) :
  let o := useDocuments.deleteDocument documents id deleted s in
  (useDocuments.requests o = []
   <-> forall doc, In doc documents -> doc_id doc <> id)
  /\ (useDocuments.result o = true ->
      forall doc, In doc (useDocuments.hook_documents (useDocuments.state o))
                  <-> In doc (useDocuments.hook_documents s) /\ doc_id doc <> id)
  /\ (useDocuments.result o = false -> useDocuments.state o = s)
  /\ length (useDocuments.raised o) = 1.
Proof.
  intros o. subst o. unfold useDocuments.deleteDocument.
  destruct (List.find _ documents) as [found|] eqn:Ef.
  - apply List.find_some in Ef as [Hin Heq]. apply String.eqb_eq in Heq.
    assert (Hsent : forall l : list useDocuments.Request,
               (useDocuments.delete_document id :: l = []
                <-> forall doc, In doc documents -> doc_id doc <> id)).
    { intros l. split; [discriminate|]. intros H. now destruct (H found Hin). }
    destruct deleted as [reply|e];
      [destruct (useDocuments.rp_success reply)|];
      cbn [useDocuments.result useDocuments.requests useDocuments.state
           useDocuments.raised useDocuments.hook_documents length];
      (split; [apply Hsent|]).
    + split; [|split; [discriminate|reflexivity]].
      intros _ doc. rewrite List.filter_In, negb_true_iff.
      split; intros [H1 H2]; (split; [exact H1|]).
      * intros E. apply String.eqb_eq in E. congruence.
      * apply String.eqb_neq. exact H2.
    + split; [discriminate|]. split; reflexivity.
    + split; [discriminate|]. split; reflexivity.
  - cbn. split; [|split; [discriminate|split; reflexivity]].
    split; [|reflexivity]. intros _ doc Hin E.
    apply (List.find_none _ _ Ef) in Hin. apply String.eqb_neq in Hin. contradiction.
Qed.

Lemma deleteDocument_guarded_by_rendered_list_witness :
  useDocuments.state
    (useDocuments.deleteDocument [a_pdf st_processed] "d1"
       (Fulfilled {| useDocuments.rp_success := false;
                     useDocuments.rp_error := [] |})
       {| useDocuments.hook_documents := [b_pdf st_uploaded; a_pdf st_processed];
          useDocuments.hook_error := None |})
  = {| useDocuments.hook_documents := [b_pdf st_uploaded; a_pdf st_processed];
       useDocuments.hook_error := None |}.
Proof.
  apply (proj1 (proj2 (proj2 (deleteDocument_guarded_by_rendered_list
           [a_pdf st_processed] "d1"
           (Fulfilled {| useDocuments.rp_success := false;
                         useDocuments.rp_error := [] |})
           {| useDocuments.hook_documents := [b_pdf st_uploaded; a_pdf st_processed];
              useDocuments.hook_error := None |}))) eq_refl).
Defined.

(* ===================================================================== *)
(** * The selection of documents                                          *)
(* ===================================================================== *)

(** X22.  [toggleDocumentSelection] flips the membership of its document and
    of no other, so that toggling the same document twice gives the
    selection back. *)
Theorem toggleDocumentSelection_flips_one (documentId : string)
    (prev : gset string) :
  (documentId ∈ toggleDocumentSelection documentId prev <-> documentId ∉ prev)
  /\ (forall other, other <> documentId ->
        (other ∈ toggleDocumentSelection documentId prev <-> other ∈ prev))
  /\ toggleDocumentSelection documentId (toggleDocumentSelection documentId prev)
     = prev.
Proof.
  assert (H1 : documentId ∈ toggleDocumentSelection documentId prev
               <-> documentId ∉ prev).
  { unfold toggleDocumentSelection. destruct (bool_decide_reflect (documentId ∈ prev)).
    - rewrite elem_of_difference, elem_of_singleton. tauto.
    - rewrite elem_of_union, elem_of_singleton. tauto. }
  assert (H2 : forall s other, other <> documentId ->
               (other ∈ toggleDocumentSelection documentId s <-> other ∈ s)).
  { intros s other Hne. unfold toggleDocumentSelection.
    destruct (bool_decide_reflect (documentId ∈ s)).
    - rewrite elem_of_difference, elem_of_singleton. tauto.
    - rewrite elem_of_union, elem_of_singleton. tauto. }
  split; [exact H1|]. split; [apply H2|].
  apply set_eq. intros x. destruct (decide (x = documentId)) as [->|Hne].
  - unfold toggleDocumentSelection at 1.
    destruct (bool_decide_reflect (documentId ∈ toggleDocumentSelection documentId prev))
      as [Hin|Hout].
    + rewrite elem_of_difference, elem_of_singleton.
      split; [tauto|]. intros Hp. apply H1 in Hin. contradiction.
    + rewrite elem_of_union, elem_of_singleton.
      split; [|tauto]. intros _. rewrite H1 in Hout.
      now destruct (decide (documentId ∈ prev)).
  - now rewrite !H2.
Qed.

Lemma toggleDocumentSelection_flips_one_witness :
  ("d2" : string) ∈ toggleDocumentSelection "d1" {["d2"]}.
Proof.
  apply (proj1 (proj2 (toggleDocumentSelection_flips_one "d1" {["d2"]})) "d2").
  - discriminate.
  - now apply elem_of_singleton.
Defined.

Lemma size_list_to_set_NoDup (l : list string) :
  size (list_to_set l : gset string) = length l <-> NoDup l.
Proof.
  split; [|apply size_list_to_set].
  induction l as [|x l IH]; intros H; [constructor|].
  assert (Hle : forall l' : list string, size (list_to_set l' : gset string) <= length l').
  { induction l' as [|y l' IH']; [now rewrite list_to_set_nil, size_empty|].
    rewrite list_to_set_cons. cbn [length].
    rewrite size_union_alt, size_singleton.
    assert (size (list_to_set l' ∖ {[y]} : gset string) <= size (list_to_set l' : gset string))
      by (apply subseteq_size; intros z Hz; apply elem_of_difference in Hz; tauto).
    lia. }
  rewrite list_to_set_cons in H. cbn [length] in H.
  destruct (decide (x ∈ l)) as [Hin|Hout].
  - exfalso.
    assert (E : ({[x]} ∪ list_to_set l : gset string) = list_to_set l).
    { apply set_eq. intros y. rewrite elem_of_union, elem_of_singleton, elem_of_list_to_set.
      split; [intros [->|]; assumption|tauto]. }
    rewrite E in H. specialize (Hle l). lia.
  - constructor; [exact Hout|]. apply IH.
    rewrite size_union in H.
    + rewrite size_singleton in H. lia.
    + intros y Hy1 Hy2. apply elem_of_singleton in Hy1 as ->.
      now apply elem_of_list_to_set in Hy2.
Qed.

(** X23.  [selectAllDocuments] looks at the size of the selection only: a
    selection with as many members as there are documents is cleared,
    whichever identifiers it holds, and any other is replaced by the
    identifiers of all documents.  So the selection of all documents is
    cleared by it exactly when the documents have distinct identifiers. *)
Theorem selectAllDocuments_by_size (documents : list Document)
    (selectedDocuments : gset string) :
  (size selectedDocuments = length documents ->
   selectAllDocuments documents selectedDocuments = ∅)
  /\ (size selectedDocuments <> length documents ->
      forall documentId,
        documentId ∈ selectAllDocuments documents selectedDocuments
        <-> exists doc, In doc documents /\ doc_id doc = documentId)
  /\ (documents <> [] ->
      (selectAllDocuments documents (list_to_set (List.map doc_id documents)) = ∅
       <-> NoDup (List.map doc_id documents))).
Proof.
  unfold selectAllDocuments. split; [|split].
  - intros ->. now rewrite Nat.eqb_refl.
  - intros H documentId. apply Nat.eqb_neq in H. rewrite H.
    rewrite elem_of_list_to_set, list_elem_of_In, List.in_map_iff.
    split; intros (doc & H1 & H2); exists doc; auto.
  - intros Hne. rewrite <- size_list_to_set_NoDup, List.length_map.
    destruct (Nat.eqb_spec (size (list_to_set (List.map doc_id documents) : gset string))
                (length documents)) as [E|E].
    + tauto.
    + split; [|intros E'; contradiction].
      intros Hempty. destruct documents as [|d documents]; [contradiction|].
      exfalso. cbn [List.map] in Hempty. rewrite list_to_set_cons in Hempty.
      assert (Hd : doc_id d ∈ (∅ : gset string))
        by (rewrite <- Hempty; apply elem_of_union; left; now apply elem_of_singleton).
      now apply not_elem_of_empty in Hd.
Qed.

Lemma selectAllDocuments_by_size_witness :
  selectAllDocuments [b_pdf st_uploaded] {["d1"]} = ∅.
Proof.
  apply (proj1 (selectAllDocuments_by_size [b_pdf st_uploaded] {["d1"]})).
  vm_compute. reflexivity.
Defined.

(* ===================================================================== *)
(** * Searching topics                                                    *)
(* ===================================================================== *)

(** X24.  [searchTopics] sends no request for a query of white space only
    and returns the loaded topics without a toast.  Any other query is sent
    once, as typed (its surrounding white space included) and with the limit
    50; the result then does not depend on the loaded topics, and whenever
    an error toast is raised the result is the empty list. *)
Theorem searchTopics_blank_or_sent (topics : list Topic) (query : jsstring)
    (api : jsstring -> Z -> Settled SearchReply) :
  let o := searchTopics topics query api in
  (trim query = [] ->
   search_requests o = [] /\ search_result o = topics /\ search_toasts o = [])
  /\ (trim query <> [] ->
      search_requests o = [(query, 50%Z)]
      /\ search_result o = search_result (searchTopics [] query api)
      /\ (search_toasts o <> [] -> search_result o = []))
  /\ length (search_toasts o) <= 1.
Proof.
  intros o. subst o. unfold searchTopics.
  destruct (trim query) as [|c rest].
  - cbn. split; [intros _; auto|]. split; [intros H; now destruct H|lia].
  - split; [intros H; discriminate H|].
    destruct (api query 50%Z) as [reply|e]; [destruct (sr_success reply)|]; cbn;
      (split; [|lia]); intros _; (split; [reflexivity|]);
      (split; [reflexivity|]); intros H; congruence.
Qed.

Lemma searchTopics_blank_or_sent_witness :
  search_requests
    (searchTopics [] (lit "  ") (fun _ _ => Rejected (thrown (lit "unused"))))
  = [].
Proof.
  apply (proj1 (searchTopics_blank_or_sent [] (lit "  ")
                  (fun _ _ => Rejected (thrown (lit "unused"))))).
  vm_compute. reflexivity.
Defined.

(* ===================================================================== *)
(** * A click whose request fails                                         *)
(* ===================================================================== *)

Lemma render_eq (a b : Render) :
  documents a = documents b -> processing a = processing b ->
  reprocessing a = reprocessing b -> processingTimers a = processingTimers b ->
  pollingIntervals a = pollingIntervals b -> a = b.
Proof. destruct a, b; cbn; intros; subst; reflexivity. Qed.

Lemma union_difference_singleton_id (s : gset string) (x : string) :
  x ∉ s -> (s ∪ {[x]}) ∖ {[x]} = s.
Proof.
  intros H. apply set_eq. intros y.
  rewrite elem_of_difference, elem_of_union, elem_of_singleton.
  split; [tauto|]. intros Hy. split; [tauto|]. intros ->. contradiction.
Qed.

Lemma difference_singleton_id (s : gset string) (x : string) :
  x ∉ s -> s ∖ {[x]} = s.
Proof.
  intros H. apply set_eq. intros y.
  rewrite elem_of_difference, elem_of_singleton.
  split; [tauto|]. intros Hy. split; [tauto|]. intros ->. contradiction.
Qed.

Lemma statusEffect_skip r (l : list Document) w :
  (forall d, In d l -> terminal d = true ->
     (doc_id d ∉ processing r) /\ (doc_id d ∉ reprocessing r)) ->
  fold_left (fun w document =>
     if (bool_decide (doc_id document ∈ processing r)
         || bool_decide (doc_id document ∈ reprocessing r))
        && terminal document
     then stopPolling r (doc_id document)
            (bool_decide (doc_id document ∈ reprocessing r)) w
     else w) l w = w.
Proof.
  induction l as [|d l IH]; intros H; simpl; [reflexivity|].
  destruct (terminal d) eqn:Ht.
  - destruct (H d (or_introl eq_refl) Ht) as [H1 H2].
    rewrite (bool_decide_eq_false_2 _ H1), (bool_decide_eq_false_2 _ H2). simpl.
    apply IH. intros x Hx. apply H. now right.
  - rewrite andb_false_r. apply IH. intros x Hx. apply H. now right.
Qed.

Lemma statusEffect_idle r w : idle r -> statusEffect r w = w.
Proof. intros H. apply statusEffect_skip, H. Qed.

(** The status effect with one document to stop. *)
Lemma statusEffect_one r w before d after :
  documents r = before ++ d :: after ->
  (forall x, In x (before ++ after) -> terminal x = true ->
     (doc_id x ∉ processing r) /\ (doc_id x ∉ reprocessing r)) ->
  terminal d = true -> doc_id d ∈ reprocessing r ->
  statusEffect r w = stopPolling r (doc_id d) true w.
Proof.
  intros Hdocs Hothers Ht Hin. unfold statusEffect. rewrite Hdocs, fold_left_app.
  rewrite (statusEffect_skip r before w)
    by (intros x Hx Hxt; apply Hothers; [apply in_or_app; now left|exact Hxt]).
  cbn [fold_left]. rewrite Ht, (bool_decide_eq_true_2 _ Hin), orb_true_r. simpl.
  apply statusEffect_skip. intros x Hx Hxt.
  apply Hothers; [apply in_or_app; now right|exact Hxt].
Qed.

Lemma find_document_first documentId before d after :
  (forall x, In x before -> doc_id x <> documentId) -> doc_id d = documentId ->
  find_document documentId (before ++ d :: after) = Some d.
Proof.
  intros Hb Hd. unfold find_document.
  induction before as [|x before IH]; simpl.
  - apply String.eqb_eq in Hd. now rewrite Hd.
  - assert (Hx : doc_id x <> documentId) by (apply Hb; now left).
    apply String.eqb_neq in Hx. rewrite Hx. apply IH. intros y Hy. apply Hb. now right.
Qed.

Ltac restore_render :=
  f_equal; apply render_eq; cbn; try reflexivity;
  first [ now apply union_difference_singleton_id
        | now apply delete_insert_id
        | now apply difference_singleton_id
        | now apply delete_id ].

(** A render in which the status effect has nothing to stop. *)
Lemma settle_idle fuel w :
  is_mounted w = true -> registry_changed w = false ->
  status_deps_changed w = true -> idle (current w) ->
  settle (S (S fuel)) w = rendered w.
Proof.
  intros Hm Hr Hs Hidle.
  assert (E : commit w = rendered w).
  { unfold commit. rewrite Hr, Hs. now apply statusEffect_idle. }
  change (settle (S (S fuel)) w)
    with (if is_mounted w && (registry_changed w || status_deps_changed w)
          then settle (S fuel) (commit w) else w).
  rewrite Hm, Hr, Hs, E. cbn. now rewrite andb_false_r.
Qed.

(** X25.  From a state of rest in which no finished document is in flight
    and the document has no timer: a click on Process for a document that is
    not in a terminal state, whose request then fails, leaves the component
    as it was before the click, with one error toast.  A confirmed click on
    Reprocess (the button of a document in a terminal state) whose request
    is rejected also leaves the state as it was, but with two toasts: the
    status effect of the render after the click has already taken the
    document out of the reprocessing set and has announced the outcome that
    the document shows, before the error toast of the failed request. *)
Theorem failed_start_restores_the_component (w : World) (r : Render)
    (documentId : string) (now : Z) :
  is_mounted w = true ->
  registry_changed w = false -> status_deps_changed w = false ->
  current w = committed w -> idle (current w) ->
  processingTimers (current w) !! documentId = None ->
  (forall reply,
      (forall data, reply = Fulfilled data -> start_success data = false) ->
      documentId ∉ processing (current w) ->
      (forall d, In d (documents (current w)) ->
         doc_id d = documentId -> terminal d = false) ->
      exists text,
        run [ClickProcess documentId now; ProcessSettled r documentId reply] w
        = toast (toast_error (lit "Failed to start document processing: " ++ text)) w)
  /\ (forall error before d after,
      documents (current w) = before ++ d :: after ->
      doc_id d = documentId -> terminal d = true ->
      (forall x, In x (before ++ after) -> doc_id x <> documentId) ->
      pollingIntervals (current w) !! documentId = None ->
      run [ClickReprocess documentId now;
           ReprocessSettled r documentId (Rejected error)] w
      = toast (toast_error (lit "Failed to start document reprocessing"))
          (toast (outcome_toast true d) w)).
Proof.
  intros Hm Hr Hs Hcur Hidle Htimer.
  destruct w as [m cur com rc sc ints nh ts rf]. cbn in Hm, Hr, Hs, Hcur, Hidle, Htimer.
  subst m rc sc com. split.
  - intros reply Hfail Hproc Hdoc. cbn in Hproc, Hdoc.
    assert (Hgo : forall error,
      run [ClickProcess documentId now; ProcessSettled r documentId reply]
        {| is_mounted := true; current := cur; committed := cur;
           registry_changed := false; status_deps_changed := false;
           intervals := ints; next_handle := nh; toasts := ts; refreshes := rf |}
      = settle 8
          (setProcessingTimers (delete documentId)
             (setProcessing (fun prev => prev ∖ {[documentId]})
                (toast (toast_error (lit "Failed to start document processing: "
                                       ++ errorMessage error (lit "undefined")))
                   (rendered
                      (setProcessingTimers (fun prev => <[documentId := now]> prev)
                         (setProcessing (fun prev => prev ∪ {[documentId]})
                            {| is_mounted := true; current := cur; committed := cur;
                               registry_changed := false; status_deps_changed := false;
                               intervals := ints; next_handle := nh; toasts := ts;
                               refreshes := rf |})))))) ->
      exists text,
        run [ClickProcess documentId now; ProcessSettled r documentId reply]
          {| is_mounted := true; current := cur; committed := cur;
             registry_changed := false; status_deps_changed := false;
             intervals := ints; next_handle := nh; toasts := ts; refreshes := rf |}
        = toast (toast_error (lit "Failed to start document processing: " ++ text))
            {| is_mounted := true; current := cur; committed := cur;
               registry_changed := false; status_deps_changed := false;
               intervals := ints; next_handle := nh; toasts := ts; refreshes := rf |}).
    { intros error ->. exists (errorMessage error (lit "undefined")).
      rewrite settle_idle; [| reflexivity | reflexivity | reflexivity |].
      - unfold rendered, toast. cbn. restore_render.
      - cbn. intros d Hd Ht. cbn in Hd.
        rewrite union_difference_singleton_id by exact Hproc. now apply Hidle. }
    assert (Hfirst :
      step {| is_mounted := true; current := cur; committed := cur;
              registry_changed := false; status_deps_changed := false;
              intervals := ints; next_handle := nh; toasts := ts; refreshes := rf |}
           (ClickProcess documentId now)
      = rendered
          (setProcessingTimers (fun prev => <[documentId := now]> prev)
             (setProcessing (fun prev => prev ∪ {[documentId]})
                {| is_mounted := true; current := cur; committed := cur;
                   registry_changed := false; status_deps_changed := false;
                   intervals := ints; next_handle := nh; toasts := ts;
                   refreshes := rf |}))).
    { unfold step. cbn [handle]. unfold processDocument_begin. cbn [committed].
      rewrite (bool_decide_eq_false_2 _ Hproc).
      apply settle_idle; try reflexivity.
      cbn. intros d Hd Ht. destruct (Hidle d Hd Ht) as [H1 H2]. split; [|exact H2].
      cbn. rewrite elem_of_union, elem_of_singleton. intros [H|H]; [contradiction|].
      specialize (Hdoc d Hd H). congruence. }
    destruct reply as [data|error].
    + apply (Hgo (thrown match start_error data with
                         | [] => lit "Failed to start processing"
                         | e => e
                         end)).
      unfold run. cbn [fold_left]. rewrite Hfirst.
      unfold step at 1. cbn [handle]. unfold processDocument_settled.
      now rewrite (Hfail data eq_refl).
    + apply (Hgo error).
      unfold run. cbn [fold_left]. rewrite Hfirst. reflexivity.
  - intros error before d after Hdocs Hd Ht Hothers Hreg. cbn in Hdocs, Hreg.
    assert (Hd_in : In d (documents cur))
      by (rewrite Hdocs; apply in_or_app; right; now left).
    destruct (Hidle d Hd_in Ht) as [Hp Hrp]. rewrite Hd in Hp, Hrp.
    set (w0 := {| is_mounted := true; current := cur; committed := cur;
                  registry_changed := false; status_deps_changed := false;
                  intervals := ints; next_handle := nh; toasts := ts;
                  refreshes := rf |}).
    set (w1 := setProcessingTimers (fun prev => <[documentId := now]> prev)
                 (setReprocessing (fun prev => prev ∪ {[documentId]}) w0)).
    assert (Hstop : commit w1
                    = toast (outcome_toast true d)
                        (setProcessingTimers (delete documentId)
                           (setReprocessing (fun prev => prev ∖ {[documentId]})
                              (rendered w1)))).
    { unfold commit. change (registry_changed w1) with false.
      change (status_deps_changed w1) with true. cbv iota.
      change {| is_mounted := is_mounted w1; current := current w1;
                committed := current w1; registry_changed := false;
                status_deps_changed := false; intervals := intervals w1;
                next_handle := next_handle w1; toasts := toasts w1;
                refreshes := refreshes w1 |} with (rendered w1).
      rewrite (statusEffect_one (current w1) (rendered w1) before d after).
      - rewrite Hd. unfold stopPolling.
        change (pollingIntervals (current w1) !! documentId)
          with (pollingIntervals cur !! documentId).
        rewrite Hreg.
        change (documents (current w1)) with (documents cur).
        rewrite Hdocs, find_document_first
          by (try exact Hd; intros x Hx; apply Hothers, in_or_app; now left).
        unfold outcome_toast, terminal, has_status in *.
        destruct (doc_status d); try discriminate; reflexivity.
      - exact Hdocs.
      - intros x Hx Hxt.
        assert (Hx_in : In x (documents cur)).
        { rewrite Hdocs. apply in_app_or in Hx as [Hx|Hx]; apply in_or_app;
            [now left|right; now right]. }
        destruct (Hidle x Hx_in Hxt) as [H1 H2]. split; [exact H1|].
        cbn. rewrite elem_of_union, elem_of_singleton.
        intros [H|H]; [contradiction|]. now apply (Hothers x Hx).
      - exact Ht.
      - rewrite Hd. cbn. apply elem_of_union. right. now apply elem_of_singleton. }
    assert (Hfirst : step w0 (ClickReprocess documentId now)
                     = toast (outcome_toast true d) w0).
    { unfold step. cbn [handle]. unfold reprocessDocument_begin. fold w1.
      change (settle 8 w1)
        with (if is_mounted w1 && (registry_changed w1 || status_deps_changed w1)
              then settle 7 (commit w1) else w1).
      change (is_mounted w1 && (registry_changed w1 || status_deps_changed w1))
        with true. cbv iota. rewrite Hstop.
      rewrite settle_idle; [| reflexivity | reflexivity | reflexivity |].
      - unfold rendered, toast, w0. cbn. restore_render.
      - cbn. intros x Hx Hxt. cbn in Hx.
        rewrite union_difference_singleton_id by exact Hrp. now apply Hidle. }
    unfold run. cbn [fold_left]. fold w0. rewrite Hfirst.
    unfold step. cbn [handle]. unfold reprocessDocument_settled.
    rewrite settle_idle; [| reflexivity | reflexivity | reflexivity |].
    + unfold rendered, toast, w0. cbn. restore_render.
    + cbn. intros x Hx Hxt. cbn in Hx.
      rewrite difference_singleton_id by exact Hrp. now apply Hidle.
Qed.

Lemma failed_start_restores_the_component_witness :
  run [ClickReprocess "d1" 3;
       ReprocessSettled (emptyRender [a_pdf st_processed]) "d1"
         (Rejected (thrown (lit "offline")))]
    (mounted [a_pdf st_processed])
  = toast (toast_error (lit "Failed to start document reprocessing"))
      (toast (outcome_toast true (a_pdf st_processed)) (mounted [a_pdf st_processed])).
Proof.
  refine (proj2 (failed_start_restores_the_component
            (mounted [a_pdf st_processed]) (emptyRender [a_pdf st_processed]) "d1" 3
            eq_refl eq_refl eq_refl eq_refl _ eq_refl)
            (thrown (lit "offline")) [] (a_pdf st_processed) [] eq_refl eq_refl eq_refl
            _ eq_refl).
  - intros d _ _. split; apply not_elem_of_empty.
  - intros x [].
Defined.

(* ===================================================================== *)
(** * The texts of the notifications                                      *)
(* ===================================================================== *)

Lemma errorMessage_worded (error : ApiError) (fallback : jsstring) :
  fallback <> [] -> errorMessage error fallback <> [].
Proof.
  unfold errorMessage. intros H.
  destruct (err_data_message error); [|discriminate].
  destruct (err_message error); [exact H|discriminate].
Qed.

Lemma errorMessage_thrown_worded (text fallback : jsstring) :
  fallback <> [] ->
  errorMessage (thrown match text with [] => fallback | e => e end) fallback <> [].
Proof. intros H. now apply errorMessage_worded. Qed.

Lemma app_worded (a b : jsstring) : b <> [] -> a ++ b <> [].
Proof. intros H E. apply app_eq_nil in E as [_ E]. contradiction. Qed.

(** X26.  No toast of the hooks is blank: whatever the replies and the
    errors hold (an empty [message], an empty [error]), every toast raised
    by [uploadDocument], [batchDeleteDocuments], [processDocument],
    [reprocessDocument], [deleteDocument] and [searchTopics] carries a text,
    because each falls back on a fixed phrase. *)
Theorem hook_toasts_are_worded :
  (forall file api documents,
      all_worded (upload_toasts (uploadDocument file api documents)))
  /\ (forall ids api documents,
      all_worded (bd_toasts (batchDeleteDocuments ids api documents)))
  /\ (forall id reprocessed listed s,
      all_worded (useDocuments.raised
                    (useDocuments.processDocument id reprocessed listed s))
      /\ all_worded (useDocuments.raised
                       (useDocuments.reprocessDocument id reprocessed listed s)))
  /\ (forall documents id deleted s,
      all_worded (useDocuments.raised
                    (useDocuments.deleteDocument documents id deleted s)))
  /\ (forall topics query api,
      all_worded (search_toasts (searchTopics topics query api))).
Proof.
  assert (Hone : forall t, toast_text t <> [] -> all_worded [t])
    by (intros t H; constructor; [exact H|constructor]).
  split; [|split; [|split; [|split]]].
  - intros [file|] api documents; unfold uploadDocument; [|now apply Hone].
    destruct (file_size file >? maxSize)%Z; [now apply Hone|].
    destruct (negb (extension_allowed file)); [now apply Hone|].
    destruct (api file) as [reply|e]; [destruct (up_success reply)|];
      apply Hone; cbn [toast_text upload_toasts];
      try discriminate; now apply errorMessage_worded.
  - intros ids api documents. unfold batchDeleteDocuments.
    destruct ids as [|i ids]; [now apply Hone|].
    destruct api as [reply|e];
      [destruct (bd_success reply); [destruct (bd_summary reply) as [[a b]|]|]|];
      apply Hone; cbn [toast_text bd_toasts];
      try (now apply errorMessage_worded).
    + now apply app_worded.
    + rewrite !app_assoc. now apply app_worded.
  - intros id reprocessed listed s.
    unfold useDocuments.processDocument, useDocuments.reprocessDocument.
    destruct reprocessed as [reply|e];
      [destruct (useDocuments.rp_success reply)|];
      split; apply Hone; cbn [toast_text useDocuments.raised];
      try discriminate; now apply errorMessage_worded.
  - intros documents id deleted s. unfold useDocuments.deleteDocument.
    destruct (List.find _ documents) as [found|]; [|now apply Hone].
    destruct deleted as [reply|e];
      [destruct (useDocuments.rp_success reply)|];
      apply Hone; cbn [toast_text useDocuments.raised];
      try discriminate; now apply errorMessage_worded.
  - intros topics query api. unfold searchTopics.
    destruct (trim query); [constructor|].
    destruct (api query 50%Z) as [reply|e]; [destruct (sr_success reply)|];
      cbn [search_toasts]; [constructor| |];
      apply Hone; cbn [toast_text]; now apply errorMessage_worded.
Qed.
